(** * mcp-kroki: the Kroki diagram server (src/index.ts)

    A shallow embedding of [KrokiServer]: the two validators, the
    content encoder, [getDiagramData] (fetch, HTML error page detection,
    inline SVG error scan, SVG scaling), [generateDiagramUrl] and the two
    tool handlers, followed by the properties of the specification.

    JavaScript strings are sequences of UTF-16 code units, buffers are
    sequences of bytes.  The library functions the program calls
    (Buffer.toString, String.prototype.trim, RegExp matching, parseFloat,
    Number.prototype.toFixed, ...) are written out from their
    specifications; [pako]'s compressor, the HTTP transport, the file
    system and [path] stay parameters. *)

From Stdlib Require Import String Ascii Strings.Byte.
From Stdlib Require Import List NArith ZArith QArith Qabs Bool Lia.
Import ListNotations.

Set Implicit Arguments.
Local Open Scope N_scope.

(** ** Strings and buffers *)

(** A JavaScript string: its UTF-16 code units. *)
Definition jsstring := list N.

(** A Buffer or Uint8Array. *)
Definition buffer := list byte.

Definition jsstring_eqb (a b : jsstring) : bool :=
  if list_eq_dec N.eq_dec a b then true else false.

(** *** Buffer.toString('utf-8')

    The decoder of the Encoding Standard: every ill-formed sequence gives
    U+FFFD, a byte that cannot continue a sequence is read again as the
    start of the next one, code points above U+FFFF give a surrogate
    pair.  No byte-order mark is removed. *)

Record utf8_state := Utf8State {
  u_needed : N;   (* continuation bytes still expected (0: none) *)
  u_cp : N;       (* code point accumulated so far *)
  u_lower : N;    (* accepted range of the next continuation byte *)
  u_upper : N
}.

Definition utf8_init : utf8_state := Utf8State 0 0 128 191.

Definition utf16_of_code_point (cp : N) : jsstring :=
  if cp <? 65536 then [cp]
  else [55296 + N.shiftr (cp - 65536) 10; 56320 + N.land (cp - 65536) 1023].

(** A byte read when no sequence is open. *)
Definition utf8_lead (b : N) : jsstring * utf8_state :=
  if b <=? 127 then ([b], utf8_init)
  else if (194 <=? b) && (b <=? 223) then
    ([], Utf8State 1 (N.land b 31) 128 191)
  else if (224 <=? b) && (b <=? 239) then
    ([], Utf8State 2 (N.land b 15)
           (if b =? 224 then 160 else 128) (if b =? 237 then 159 else 191))
  else if (240 <=? b) && (b <=? 244) then
    ([], Utf8State 3 (N.land b 7)
           (if b =? 240 then 144 else 128) (if b =? 244 then 143 else 191))
  else ([65533], utf8_init).

Definition utf8_step (st : utf8_state) (b : N) : jsstring * utf8_state :=
  if u_needed st =? 0 then utf8_lead b
  else if (u_lower st <=? b) && (b <=? u_upper st) then
    let cp := N.lor (N.shiftl (u_cp st) 6) (N.land b 63) in
    if u_needed st =? 1 then (utf16_of_code_point cp, utf8_init)
    else ([], Utf8State (u_needed st - 1) cp 128 191)
  else
    let (out, st') := utf8_lead b in (65533 :: out, st').

Fixpoint utf8_decode_from (st : utf8_state) (bs : buffer) : jsstring :=
  match bs with
  | [] => if u_needed st =? 0 then [] else [65533]
  | b :: bs' =>
      let (out, st') := utf8_step st (Byte.to_N b) in
      out ++ utf8_decode_from st' bs'
  end.

(** [buf.toString('utf-8')] *)
Definition toString_utf8 (bs : buffer) : jsstring := utf8_decode_from utf8_init bs.

(** [buf.toString('utf-8', 0, n)]: the first [n] bytes, decoded. *)
Definition toString_utf8_slice (n : nat) (bs : buffer) : jsstring :=
  toString_utf8 (firstn n bs).

(** *** Buffer.from(string, 'utf-8')

    A surrogate pair gives four bytes, a lone surrogate gives the bytes
    of U+FFFD. *)

Definition byte_of_N (n : N) : byte :=
  match Byte.of_N n with Some b => b | None => x00 end.

Definition utf8_of_code_point (cp : N) : buffer :=
  if cp <? 128 then [byte_of_N cp]
  else if cp <? 2048 then
    [byte_of_N (192 + N.shiftr cp 6); byte_of_N (128 + N.land cp 63)]
  else if cp <? 65536 then
    [byte_of_N (224 + N.shiftr cp 12);
     byte_of_N (128 + N.land (N.shiftr cp 6) 63);
     byte_of_N (128 + N.land cp 63)]
  else
    [byte_of_N (240 + N.shiftr cp 18);
     byte_of_N (128 + N.land (N.shiftr cp 12) 63);
     byte_of_N (128 + N.land (N.shiftr cp 6) 63);
     byte_of_N (128 + N.land cp 63)].

Definition is_high_surrogate (c : N) : bool := (55296 <=? c) && (c <=? 56319).
Definition is_low_surrogate (c : N) : bool := (56320 <=? c) && (c <=? 57343).

Fixpoint utf8_encode (s : jsstring) : buffer :=
  match s with
  | [] => []
  | c :: s' =>
      if is_high_surrogate c then
        match s' with
        | d :: s'' =>
            if is_low_surrogate d then
              utf8_of_code_point (65536 + (c - 55296) * 1024 + (d - 56320))
                ++ utf8_encode s''
            else utf8_of_code_point 65533 ++ utf8_encode s'
        | [] => utf8_of_code_point 65533
        end
      else if is_low_surrogate c then utf8_of_code_point 65533 ++ utf8_encode s'
      else utf8_of_code_point c ++ utf8_encode s'
  end.

(** String literals of the source: the text between the quotes, read as
    UTF-8 (the encoding of the source file). *)
Definition js (s : string) : jsstring := toString_utf8 (list_byte_of_string s).

(** *** Buffer.toString('base64') *)

Definition base64_alphabet : jsstring :=
  Eval vm_compute in
    js "ABCDEFGHIJKLMNOPQRSTUVWXYZabcdefghijklmnopqrstuvwxyz0123456789+/".

Definition base64_char (i : N) : N := nth (N.to_nat i) base64_alphabet 0.

Definition char_eq : N := 61.      (* = *)
Definition char_plus : N := 43.    (* + *)
Definition char_slash : N := 47.   (* / *)
Definition char_minus : N := 45.   (* - *)
Definition char_under : N := 95.   (* _ *)

Fixpoint base64_encode (bs : list N) : jsstring :=
  match bs with
  | [] => []
  | [a] =>
      [base64_char (N.shiftr a 2); base64_char (N.shiftl (N.land a 3) 4);
       char_eq; char_eq]
  | [a; b] =>
      [base64_char (N.shiftr a 2);
       base64_char (N.lor (N.shiftl (N.land a 3) 4) (N.shiftr b 4));
       base64_char (N.shiftl (N.land b 15) 2); char_eq]
  | a :: b :: c :: rest =>
      base64_char (N.shiftr a 2)
      :: base64_char (N.lor (N.shiftl (N.land a 3) 4) (N.shiftr b 4))
      :: base64_char (N.lor (N.shiftl (N.land b 15) 2) (N.shiftr c 6))
      :: base64_char (N.land c 63)
      :: base64_encode rest
  end.

Definition toString_base64 (bs : buffer) : jsstring :=
  base64_encode (map Byte.to_N bs).

(** *** String.prototype methods *)

(** WhiteSpace and LineTerminator of ECMAScript: what [trim] strips and
    what [\s] matches. *)
Definition is_js_space (c : N) : bool :=
  ((9 <=? c) && (c <=? 13)) || (c =? 32) || (c =? 160) || (c =? 5760)
  || ((8192 <=? c) && (c <=? 8202)) || (c =? 8232) || (c =? 8233)
  || (c =? 8239) || (c =? 8287) || (c =? 12288) || (c =? 65279).

Fixpoint trimStart (s : jsstring) : jsstring :=
  match s with
  | c :: s' => if is_js_space c then trimStart s' else s
  | [] => []
  end.

Definition trimEnd (s : jsstring) : jsstring := rev (trimStart (rev s)).

Definition trim (s : jsstring) : jsstring := trimEnd (trimStart s).

Fixpoint startsWith (s p : jsstring) {struct p} : bool :=
  match p, s with
  | [], _ => true
  | _ :: _, [] => false
  | a :: p', c :: s' => (c =? a) && startsWith s' p'
  end.

Fixpoint includes (s p : jsstring) : bool :=
  startsWith s p ||
  match s with
  | [] => false
  | _ :: s' => includes s' p
  end.

(** [toLowerCase] on the code units a header value can hold (Node decodes
    header bytes as Latin-1): A-Z and the capital letters of Latin-1 move
    by 32, everything else stays.  The program only looks for [text/html]
    in the result. *)
Definition lower_char (c : N) : N :=
  if ((65 <=? c) && (c <=? 90))
     || ((192 <=? c) && (c <=? 222) && negb (c =? 215))
  then c + 32 else c.

Definition toLowerCase (s : jsstring) : jsstring := map lower_char s.

(** Decimal digits of a non-negative integer ([String(n)]). *)
Fixpoint digits_fuel (fuel : nat) (n : N) (acc : jsstring) : jsstring :=
  match fuel with
  | O => acc
  | S f =>
      let acc' := (48 + n mod 10) :: acc in
      if n <? 10 then acc' else digits_fuel f (n / 10) acc'
  end.

Definition decimal (n : N) : jsstring :=
  digits_fuel (S (N.to_nat (N.log2 n))) n [].

(** ** Regular expressions

    The fragment of ECMAScript regular expressions the program uses:
    characters and character classes, a greedy or lazy star and a plus
    over one class, sequence, alternation and capture groups, with the
    [i] flag.  Matching backtracks in the order of the standard: the left
    alternative first, the longest repetition first for a greedy
    quantifier and the shortest first for a lazy one. *)

Inductive cclass : Type :=
| CLit (c : N)                  (* a pattern character *)
| CAny                          (* [\s\S] *)
| CDot                          (* .  : anything but a line terminator *)
| CNot (c : N)                  (* [^c] *)
| CSpace                        (* \s *)
| CRanges (l : list (N * N)).   (* [a-bc-d...] *)

(** Canonicalize of the standard without the [u] flag: upper case, where
    a character outside ASCII never maps into ASCII.  Every pattern
    character of the program is ASCII, so only the ASCII part matters. *)
Definition canonicalize (icase : bool) (c : N) : N :=
  if icase && (97 <=? c) && (c <=? 122) then c - 32 else c.

Definition is_line_terminator (c : N) : bool :=
  (c =? 10) || (c =? 13) || (c =? 8232) || (c =? 8233).

Definition cmatch (icase : bool) (cl : cclass) (c : N) : bool :=
  match cl with
  | CLit a => canonicalize icase c =? canonicalize icase a
  | CAny => true
  | CDot => negb (is_line_terminator c)
  | CNot a => negb (canonicalize icase c =? canonicalize icase a)
  | CSpace => is_js_space c
  | CRanges l => existsb (fun r => (fst r <=? c) && (c <=? snd r)) l
  end.

Inductive regex : Type :=
| Eps
| Chr (cl : cclass)
| Star (cl : cclass)            (* cl*  *)
| StarLazy (cl : cclass)        (* cl*? *)
| Seq (r1 r2 : regex)
| Alt (r1 r2 : regex)
| Group (i : nat) (r : regex).  (* the i-th pair of parentheses *)

(** cl+ *)
Definition Plus (cl : cclass) : regex := Seq (Chr cl) (Star cl).

(** A run of pattern characters. *)
Fixpoint rlit (s : jsstring) : regex :=
  match s with
  | [] => Eps
  | [c] => Chr (CLit c)
  | c :: s' => Seq (Chr (CLit c)) (rlit s')
  end.

(** The captures of a match, latest first; an index that is absent is
    [undefined]. *)
Definition captures := list (nat * jsstring).

Fixpoint capture (i : nat) (cs : captures) : option jsstring :=
  match cs with
  | [] => None
  | (j, s) :: cs' => if Nat.eqb i j then Some s else capture i cs'
  end.

Section Matcher.
Variable A : Type.
Variable icase : bool.

Fixpoint star_greedy (cl : cclass) (s : jsstring) (k : jsstring -> option A)
  : option A :=
  match s with
  | c :: s' =>
      if cmatch icase cl c then
        match star_greedy cl s' k with
        | Some a => Some a
        | None => k s
        end
      else k s
  | [] => k s
  end.

Fixpoint star_lazy (cl : cclass) (s : jsstring) (k : jsstring -> option A)
  : option A :=
  match k s with
  | Some a => Some a
  | None =>
      match s with
      | c :: s' => if cmatch icase cl c then star_lazy cl s' k else None
      | [] => None
      end
  end.

(** [rmatch r s cs k]: match [r] at the start of [s]; the continuation
    receives what is left of [s] and the captures, and answers [None]
    to ask for the next alternative. *)
Fixpoint rmatch (r : regex) (s : jsstring) (cs : captures)
         (k : jsstring -> captures -> option A) : option A :=
  match r with
  | Eps => k s cs
  | Chr cl =>
      match s with
      | c :: s' => if cmatch icase cl c then k s' cs else None
      | [] => None
      end
  | Star cl => star_greedy cl s (fun s' => k s' cs)
  | StarLazy cl => star_lazy cl s (fun s' => k s' cs)
  | Seq r1 r2 => rmatch r1 s cs (fun s' cs' => rmatch r2 s' cs' k)
  | Alt r1 r2 =>
      match rmatch r1 s cs k with
      | Some a => Some a
      | None => rmatch r2 s cs k
      end
  | Group i r1 =>
      rmatch r1 s cs
        (fun s' cs' =>
           k s' ((i, firstn (length s - length s') s) :: cs'))
  end.
End Matcher.

(** The result of [RegExp.prototype.exec]: the text before the match,
    the match ([m[0]]), the text after it and the groups. *)
Record match_result := MatchResult {
  m_before : jsstring;
  m_text : jsstring;
  m_after : jsstring;
  m_groups : captures
}.

Definition match_at (icase : bool) (r : regex) (before_rev s : jsstring)
  : option match_result :=
  rmatch icase r s []
    (fun s' cs =>
       Some (MatchResult (rev before_rev)
               (firstn (length s - length s') s) s' cs)).

(** The leftmost match: every start position in turn. *)
Fixpoint exec_from (icase : bool) (r : regex) (before_rev s : jsstring)
  : option match_result :=
  match match_at icase r before_rev s with
  | Some m => Some m
  | None =>
      match s with
      | [] => None
      | c :: s' => exec_from icase r (c :: before_rev) s'
      end
  end.

(** [s.match(/r/)] and [s.match(/r/i)] *)
Definition regex_exec (icase : bool) (r : regex) (s : jsstring)
  : option match_result := exec_from icase r [] s.

(** [/r/.test(s)] *)
Definition regex_test (icase : bool) (r : regex) (s : jsstring) : bool :=
  match regex_exec icase r s with Some _ => true | None => false end.

(** [m[i]] for a group [i >= 1] *)
Definition group (i : nat) (m : match_result) : option jsstring :=
  capture i (m_groups m).

(** [s.replace(/r/, f)]: the first match is replaced by what [f] makes of
    it, the rest of [s] is kept. *)
Definition replace_first_fn (icase : bool) (r : regex)
           (f : match_result -> jsstring) (s : jsstring) : jsstring :=
  match regex_exec icase r s with
  | Some m => m_before m ++ f m ++ m_after m
  | None => s
  end.

(** [s.replace(/r/g, t)] for a replacement text [t] without [$]: every
    match, left to right, each search starting where the last match
    ended.  After an empty match the next character is copied. *)
Fixpoint replace_all_fuel (fuel : nat) (icase : bool) (r : regex)
         (t : jsstring) (s : jsstring) : jsstring :=
  match fuel with
  | O => s
  | S fuel' =>
      match regex_exec icase r s with
      | None => s
      | Some m =>
          m_before m ++ t ++
          match m_text m, m_after m with
          | [], c :: rest => c :: replace_all_fuel fuel' icase r t rest
          | [], [] => []
          | _ :: _, rest => replace_all_fuel fuel' icase r t rest
          end
      end
  end.

Definition replace_all (icase : bool) (r : regex) (t s : jsstring) : jsstring :=
  replace_all_fuel (S (length s)) icase r t s.

(** [s.replace(p, t)] for a string pattern [p]: the first occurrence of
    [p], with the [$] forms of the replacement text expanded ([$$], [$&],
    [$`], [$']; there are no groups, so [$1] and the like stay as they
    are). *)
Fixpoint get_substitution (matched before after t : jsstring) : jsstring :=
  match t with
  | 36 :: 36 :: t' => 36 :: get_substitution matched before after t'
  | 36 :: 38 :: t' => matched ++ get_substitution matched before after t'
  | 36 :: 96 :: t' => before ++ get_substitution matched before after t'
  | 36 :: 39 :: t' => after ++ get_substitution matched before after t'
  | c :: t' => c :: get_substitution matched before after t'
  | [] => []
  end.

Fixpoint split_at_first (p before_rev s : jsstring)
  : option (jsstring * jsstring) :=
  if startsWith s p then Some (rev before_rev, skipn (length p) s)
  else match s with
       | [] => None
       | c :: s' => split_at_first p (c :: before_rev) s'
       end.

Definition replace_string (p t s : jsstring) : jsstring :=
  match split_at_first p [] s with
  | Some (before, after) => before ++ get_substitution p before after t ++ after
  | None => s
  end.

(** ** Numbers

    A Number is a binary64 value.  A finite one is kept as the rational
    it denotes; every arithmetic result is rounded to the nearest
    representable value, ties to even.  The sign of zero is not kept:
    [parseFloat], [*], [>], [isNaN] and [toFixed] give the same answers
    for both zeros. *)

Inductive number : Type :=
| NaN
| Inf (negative : bool)
| Fin (q : Q).

Local Open Scope Z_scope.

(** [n / d] for [0 <= n] and [0 < d], rounded to the nearest integer,
    ties to even. *)
Definition div_half_even (n d : Z) : Z :=
  let q := n / d in
  let r := n mod d in
  if 2 * r <? d then q
  else if d <? 2 * r then q + 1
  else if Z.even q then q else q + 1.

(** [m * 2^e] as a rational. *)
Definition scale2 (m e : Z) : Q :=
  if 0 <=? e then Qmake (m * 2 ^ e) 1
  else Qred (Qmake m (Z.to_pos (2 ^ (- e)))).

(** [n / d * 2^(-e)] as a fraction. *)
Definition shifted (n d e : Z) : Z * Z :=
  if 0 <=? e then (n, d * 2 ^ e) else (n * 2 ^ (- e), d).

(** The binary64 value nearest to [n / d], for [0 < n] and [0 < d]:
    53 bits of precision, exponents from -1074, overflow to infinity. *)
Definition round64_pos (n d : Z) : option Q :=
  let l0 := Z.log2 n - Z.log2 d in
  let (n0, d0) := shifted n d l0 in
  let l := if d0 <=? n0 then l0 else l0 - 1 in   (* 2^l <= n/d < 2^(l+1) *)
  let e := Z.max (l - 52) (-1074) in
  let (n1, d1) := shifted n d e in
  let m := div_half_even n1 d1 in
  if 2 ^ 1024 <=? (if 0 <=? e then m * 2 ^ e else 0) then None
  else Some (scale2 m e).

Definition round64 (q : Q) : number :=
  match Qnum q with
  | Z0 => Fin 0
  | Zpos n =>
      match round64_pos (Zpos n) (Zpos (Qden q)) with
      | Some r => Fin r
      | None => Inf false
      end
  | Zneg n =>
      match round64_pos (Zpos n) (Zpos (Qden q)) with
      | Some r => Fin (Qopp r)
      | None => Inf true
      end
  end.

Definition Qneg (q : Q) : bool := Qnum q <? 0.
Definition Qzero (q : Q) : bool := Qnum q =? 0.

(** [x * y] *)
Definition num_mul (x y : number) : number :=
  match x, y with
  | NaN, _ | _, NaN => NaN
  | Fin a, Fin b => round64 (Qmult a b)
  | Inf s, Inf t => Inf (xorb s t)
  | Inf s, Fin a | Fin a, Inf s =>
      if Qzero a then NaN else Inf (xorb s (Qneg a))
  end.

(** [x > y] *)
Definition num_gt (x y : number) : bool :=
  match x, y with
  | NaN, _ | _, NaN => false
  | Fin a, Fin b => negb (Qle_bool a b)
  | Inf s, Inf t => negb s && t
  | Inf s, Fin _ => negb s
  | Fin _, Inf t => t
  end.

Definition isNaN (x : number) : bool :=
  match x with NaN => true | _ => false end.

(** The literal [1.0] *)
Definition num_one : number := Fin 1.

(** *** parseFloat

    Leading white space is skipped; the longest prefix that is a decimal
    literal (sign, [Infinity] or digits with an optional fraction and
    exponent) is converted; without such a prefix the result is NaN. *)

Definition is_digit (c : N) : bool := (48 <=? c)%N && (c <=? 57)%N.

Fixpoint span_digits (s : jsstring) : jsstring * jsstring :=
  match s with
  | c :: s' =>
      if is_digit c then let (d, r) := span_digits s' in (c :: d, r)
      else ([], s)
  | [] => ([], [])
  end.

Definition digits_value (d : jsstring) : Z :=
  fold_left (fun acc c => 10 * acc + (Z.of_N c - 48)) d 0.

(** The exponent part at the head of [s], when there is one. *)
Definition parse_exponent (s : jsstring) : Z :=
  match s with
  | c :: s' =>
      if (c =? 101)%N || (c =? 69)%N then       (* e E *)
        match s' with
        | 43%N :: s'' =>                        (* + *)
            match fst (span_digits s'') with
            | [] => 0
            | d => digits_value d
            end
        | 45%N :: s'' =>                        (* - *)
            match fst (span_digits s'') with
            | [] => 0
            | d => - digits_value d
            end
        | _ =>
            match fst (span_digits s') with
            | [] => 0
            | d => digits_value d
            end
        end
      else 0
  | [] => 0
  end.

Definition parse_unsigned (s : jsstring) : option (option Q) :=
  (* None: no literal; Some None: Infinity; Some (Some q): a decimal *)
  if startsWith s (js "Infinity") then Some None
  else
    let (ip, s1) := span_digits s in
    let (fp, s2) :=
      match s1 with
      | 46%N :: t => span_digits t               (* . *)
      | _ => ([], s1)
      end in
    match ip, fp with
    | [], [] => None
    | _, _ =>
        let mant := digits_value (ip ++ fp) in
        let ex := parse_exponent s2 - Z.of_nat (List.length fp) in
        Some (Some (if 0 <=? ex then Qmake (mant * 10 ^ ex) 1
                    else Qmake mant (Z.to_pos (10 ^ (- ex)))))
    end.

Definition parseFloat (s : jsstring) : number :=
  let t := trimStart s in
  let (neg, u) :=
    match t with
    | 45%N :: u => (true, u)
    | 43%N :: u => (false, u)
    | _ => (false, t)
    end in
  match parse_unsigned u with
  | None => NaN
  | Some None => Inf neg
  | Some (Some q) => round64 (if neg then Qopp q else q)
  end.

(** *** Number.prototype.toFixed(2) and Number::toString *)

Definition Zdecimal (z : Z) : jsstring := decimal (Z.to_N z).

Fixpoint strip_trailing_zeros_rev (r : jsstring) : jsstring :=
  match r with
  | 48%N :: r' => strip_trailing_zeros_rev r'
  | _ => r
  end.

(** The digits [d1 d2 ... dk] and the exponent [n] as
    [d1.d2...dk e+(n-1)]. *)
Definition exponential (ds : jsstring) (n : Z) : jsstring :=
  match ds with
  | [] => []
  | [d] => d :: js "e+" ++ Zdecimal (n - 1)
  | d :: rest => d :: 46%N :: rest ++ js "e+" ++ Zdecimal (n - 1)
  end.

(** The shortest decimal that reads back as the integer [v >= 10^21]:
    [k] digits are tried for k = 1, 2, ...; of the two [k]-digit
    neighbours of [v] the nearer one that rounds to [v] is taken. *)
Fixpoint shortest_fuel (fuel : nat) (v n0 k : Z) : jsstring :=
  let p := 10 ^ (n0 - k) in
  let lo := v / p in
  let hi := lo + 1 in
  let back s := match round64 (Qmake (s * p) 1) with
                | Fin r => Qeq_bool r (Qmake v 1)
                | _ => false
                end in
  let dlo := v - lo * p in
  let dhi := hi * p - v in
  let pick s :=
    exponential (rev (strip_trailing_zeros_rev (rev (Zdecimal s))))
      (Z.of_nat (List.length (Zdecimal s)) + (n0 - k)) in
  let best := if dlo <? dhi then lo
              else if dhi <? dlo then hi
              else if Z.even lo then lo else hi in
  match fuel with
  | O => pick best
  | S fuel' =>
      if back lo && back hi then pick best
      else if back lo then pick lo
      else if back hi then pick hi
      else shortest_fuel fuel' v n0 (k + 1)
  end.

Definition toString_large (v : Z) : jsstring :=
  shortest_fuel 16 v (Z.of_nat (List.length (Zdecimal v))) 1.

(** [x.toFixed(2)] *)
Definition toFixed2 (x : number) : jsstring :=
  match x with
  | NaN => js "NaN"
  | Inf false => js "Infinity"
  | Inf true => js "-Infinity"
  | Fin q =>
      let neg := Qneg q in
      let a := Qabs q in
      let sign := if neg then [45%N] else [] in
      if Qle_bool (Qmake (10 ^ 21) 1) a then
        sign ++ toString_large (Qnum a / Zpos (Qden a))
      else
        (* the integer n with n / 100 nearest to a, the larger of two *)
        let n := (2 * 100 * Qnum a + Zpos (Qden a)) / (2 * Zpos (Qden a)) in
        let ip := Zdecimal (n / 100) in
        let fp := Zdecimal (n mod 100) in
        sign ++ ip ++ 46%N :: (if n mod 100 <? 10 then 48%N :: fp else fp)
  end.

Local Close Scope Z_scope.

(** ** Errors, effects and the outside world *)

(** [ErrorCode] of the MCP SDK, as far as the server uses it. *)
Inductive ErrorCode : Type :=
| InvalidParams     (* -32602 *)
| InternalError     (* -32603 *)
| MethodNotFound.   (* -32601 *)

(** [new McpError(code, message)]; [message] is the text handed to the
    constructor (what the SDK itself puts in front of it in
    [error.message] is left out).  For the one error whose [message]
    property the server assigns afterwards (line 359), [message] is the
    text assigned. *)
Record McpError := mkMcpError {
  code : ErrorCode;
  message : jsstring
}.

(** [${code}]: the number of an error code in decimal. *)
Definition codeNumber (c : ErrorCode) : jsstring :=
  match c with
  | InvalidParams => js "-32602"
  | InternalError => js "-32603"
  | MethodNotFound => js "-32601"
  end.

(** The [message] property of a [new McpError(code, text)]: the
    constructor of the SDK calls [super] with
    [`MCP error ${code}: ${message}`]. *)
Definition sdkMessage (c : ErrorCode) (text : jsstring) : jsstring :=
  js "MCP error " ++ codeNumber c ++ js ": " ++ text.

(** What a [catch] clause can receive. *)
Inductive exn : Type :=
| ExMcp (e : McpError)                    (* error instanceof McpError *)
| ExAxios (status : N) (data : buffer) (msg : jsstring)
                                          (* an AxiosError with a response *)
| ExOther (msg : jsstring).               (* any other error, by its message *)

(** [error.message] of an error as it was thrown *)
Definition error_message (error : exn) : jsstring :=
  match error with
  | ExMcp e => sdkMessage (code e) (message e)
  | ExAxios _ _ msg => msg
  | ExOther msg => msg
  end.

(** The answer of the remote service to one GET. *)
Inductive http_result : Type :=
| HttpResponse (status : N) (content_type : option jsstring) (body : buffer)
| HttpFailure (msg : jsstring).           (* no response at all *)

(** The collaborators of the server: pako's compressor (on bytes), the
    remote service, the file system and Node's [path].  A call of the
    file system either succeeds ([None]) or rejects with a message
    ([Some msg]) and then leaves the file system as it was. *)
Record environment := mkEnvironment {
  zlib_deflate : buffer -> buffer;
  http_get : jsstring -> http_result;
  fs_mkdir : jsstring -> option jsstring;
  fs_writeFile : jsstring -> buffer -> option jsstring;
  path_extname : jsstring -> jsstring;
  path_dirname : jsstring -> jsstring
}.

(** What the server did to the outside world, oldest first. *)
Inductive event : Type :=
| EvFetch (url : jsstring)                    (* a GET was sent *)
| EvMkdir (dir : jsstring)                    (* a directory was made *)
| EvWriteFile (path : jsstring) (data : buffer).  (* a file was written *)

Definition trace := list event.

(** Computations that may throw and that extend the trace. *)
Definition M (A : Type) : Type := trace -> (exn + A) * trace.

Definition ret {A} (a : A) : M A := fun t => (inr a, t).

Definition throw {A} (e : exn) : M A := fun t => (inl e, t).

Definition bind {A B} (m : M A) (f : A -> M B) : M B :=
  fun t =>
    match m t with
    | (inr a, t') => f a t'
    | (inl e, t') => (inl e, t')
    end.

(** [try { m } catch (error) { h error }] *)
Definition try_catch {A} (m : M A) (h : exn -> M A) : M A :=
  fun t =>
    match m t with
    | (inr a, t') => (inr a, t')
    | (inl e, t') => h e t'
    end.

Definition emit (ev : event) : M unit := fun t => (inr tt, t ++ [ev]).

Declare Scope kroki_scope.
Delimit Scope kroki_scope with kroki.
Notation "x <- m ;; k" := (bind m (fun x => k))
  (at level 61, m at next level, right associativity) : kroki_scope.
Notation "m ;;; k" := (bind m (fun _ => k))
  (at level 61, right associativity) : kroki_scope.
Local Open Scope kroki_scope.

(** [a || b] on strings: the empty string and [undefined] are falsy. *)
Definition or_else (a : option jsstring) (b : jsstring) : jsstring :=
  match a with
  | Some (c :: s) => c :: s
  | _ => b
  end.

Definition dq : jsstring := [34].   (* the double quote *)
Definition nl : jsstring := [10].   (* \n *)

Fixpoint join (sep : jsstring) (l : list jsstring) : jsstring :=
  match l with
  | [] => []
  | [s] => s
  | s :: l' => s ++ sep ++ join sep l'
  end.

Fixpoint seqs (l : list regex) : regex :=
  match l with
  | [] => Eps
  | [r] => r
  | r :: l' => Seq r (seqs l')
  end.

(** ** The server *)

Definition KROKI_BASE_URL : jsstring := js "https://kroki.io".

Record DiagramOptions := mkOptions {
  type : jsstring;
  content : jsstring;
  outputFormat : option jsstring
}.

Definition validTypes : list jsstring :=
  map js
    ["mermaid"; "plantuml"; "graphviz"; "c4plantuml";
     "excalidraw"; "erd"; "svgbob"; "nomnoml"; "wavedrom";
     "blockdiag"; "seqdiag"; "actdiag"; "nwdiag"; "packetdiag";
     "rackdiag"; "umlet"; "ditaa"; "vega"; "vegalite"]%string.

Definition validFormats : list jsstring :=
  map js ["svg"; "png"; "pdf"; "jpeg"; "base64"]%string.

(** [list.includes(s)] *)
Definition list_includes (l : list jsstring) (s : jsstring) : bool :=
  existsb (jsstring_eqb s) l.

Definition validateDiagramType (ty : jsstring) : M unit :=
  if negb (list_includes validTypes ty) then
    throw (ExMcp (mkMcpError InvalidParams
      (js "Invalid diagram type. Must be one of: " ++ join (js ", ") validTypes)))
  else ret tt.

Definition validateOutputFormat (format : jsstring) : M unit :=
  if negb (list_includes validFormats format) then
    throw (ExMcp (mkMcpError InvalidParams
      (js "Invalid output format. Must be one of: " ++ join (js ", ") validFormats)))
  else ret tt.

(** *** The HTML error page (getDiagramData, lines 103-127) *)

(** The test that opens the block. *)
Definition isHtmlResponse (contentType : jsstring) (data : buffer) : bool :=
  includes contentType (js "text/html")
  || startsWith (trim (toString_utf8_slice 100 data)) (js "<html")
  || startsWith (trim (toString_utf8_slice 100 data)) (js "<!DOCTYPE html").

(** [/<title>(.*?)<\/title>/i] *)
Definition titleRegex : regex :=
  seqs [rlit (js "<title>"); Group 1 (StarLazy CDot); rlit (js "</title>")].

(** [/<body>([\s\S]*?)<\/body>/i] *)
Definition bodyRegex : regex :=
  seqs [rlit (js "<body>"); Group 1 (StarLazy CAny); rlit (js "</body>")].

(** [/unable to decode/i] *)
Definition unableRegex : regex := rlit (js "unable to decode").

(** [/<pre>([\s\S]*?)<\/pre>/i] *)
Definition preRegex : regex :=
  seqs [rlit (js "<pre>"); Group 1 (StarLazy CAny); rlit (js "</pre>")].

(** [/<[^>]+>/g] *)
Definition tagRegex : regex :=
  seqs [Chr (CLit 60); Plus (CNot 62); Chr (CLit 62)].

(** [/\s+/g] *)
Definition spacesRegex : regex := Plus CSpace.

(** [m[1]] of a match whose first group always takes part. *)
Definition group1 (m : match_result) : jsstring :=
  match group 1 m with Some g => g | None => [] end.

Definition htmlErrorMessage (data : buffer) : jsstring :=
  let htmlContent := toString_utf8 data in
  let titleMatch := regex_exec true titleRegex htmlContent in
  let bodyMatch := regex_exec true bodyRegex htmlContent in
  let extractedMessage :=
    match titleMatch with
    | Some m => trim (group1 m)
    | None => js "Unknown error (HTML response)"
    end in
  match bodyMatch with
  | Some b =>
      if regex_test true unableRegex (group1 b) then
        let extractedMessage :=
          js "デコードエラー: Krokiがソースをデコードできませんでした。記述形式や内容を確認してください。" in
        match regex_exec true preRegex (group1 b) with
        | Some pre =>
            match trim (group1 pre) with
            | [] => extractedMessage
            | _ :: _ =>
                extractedMessage ++ nl ++ js "詳細:" ++ nl ++ js "---" ++ nl
                  ++ trim (group1 pre) ++ nl ++ js "---"
            end
        | None => extractedMessage
        end
      else
        let plainBody :=
          trim (replace_all false spacesRegex (js " ")
                  (replace_all false tagRegex (js " ") (group1 b))) in
        if (0 <? List.length plainBody)%nat && (List.length plainBody <? 300)%nat
        then extractedMessage ++ js " (内容: " ++ plainBody ++ js "...)"
        else extractedMessage
  | None => extractedMessage
  end.

Definition htmlError (data : buffer) : McpError :=
  mkMcpError InvalidParams (js "Krokiエラー: " ++ htmlErrorMessage data).

(** *** The error text inside an SVG (lines 130-140) *)

(** One branch of the pattern: [<text[^>]*ATTR[^>]*>([\s\S]*?)<\/text>] *)
Definition textElementRegex (attr : jsstring) (i : nat) : regex :=
  seqs [rlit (js "<text"); Star (CNot 62); rlit attr; Star (CNot 62);
        Chr (CLit 62); Group i (StarLazy CAny); rlit (js "</text>")].

Definition classErrorAttr : jsstring := js "class=" ++ dq ++ js "error" ++ dq.
Definition fillRedAttr : jsstring := js "fill=" ++ dq ++ js "red" ++ dq.

(** [/<text[^>]*class="error"[^>]*>([\s\S]*?)<\/text>|<text[^>]*fill="red"[^>]*>([\s\S]*?)<\/text>/i] *)
Definition errorTextRegex : regex :=
  Alt (textElementRegex classErrorAttr 1) (textElementRegex fillRedAttr 2).

(** [.replace(/&lt;/g, '<').replace(/&gt;/g, '>').replace(/&amp;/g, '&').replace(/<br\/>/g, '\n')] *)
Definition decodeErrorMessage (raw : jsstring) : jsstring :=
  replace_all false (rlit (js "<br/>")) nl
    (replace_all false (rlit (js "&amp;")) (js "&")
       (replace_all false (rlit (js "&gt;")) (js ">")
          (replace_all false (rlit (js "&lt;")) (js "<") raw))).

Definition rawErrorMessage (m : match_result) : jsstring :=
  trim (or_else (group 1 m) (or_else (group 2 m) (js "Unknown diagram error"))).

Definition svgError (m : match_result) : McpError :=
  mkMcpError InvalidParams
    (js "ダイアグラム生成エラー (SVG内):" ++ nl
       ++ decodeErrorMessage (rawErrorMessage m)
       ++ nl ++ nl ++ js "記述内容を確認してください。").

(** *** Scaling (lines 142-173) *)

(** [/<svg(A)>/] where the group [A] is [[^>]*] *)
Definition svgTagRegex : regex :=
  seqs [rlit (js "<svg"); Group 1 (Star (CNot 62)); Chr (CLit 62)].

(** [/NAME=Q([^Q]+)Q/] where [Q] stands for the double quote *)
Definition attrRegex (name : jsstring) : regex :=
  seqs [rlit (name ++ js "=" ++ dq); Group 1 (Plus (CNot 34)); Chr (CLit 34)].

(** [/[0-9.]/g] *)
Definition digitDotRegex : regex := Chr (CRanges [(48, 57); (46, 46)]).

(** The treatment of one attribute, [width] or [height]: [m] is its match
    in the attributes of the tag, [newAttrs] the text rewritten so far. *)
Definition scaleAttribute (name : jsstring) (scale : number)
           (m : option match_result) (newAttrs : jsstring) : jsstring :=
  match m with
  | Some w =>
      match group1 w with
      | [] => newAttrs
      | _ :: _ =>
          let val := parseFloat (group1 w) in
          let unit := or_else (Some (replace_all false digitDotRegex [] (group1 w)))
                              (js "px") in
          if negb (isNaN val) then
            replace_string (m_text w)
              (name ++ js "=" ++ dq ++ toFixed2 (num_mul val scale) ++ unit ++ dq)
              newAttrs
          else newAttrs
      end
  | None => newAttrs
  end.

(** The callback of [svgContent.replace(/<svg(A)>/, ...)] *)
Definition scaleSvgTag (scale : number) (m : match_result) : jsstring :=
  let attributes := group1 m in
  let width := regex_exec false (attrRegex (js "width")) attributes in
  let height := regex_exec false (attrRegex (js "height")) attributes in
  let newAttrs := attributes in
  let newAttrs := scaleAttribute (js "width") scale width newAttrs in
  let newAttrs := scaleAttribute (js "height") scale height newAttrs in
  js "<svg" ++ newAttrs ++ js ">".

Definition scaleSvg (scale : number) (svgContent : jsstring) : jsstring :=
  replace_first_fn false svgTagRegex (scaleSvgTag scale) svgContent.

(** [(outputFormat === 'svg' || outputFormat === 'base64') && data.length > 0] *)
Definition svgChecked (outputFormat : jsstring) (data : buffer) : bool :=
  (jsstring_eqb outputFormat (js "svg") || jsstring_eqb outputFormat (js "base64"))
  && (0 <? List.length data)%nat.

(** [scale > 1.0 && outputFormat === 'svg'] *)
Definition scalingApplies (scale : number) (outputFormat : jsstring) : bool :=
  num_gt scale num_one && jsstring_eqb outputFormat (js "svg").

(** [options.scale ?? 1.0] *)
Definition scaleOrDefault (scaleOpt : option number) : number :=
  match scaleOpt with Some x => x | None => num_one end.

(** [response.headers['content-type']?.toLowerCase() || ''] *)
Definition lowerContentType (content_type : option jsstring) : jsstring :=
  or_else (option_map toLowerCase content_type) [].

(** *** What getDiagramData does with a 2xx response (lines 99-177)

    [console.error] only writes to the log and is left out. *)
Definition processResponse (outputFormat : jsstring) (scaleOpt : option number)
           (content_type : option jsstring) (data : buffer)
  : exn + (buffer * jsstring) :=
  let scale := scaleOrDefault scaleOpt in
  let contentType := lowerContentType content_type in
  if isHtmlResponse contentType data then inl (ExMcp (htmlError data))
  else if svgChecked outputFormat data then
    let svgContent := toString_utf8 data in
    match regex_exec true errorTextRegex svgContent with
    | Some errorTextMatch => inl (ExMcp (svgError errorTextMatch))
    | None =>
        if scalingApplies scale outputFormat then
          inr (utf8_encode (scaleSvg scale svgContent), outputFormat)
        else inr (data, outputFormat)
    end
  else inr (data, outputFormat).

(** *** The catch clause of getDiagramData (lines 178-204) *)

Definition krokiMessageOf (data : buffer) : jsstring :=
  let responseText := toString_utf8 data in
  if (0 <? List.length responseText)%nat && (List.length responseText <? 500)%nat
  then trim responseText else [].

Definition badRequestMessage (krokiMessage : jsstring) : jsstring :=
  js "ダイアグラムの記述にエラーがあるようです (Kroki HTTP 400)。" ++ nl
    ++ match krokiMessage with
       | _ :: _ =>
           js "Krokiからの詳細情報:" ++ nl ++ js "---" ++ nl ++ krokiMessage
             ++ nl ++ js "---" ++ nl
       | [] => js "Krokiから詳細なエラー箇所情報は提供されませんでした。" ++ nl
       end
    ++ js "記述内容を確認してください。".

Definition requestFailedMessage (status : N) (krokiMessage : jsstring) : jsstring :=
  let detail := js "Kroki APIリクエスト失敗 (ステータス: " ++ decimal status ++ js ")" in
  detail ++ match krokiMessage with
            | _ :: _ => nl ++ js "Krokiからのメッセージ: " ++ krokiMessage
            | [] => []
            end.

Definition fetchErrorHandler (error : exn) : McpError :=
  match error with
  | ExAxios status data _ =>
      let krokiMessage := krokiMessageOf data in
      let errorCode := if status =? 400 then InvalidParams else InternalError in
      let userMessage :=
        if status =? 400 then badRequestMessage krokiMessage
        else requestFailedMessage status krokiMessage in
      mkMcpError errorCode userMessage
  | ExMcp e => e
  | ExOther msg =>
      mkMcpError InternalError
        (js "Failed to fetch diagram from Kroki: "
           ++ or_else (Some msg) (js "Unknown network error"))
  end.

Section Server.
Variable env : environment.

(** [pako.deflate(s)] for a string [s]: pako turns a string into its
    UTF-8 bytes and compresses those. *)
Definition pako_deflate (s : jsstring) : buffer :=
  zlib_deflate env (utf8_encode s).

(** The token of a diagram source, as both [getDiagramData] and
    [generateDiagramUrl] compute it:
    [Buffer.from(pako.deflate(content)).toString('base64')
       .replace(/\+/g, '-').replace(/\//g, '_')] *)
Definition encodeContent (src : jsstring) : jsstring :=
  replace_all false (Chr (CLit char_slash)) [char_under]
    (replace_all false (Chr (CLit char_plus)) [char_minus]
       (toString_base64 (pako_deflate src))).

Definition diagramUrl (ty format token : jsstring) : jsstring :=
  KROKI_BASE_URL ++ js "/" ++ ty ++ js "/" ++ format ++ js "/" ++ token.

Definition validateStatus (status : N) : bool :=
  (200 <=? status) && (status <? 300).

(** [axios.get(url, { responseType: 'arraybuffer', validateStatus })] *)
Definition axios_get (url : jsstring) : M (option jsstring * buffer) :=
  emit (EvFetch url) ;;;
  match http_get env url with
  | HttpResponse status ct body =>
      if validateStatus status then ret (ct, body)
      else throw (ExAxios status body
                    (js "Request failed with status code " ++ decimal status))
  | HttpFailure msg => throw (ExOther msg)
  end.

Definition getDiagramData (options : DiagramOptions) (scale : option number)
  : M (buffer * jsstring) :=
  validateDiagramType (type options) ;;;
  let outputFormat := or_else (outputFormat options) (js "svg") in
  validateOutputFormat outputFormat ;;;
  let encodedContent := encodeContent (content options) in
  let url := diagramUrl (type options) outputFormat encodedContent in
  try_catch
    (response <- axios_get url ;;
     match processResponse outputFormat scale (fst response) (snd response) with
     | inl e => throw e
     | inr r => ret r
     end)
    (fun error => throw (ExMcp (fetchErrorHandler error))).

Definition generateDiagramUrl (options : DiagramOptions) : M jsstring :=
  validateDiagramType (type options) ;;;
  let outputFormat := or_else (outputFormat options) (js "svg") in
  validateOutputFormat outputFormat ;;;
  let checkFormat :=
    if jsstring_eqb outputFormat (js "base64") then js "svg" else outputFormat in
  getDiagramData
    (mkOptions (type options) (content options) (Some checkFormat)) None ;;;
  let encodedContent := encodeContent (content options) in
  ret (diagramUrl (type options) outputFormat encodedContent).

(** The arguments of a tool call, typed as the handlers cast them. *)
Record ToolArguments := mkArguments {
  a_type : jsstring;
  a_content : jsstring;
  a_outputPath : jsstring;
  a_outputFormat : option jsstring;
  a_scale : option number
}.

(** [case 'generate_diagram_url']; the result is the text of the reply. *)
Definition generate_diagram_url (args : ToolArguments) : M jsstring :=
  try_catch
    (url <- generateDiagramUrl
              (mkOptions (a_type args) (a_content args) (a_outputFormat args)) ;;
     ret (js "ダイアグラムURLを生成し、内容を確認しました。エラーは見つかりませんでした。"
            ++ nl ++ js "URL: " ++ url))
    (fun error =>
       match error with
       | ExMcp e => throw (ExMcp e)
       | _ =>
           throw (ExMcp (mkMcpError InternalError
             (js "Failed to generate diagram URL: "
                ++ or_else (Some (error_message error)) (js "Unknown error"))))
       end).

Definition fs_call (r : option jsstring) (ev : event) : M unit :=
  match r with
  | None => emit ev
  | Some msg => throw (ExOther msg)
  end.

(** [case 'download_diagram'] *)
Definition download_diagram (args : ToolArguments) : M jsstring :=
  let targetPath := a_outputPath args in
  try_catch
    (let outputPath := a_outputPath args in
     let determinedFormat :=
       or_else (a_outputFormat args)
         (or_else (Some (skipn 1 (path_extname env outputPath))) (js "svg")) in
     r <- getDiagramData
            (mkOptions (a_type args) (a_content args) (Some determinedFormat))
            (Some (scaleOrDefault (a_scale args))) ;;
     let data := fst r in
     let directory := path_dirname env outputPath in
     fs_call (fs_mkdir env directory) (EvMkdir directory) ;;;
     fs_call (fs_writeFile env outputPath data) (EvWriteFile outputPath data) ;;;
     ret (js "Diagram saved to " ++ outputPath))
    (fun error =>
       match error with
       | ExMcp e =>
           (* error.message = `... ${targetPath}: ${error.message}`; throw error *)
           throw (ExMcp (mkMcpError (code e)
             (js "Failed to download diagram to " ++ targetPath ++ js ": "
                ++ error_message error)))
       | _ =>
           throw (ExMcp (mkMcpError InternalError
             (js "Failed to download diagram to " ++ targetPath ++ js ": "
                ++ or_else (Some (error_message error)) (js "Unknown error"))))
       end).

(** The CallTool request handler. *)
Definition callTool (name : jsstring) (args : ToolArguments) : M jsstring :=
  if jsstring_eqb name (js "generate_diagram_url") then generate_diagram_url args
  else if jsstring_eqb name (js "download_diagram") then download_diagram args
  else throw (ExMcp (mkMcpError MethodNotFound (js "Unknown tool: " ++ name))).
End Server.

(** ** What a match is

    The strings a regular expression matches, with the captures a match
    leaves behind; the order in which the matcher tries them plays no
    part here. *)

Inductive Matches (icase : bool)
  : regex -> jsstring -> captures -> captures -> Prop :=
| M_Eps : forall cs, Matches icase Eps [] cs cs
| M_Chr : forall cl c cs,
    cmatch icase cl c = true -> Matches icase (Chr cl) [c] cs cs
| M_Star : forall cl s cs,
    forallb (cmatch icase cl) s = true -> Matches icase (Star cl) s cs cs
| M_StarLazy : forall cl s cs,
    forallb (cmatch icase cl) s = true -> Matches icase (StarLazy cl) s cs cs
| M_Seq : forall r1 r2 s1 s2 cs0 cs1 cs2,
    Matches icase r1 s1 cs0 cs1 -> Matches icase r2 s2 cs1 cs2 ->
    Matches icase (Seq r1 r2) (s1 ++ s2) cs0 cs2
| M_AltL : forall r1 r2 s cs0 cs1,
    Matches icase r1 s cs0 cs1 -> Matches icase (Alt r1 r2) s cs0 cs1
| M_AltR : forall r1 r2 s cs0 cs1,
    Matches icase r2 s cs0 cs1 -> Matches icase (Alt r1 r2) s cs0 cs1
| M_Group : forall i r s cs0 cs1,
    Matches icase r s cs0 cs1 ->
    Matches icase (Group i r) s cs0 ((i, s) :: cs1).

(** Two texts that differ at most in the case of ASCII letters. *)
Definition same_ignoring_case (a b : jsstring) : Prop :=
  map (canonicalize true) a = map (canonicalize true) b.

(** [tag ++ inner ++ close] is a text element that carries the attribute
    text [attr]: an opening tag [<text ... attr ... >] without another
    [>] inside, then the content, then [</text>]; letters in either
    case. *)
Definition text_element (attr tag inner close : jsstring) : Prop :=
  exists name a x b,
    tag = name ++ a ++ x ++ b ++ [62] /\
    same_ignoring_case name (js "<text") /\
    same_ignoring_case x attr /\
    forallb (cmatch true (CNot 62)) a = true /\
    forallb (cmatch true (CNot 62)) b = true /\
    same_ignoring_case close (js "</text>").

(** The text [s] holds a text element with the attribute text [attr]. *)
Definition has_text_element (attr s : jsstring) : Prop :=
  exists before tag inner close after,
    s = before ++ tag ++ inner ++ close ++ after /\
    text_element attr tag inner close.

(** The inline error markers: a text element of class "error" or one
    filled in red. *)
Definition has_error_marker (s : jsstring) : Prop :=
  has_text_element classErrorAttr s \/ has_text_element fillRedAttr s.

(** The character substitution of the token: [+] to [-], [/] to [_]. *)
Definition url_safe (c : N) : N :=
  if c =? char_plus then char_minus
  else if c =? char_slash then char_under
  else c.

(** The files a trace wrote. *)
Fixpoint writes (t : trace) : list (jsstring * buffer) :=
  match t with
  | [] => []
  | EvWriteFile p d :: t' => (p, d) :: writes t'
  | _ :: t' => writes t'
  end.

(** The requests a trace sent. *)
Fixpoint fetches (t : trace) : list jsstring :=
  match t with
  | [] => []
  | EvFetch u :: t' => u :: fetches t'
  | _ :: t' => fetches t'
  end.

(** The output format [getDiagramData] and [generateDiagramUrl] work
    with: [options.outputFormat || 'svg']. *)
Definition formatOf (o : DiagramOptions) : jsstring :=
  or_else (outputFormat o) (js "svg").

(** Both validators accept the options. *)
Definition valid_options (o : DiagramOptions) : bool :=
  list_includes validTypes (type o) && list_includes validFormats (formatOf o).

(** The address [getDiagramData] fetches for [o]. *)
Definition requestUrl (env : environment) (o : DiagramOptions) : jsstring :=
  diagramUrl (type o) (formatOf o) (encodeContent env (content o)).

(** The options the download handler hands to [getDiagramData]. *)
Definition downloadOptions (env : environment) (args : ToolArguments)
  : DiagramOptions :=
  mkOptions (a_type args) (a_content args)
    (Some (or_else (a_outputFormat args)
             (or_else (Some (skipn 1 (path_extname env (a_outputPath args))))
                      (js "svg")))).

Definition downloadScale (args : ToolArguments) : option number :=
  Some (scaleOrDefault (a_scale args)).

(** ** Stand-ins for the examples

    A compressor that stores its input, a service that always gives the
    same answer, a file system that never fails, and [path] for plain
    absolute POSIX paths. *)

Fixpoint after_last (sep : N) (s acc : jsstring) : jsstring :=
  match s with
  | [] => acc
  | c :: s' => if c =? sep then after_last sep s' s' else after_last sep s' acc
  end.

Definition stub_basename (p : jsstring) : jsstring := after_last 47 p p.

Definition stub_extname (p : jsstring) : jsstring :=
  let b := stub_basename p in
  match b with
  | [] => []
  | c :: b' => if includes b' [46] then 46 :: after_last 46 b' b' else []
  end.

Definition stub_dirname (p : jsstring) : jsstring :=
  match firstn (List.length p - List.length (stub_basename p) - 1) p with
  | [] => js "/"
  | d => d
  end.

Definition stub_environment (answer : http_result) : environment :=
  mkEnvironment (fun b => b) (fun _ => answer) (fun _ => None) (fun _ _ => None)
    stub_extname stub_dirname.

Definition svg_content_type : option jsstring := Some (js "image/svg+xml").

(** [<HTML><body>x</body></HTML>] *)
Definition upper_case_html : buffer :=
  utf8_encode (js "<HTML><body>x</body></HTML>").

(** [<html><body><text class="error">x</text></body></html>] *)
Definition html_with_error_text : buffer :=
  utf8_encode (js "<html><body><text class=" ++ dq ++ js "error" ++ dq
                 ++ js ">x</text></body></html>").

Definition mermaid_svg : DiagramOptions :=
  mkOptions (js "mermaid") (js "graph TD; A-->B;") (Some (js "svg")).

(** [<svg width="100px" height="50px"><g/></svg>] *)
Definition plain_svg : buffer :=
  utf8_encode (js "<svg width=" ++ dq ++ js "100px" ++ dq ++ js " height=" ++ dq
                 ++ js "50px" ++ dq ++ js "><g/></svg>").

(** The service answers 200 with the given SVG body. *)
Definition svg_service (body : buffer) : environment :=
  stub_environment (HttpResponse 200 svg_content_type body).

(** A request for a link with [outputFormat: ''] *)
Definition empty_format_arguments : ToolArguments :=
  mkArguments (js "mermaid") (js "graph TD; A-->B;") [] (Some []) None.

(** A request for a file with [outputFormat: 'gif'] *)
Definition gif_arguments : ToolArguments :=
  mkArguments (js "mermaid") (js "graph TD; A-->B;") (js "/tmp/out.gif")
    (Some (js "gif")) None.

(** The service answers 500 with the body [internal error]. *)
Definition failing_service : environment :=
  stub_environment (HttpResponse 500 None (utf8_encode (js "internal error"))).

Definition mermaid_base64 : DiagramOptions :=
  mkOptions (js "mermaid") (js "graph TD; A-->B;") (Some (js "base64")).

Definition attr_text (name value : string) : jsstring :=
  js name ++ js "=" ++ dq ++ js value ++ dq.

(** [<svg width="200.00px" height="100.00px"><g/></svg>] *)
Definition doubled_svg : buffer :=
  utf8_encode (js "<svg " ++ attr_text "width" "200.00px" ++ js " "
                 ++ attr_text "height" "100.00px" ++ js "><g/></svg>").

(** [<svg width="50.00px" height="25.00px"><g/></svg>] *)
Definition halved_svg : buffer :=
  utf8_encode (js "<svg " ++ attr_text "width" "50.00px" ++ js " "
                 ++ attr_text "height" "25.00px" ++ js "><g/></svg>").

(** [<svg stroke-width="2" width="100px" height="50px"><g/></svg>] *)
Definition stroke_svg : buffer :=
  utf8_encode (js "<svg " ++ attr_text "stroke-width" "2" ++ js " "
                 ++ attr_text "width" "100px" ++ js " "
                 ++ attr_text "height" "50px" ++ js "><g/></svg>").

(** [<svg stroke-width="4.00px" width="100px" height="100.00px"><g/></svg>] *)
Definition stroke_svg_scaled : buffer :=
  utf8_encode (js "<svg " ++ attr_text "stroke-width" "4.00px" ++ js " "
                 ++ attr_text "width" "100px" ++ js " "
                 ++ attr_text "height" "100.00px" ++ js "><g/></svg>").

(** [<text class="error">bad syntax</text>] *)
Definition bad_syntax_svg : buffer :=
  utf8_encode (js "<text " ++ attr_text "class" "error" ++ js ">bad syntax</text>").

(** [<text class="error"></text>] *)
Definition empty_error_svg : buffer :=
  utf8_encode (js "<text " ++ attr_text "class" "error" ++ js "></text>").

(** [<svg <text width=Q5cla.ss=QerrorQ>oops</text>], [Q] standing for
    the double quote *)
Definition joined_class_svg : buffer :=
  utf8_encode (js "<svg <text width=" ++ dq ++ js "5cla.ss=" ++ dq ++ js "error"
                 ++ dq ++ js ">oops</text>").

(** [<svg <text width=Q10.00class=QerrorQ>oops</text>] *)
Definition joined_class_svg_scaled : buffer :=
  utf8_encode (js "<svg <text width=" ++ dq ++ js "10.00class=" ++ dq
                 ++ js "error" ++ dq ++ js ">oops</text>").

(** A request for a file [/tmp/out.svg] at the given scale. *)
Definition download_arguments (scale : number) : ToolArguments :=
  mkArguments (js "mermaid") (js "graph TD; A-->B;") (js "/tmp/out.svg")
    None (Some scale).

(** The literals [2.0] and [0.5] *)
Definition num_two : number := Fin 2.
Definition num_half : number := Fin (1 # 2).

(** The text [s] opens with a closing tag [</text>], in either case. *)
Definition closes_text (s : jsstring) : Prop :=
  exists c r, s = c ++ r /\ same_ignoring_case c (js "</text>").

(** No closing tag opens inside [inner], which is followed by [rest]:
    [inner] ends where the first closing tag begins. *)
Definition ends_at_first_close (inner rest : jsstring) : Prop :=
  forall p q, inner = p ++ q -> q <> [] -> ~ closes_text (q ++ rest).

(** ** Further notions for the properties of the code *)

(** The options [generateDiagramUrl] hands to [getDiagramData]:
    [{ ...options, outputFormat: checkFormat }]. *)
Definition probeOptions (o : DiagramOptions) : DiagramOptions :=
  mkOptions (type o) (content o)
    (Some (if jsstring_eqb (formatOf o) (js "base64") then js "svg"
           else formatOf o)).

(** The options of a link request. *)
Definition linkOptions (args : ToolArguments) : DiagramOptions :=
  mkOptions (a_type args) (a_content args) (a_outputFormat args).

(** The transport failed on the request of [o]: no response, or a status
    outside [200,300) other than 400. *)
Definition transport_failed (env : environment) (o : DiagramOptions) : Prop :=
  valid_options o = true /\
  match http_get env (requestUrl env o) with
  | HttpFailure _ => True
  | HttpResponse st _ _ => validateStatus st = false /\ st <> 400
  end.

(** The three effects of a download that saves [data], in their order. *)
Definition download_events (env : environment) (args : ToolArguments)
           (data : buffer) : list event :=
  [EvFetch (requestUrl env (downloadOptions env args));
   EvMkdir (path_dirname env (a_outputPath args));
   EvWriteFile (a_outputPath args) data].

(** The format a download asks the service for: the format of the
    request when it is not empty, else the extension of the path when it
    has one, else svg. *)
Definition downloadFormat (env : environment) (args : ToolArguments) : jsstring :=
  match a_outputFormat args with
  | Some (c :: f) => c :: f
  | _ =>
      match path_extname env (a_outputPath args) with
      | _ :: c :: e => c :: e
      | _ => js "svg"
      end
  end.

(** The service cannot be reached. *)
Definition unreachable_service : environment :=
  stub_environment (HttpFailure (js "connect ECONNREFUSED")).

(** The service answers with the given SVG; no directory can be made. *)
Definition read_only_service (body : buffer) : environment :=
  mkEnvironment (fun b => b) (fun _ => HttpResponse 200 svg_content_type body)
    (fun _ => Some (js "EACCES: permission denied")) (fun _ _ => None)
    stub_extname stub_dirname.

(** A request for a png of a mermaid diagram. *)
Definition mermaid_png : DiagramOptions :=
  mkOptions (js "mermaid") (js "graph TD; A-->B;") (Some (js "png")).

(** A request for a file [/tmp/out.png] in the format [svg]. *)
Definition svg_to_png_path_arguments : ToolArguments :=
  mkArguments (js "mermaid") (js "graph TD; A-->B;") (js "/tmp/out.png")
    (Some (js "svg")) None.

(** The characters of the base64 alphabet and the padding. *)
Definition is_base64_char (c : N) : bool :=
  ((65 <=? c) && (c <=? 90)) || ((97 <=? c) && (c <=? 122))
  || ((48 <=? c) && (c <=? 57)) || (c =? char_plus) || (c =? char_slash)
  || (c =? char_eq).

(** The characters a token is made of: letters, digits, [-], [_], [=]. *)
Definition is_token_char (c : N) : bool :=
  ((65 <=? c) && (c <=? 90)) || ((97 <=? c) && (c <=? 122))
  || ((48 <=? c) && (c <=? 57)) || (c =? char_minus) || (c =? char_under)
  || (c =? char_eq).

(** Lower-case letters and digits: what the names of the diagram types
    and of the output formats are made of. *)
Definition is_name_char (c : N) : bool :=
  ((97 <=? c) && (c <=? 122)) || ((48 <=? c) && (c <=? 57)).

(** ** The first revision of the server

    The earlier [index.ts] among the sources: [generateDiagramUrl] builds
    the link and fetches nothing, and the download handler fetches the
    link itself and writes the body of the response.  The validators
    and the token are those of the later revision. *)

Module FirstRevision.
Section Server.
Variable env : environment.

Definition generateDiagramUrl (options : DiagramOptions) : M jsstring :=
  validateDiagramType (type options) ;;;
  let outputFormat := or_else (outputFormat options) (js "svg") in
  validateOutputFormat outputFormat ;;;
  let encodedContent := encodeContent env (content options) in
  ret (diagramUrl (type options) outputFormat encodedContent).

(** [case 'generate_diagram_url']: the text of the reply is the link. *)
Definition generate_diagram_url (args : ToolArguments) : M jsstring :=
  try_catch
    (url <- generateDiagramUrl
              (mkOptions (a_type args) (a_content args) (a_outputFormat args)) ;;
     ret url)
    (fun error =>
       match error with
       | ExMcp e => throw (ExMcp e)
       | _ =>
           throw (ExMcp (mkMcpError InternalError
             (js "Failed to generate diagram URL: "
                ++ or_else (Some (error_message error)) (js "Unknown error"))))
       end).

(** [case 'download_diagram'] *)
Definition download_diagram (args : ToolArguments) : M jsstring :=
  try_catch
    (let outputPath := a_outputPath args in
     let directory := path_dirname env outputPath in
     fs_call (fs_mkdir env directory) (EvMkdir directory) ;;;
     let format :=
       or_else (a_outputFormat args)
         (or_else (Some (skipn 1 (path_extname env outputPath))) (js "svg")) in
     url <- generateDiagramUrl
              (mkOptions (a_type args) (a_content args) (Some format)) ;;
     response <- axios_get env url ;;
     fs_call (fs_writeFile env outputPath (snd response))
       (EvWriteFile outputPath (snd response)) ;;;
     ret (js "Diagram saved to " ++ outputPath))
    (fun error =>
       match error with
       | ExMcp e => throw (ExMcp e)
       | _ =>
           throw (ExMcp (mkMcpError InternalError
             (js "Failed to download diagram: "
                ++ or_else (Some (error_message error)) (js "Unknown error"))))
       end).

Definition callTool (name : jsstring) (args : ToolArguments) : M jsstring :=
  if jsstring_eqb name (js "generate_diagram_url") then generate_diagram_url args
  else if jsstring_eqb name (js "download_diagram") then download_diagram args
  else throw (ExMcp (mkMcpError MethodNotFound (js "Unknown tool: " ++ name))).
End Server.
End FirstRevision.

(** The service answers 200 with an HTML error page. *)
Definition html_error_page : buffer :=
  utf8_encode (js "<html><head><title>Error 400</title></head><body>Unable to decode</body></html>").

Definition html_service : environment :=
  stub_environment (HttpResponse 200 (Some (js "text/html")) html_error_page).

(** The service answers 400. *)
Definition bad_request_service : environment :=
  stub_environment (HttpResponse 400 None (utf8_encode (js "syntax error"))).

(** [<svg viewBox="0 0 10 10"><g/></svg>] *)
Definition viewbox_svg : jsstring :=
  js "<svg " ++ attr_text "viewBox" "0 0 10 10" ++ js "><g/></svg>".

(** The plain text of the body of an HTML page (line 121):
    [bodyMatch[1].replace(/<[^>]+>/g, ' ').replace(/\s+/g, ' ').trim()] *)
Definition plainBodyOf (body : jsstring) : jsstring :=
  trim (replace_all false spacesRegex (js " ")
          (replace_all false tagRegex (js " ") body)).

(** The text holds a tag: [<], one or more characters other than [>],
    and [>]. *)
Definition has_tag (s : jsstring) : Prop :=
  exists pre x post,
    s = pre ++ [60] ++ x ++ [62] ++ post /\ x <> []
    /\ forallb (fun c => negb (c =? 62)) x = true.

(** The white space of the text is made of single blanks: every white
    space character is U+0020 and the character after it is none. *)
Definition single_spaced (s : jsstring) : Prop :=
  forall pre c post,
    s = pre ++ c :: post -> is_js_space c = true ->
    c = 32 /\ match post with
              | d :: _ => is_js_space d = false
              | [] => True
              end.

(** The text does not begin with white space. *)
Definition starts_clean (s : jsstring) : Prop :=
  match s with
  | c :: _ => is_js_space c = false
  | [] => True
  end.

(** Literals stay folded while lists are rearranged. *)
Ltac hide_literals :=
  repeat match goal with
         | |- context [js ?s] => generalize (js s); intro
         end.

(** ** Lemmas on strings *)

Lemma jsstring_eqb_eq (a b : jsstring) : jsstring_eqb a b = true <-> a = b.
Proof.
  unfold jsstring_eqb. destruct (list_eq_dec N.eq_dec a b); split; congruence.
Qed.

Lemma jsstring_eqb_refl (a : jsstring) : jsstring_eqb a a = true.
Proof. apply jsstring_eqb_eq. reflexivity. Qed.

(** ** Lemmas on the matcher *)

Section MatcherFacts.
Variable A : Type.
Variable icase : bool.

Lemma star_greedy_none_here cl s (k : jsstring -> option A) :
  star_greedy icase cl s k = None -> k s = None.
Proof.
  destruct s as [|c s]; simpl; [auto|].
  destruct (cmatch icase cl c); [|auto].
  destruct (star_greedy icase cl s k); [discriminate|auto].
Qed.

Lemma star_greedy_complete cl s1 s2 (k : jsstring -> option A) :
  forallb (cmatch icase cl) s1 = true ->
  star_greedy icase cl (s1 ++ s2) k = None -> k s2 = None.
Proof.
  induction s1 as [|c s1 IH]; simpl; intros Hall Hnone.
  - apply star_greedy_none_here with (cl := cl). exact Hnone.
  - apply andb_true_iff in Hall. destruct Hall as [Hc Hall].
    rewrite Hc in Hnone.
    destruct (star_greedy icase cl (s1 ++ s2) k) eqn:E; [discriminate|].
    apply IH; auto.
Qed.

Lemma star_lazy_complete cl s1 s2 (k : jsstring -> option A) :
  forallb (cmatch icase cl) s1 = true ->
  star_lazy icase cl (s1 ++ s2) k = None -> k s2 = None.
Proof.
  induction s1 as [|c s1 IH]; simpl; intros Hall Hnone.
  - destruct s2 as [|c s2]; simpl in Hnone;
      destruct (k _); [discriminate|reflexivity|discriminate|reflexivity].
  - apply andb_true_iff in Hall. destruct Hall as [Hc Hall].
    destruct (k (c :: s1 ++ s2)); [discriminate|].
    rewrite Hc in Hnone. apply IH; assumption.
Qed.

Lemma star_greedy_sound cl s (k : jsstring -> option A) a :
  star_greedy icase cl s k = Some a ->
  exists s1 s2, s = s1 ++ s2 /\ forallb (cmatch icase cl) s1 = true
                /\ k s2 = Some a.
Proof.
  induction s as [|c s IH]; simpl; intros H.
  - exists [], []. auto.
  - destruct (cmatch icase cl c) eqn:Hc.
    + destruct (star_greedy icase cl s k) eqn:E.
      * inversion H; subst. destruct (IH eq_refl) as (s1 & s2 & -> & Hall & Hk).
        exists (c :: s1), s2. simpl. rewrite Hc, Hall. auto.
      * exists [], (c :: s). auto.
    + exists [], (c :: s). auto.
Qed.

Lemma star_lazy_sound cl s (k : jsstring -> option A) a :
  star_lazy icase cl s k = Some a ->
  exists s1 s2, s = s1 ++ s2 /\ forallb (cmatch icase cl) s1 = true
                /\ k s2 = Some a.
Proof.
  induction s as [|c s IH]; simpl; intros H.
  - exists [], []. destruct (k []); [auto|discriminate].
  - destruct (k (c :: s)) eqn:E.
    + exists [], (c :: s). inversion H; subst. auto.
    + destruct (cmatch icase cl c) eqn:Hc; [|discriminate].
      destruct (IH H) as (s1 & s2 & -> & Hall & Hk).
      exists (c :: s1), s2. simpl. rewrite Hc, Hall. auto.
Qed.

Lemma firstn_consumed (s1 s2 : jsstring) :
  firstn (List.length (s1 ++ s2) - List.length s2) (s1 ++ s2) = s1.
Proof.
  rewrite length_app, Nat.add_sub.
  rewrite firstn_app, Nat.sub_diag, firstn_all. simpl. apply app_nil_r.
Qed.

(** Every declared match is tried: when the matcher gives up, the
    continuation has refused it. *)
Lemma rmatch_complete r s1 cs cs' :
  Matches icase r s1 cs cs' ->
  forall s2 (k : jsstring -> captures -> option A),
    rmatch icase r (s1 ++ s2) cs k = None -> k s2 cs' = None.
Proof.
  induction 1; intros s2' k Hnone; simpl in Hnone.
  - exact Hnone.
  - rewrite H in Hnone. exact Hnone.
  - apply (star_greedy_complete cl s s2' (fun s' => k s' cs) H Hnone).
  - apply (star_lazy_complete cl s s2' (fun s' => k s' cs) H Hnone).
  - rewrite <- app_assoc in Hnone.
    apply IHMatches1 in Hnone. apply IHMatches2 in Hnone. exact Hnone.
  - destruct (rmatch icase r1 (s ++ s2') cs0 k) eqn:E; [discriminate|].
    apply IHMatches. exact E.
  - destruct (rmatch icase r1 (s ++ s2') cs0 k) eqn:E; [discriminate|].
    apply IHMatches. exact Hnone.
  - apply IHMatches in Hnone. rewrite firstn_consumed in Hnone. exact Hnone.
Qed.

(** Every answer of the matcher comes from a declared match. *)
Lemma rmatch_sound r :
  forall s cs (k : jsstring -> captures -> option A) a,
    rmatch icase r s cs k = Some a ->
    exists s1 s2 cs', s = s1 ++ s2 /\ Matches icase r s1 cs cs'
                      /\ k s2 cs' = Some a.
Proof.
  induction r; intros s cs k a H; simpl in H.
  - exists [], s, cs. split; [reflexivity|]. split; [constructor|exact H].
  - destruct s as [|c s]; [discriminate|].
    destruct (cmatch icase cl c) eqn:Hc; [|discriminate].
    exists [c], s, cs. split; [reflexivity|]. split; [constructor; exact Hc|exact H].
  - apply star_greedy_sound in H. destruct H as (s1 & s2 & -> & Hall & Hk).
    exists s1, s2, cs. split; [reflexivity|]. split; [constructor; exact Hall|exact Hk].
  - apply star_lazy_sound in H. destruct H as (s1 & s2 & -> & Hall & Hk).
    exists s1, s2, cs. split; [reflexivity|]. split; [constructor; exact Hall|exact Hk].
  - apply IHr1 in H. destruct H as (s1 & s2 & cs1 & -> & M1 & H).
    apply IHr2 in H. destruct H as (s3 & s4 & cs2 & -> & M2 & H).
    exists (s1 ++ s3), s4, cs2. rewrite app_assoc.
    split; [reflexivity|]. split; [econstructor; eassumption|exact H].
  - destruct (rmatch icase r1 s cs k) eqn:E.
    + inversion H; subst. apply IHr1 in E.
      destruct E as (s1 & s2 & cs1 & -> & M1 & Hk).
      exists s1, s2, cs1. split; [reflexivity|]. split; [apply M_AltL; exact M1|exact Hk].
    + apply IHr2 in H. destruct H as (s1 & s2 & cs1 & -> & M1 & Hk).
      exists s1, s2, cs1. split; [reflexivity|]. split; [apply M_AltR; exact M1|exact Hk].
  - apply IHr in H. destruct H as (s1 & s2 & cs1 & -> & M1 & Hk).
    rewrite firstn_consumed in Hk.
    exists s1, s2, ((i, s1) :: cs1).
    split; [reflexivity|]. split; [constructor; exact M1|exact Hk].
Qed.
End MatcherFacts.

(** The search finds a match exactly when some part of the text matches. *)
Lemma exec_from_none icase r s :
  forall before_rev,
    exec_from icase r before_rev s = None ->
    forall pre s1 s2 cs', s = pre ++ s1 ++ s2 -> ~ Matches icase r s1 [] cs'.
Proof.
  induction s as [|c s IH]; intros br Hnone pre s1 s2 cs' Hs HM; simpl in Hnone.
  - destruct pre; [|discriminate]. simpl in Hs.
    destruct (match_at icase r br []) eqn:E; [discriminate|].
    unfold match_at in E. rewrite Hs in E.
    apply (rmatch_complete HM) in E. discriminate.
  - destruct (match_at icase r br (c :: s)) eqn:E; [discriminate|].
    destruct pre as [|c' pre]; simpl in Hs.
    + unfold match_at in E. rewrite Hs in E.
      apply (rmatch_complete HM) in E. discriminate.
    + inversion Hs; subst. eapply IH; eauto.
Qed.

Lemma match_at_some icase r before_rev s m :
  match_at icase r before_rev s = Some m ->
  m_before m = rev before_rev /\ s = m_text m ++ m_after m
  /\ Matches icase r (m_text m) [] (m_groups m).
Proof.
  unfold match_at. intros H. apply rmatch_sound in H.
  destruct H as (s1 & s2 & cs' & -> & HM & Hk).
  rewrite firstn_consumed in Hk. inversion Hk; subst; simpl. auto.
Qed.

Lemma exec_from_some icase r s :
  forall before_rev m,
    exec_from icase r before_rev s = Some m ->
    exists pre, m_before m = rev before_rev ++ pre
                /\ s = pre ++ m_text m ++ m_after m
                /\ Matches icase r (m_text m) [] (m_groups m).
Proof.
  induction s as [|c s IH]; intros br m H; simpl in H.
  - destruct (match_at icase r br []) eqn:E; [|discriminate].
    inversion H; subst. apply match_at_some in E.
    destruct E as (Hb & Hs & HM). exists []. rewrite app_nil_r. auto.
  - destruct (match_at icase r br (c :: s)) eqn:E.
    + inversion H; subst. apply match_at_some in E.
      destruct E as (Hb & Hs & HM). exists []. rewrite app_nil_r. auto.
    + apply IH in H. destruct H as (pre & Hb & Hs & HM).
      exists (c :: pre). simpl in Hb. rewrite <- app_assoc in Hb. simpl in Hb.
      split; [exact Hb|]. split; [simpl; f_equal; exact Hs|exact HM].
Qed.

Lemma regex_exec_some icase r s m :
  regex_exec icase r s = Some m ->
  s = m_before m ++ m_text m ++ m_after m
  /\ Matches icase r (m_text m) [] (m_groups m).
Proof.
  unfold regex_exec. intros H. apply exec_from_some in H.
  destruct H as (pre & Hb & Hs & HM). simpl in Hb. subst pre. auto.
Qed.

Lemma regex_exec_found icase r s pre s1 s2 cs' :
  s = pre ++ s1 ++ s2 -> Matches icase r s1 [] cs' ->
  exists m, regex_exec icase r s = Some m.
Proof.
  intros Hs HM. destruct (regex_exec icase r s) eqn:E; [eauto|].
  exfalso. eapply exec_from_none; [exact E | exact Hs | exact HM].
Qed.

(** A run of pattern characters matches the texts that are equal to it
    up to case (under [i]) and leaves the captures alone. *)
Lemma Matches_rlit_intro icase l :
  forall s cs, map (canonicalize icase) s = map (canonicalize icase) l ->
               Matches icase (rlit l) s cs cs.
Proof.
  induction l as [|a l IH]; intros s cs H.
  - destruct s; [constructor|discriminate].
  - destruct s as [|c s]; [discriminate|]. simpl in H. inversion H as [[Hc Hs]].
    assert (Hm : cmatch icase (CLit a) c = true) by (simpl; apply N.eqb_eq; exact Hc).
    destruct l as [|b l].
    + destruct s; [|discriminate]. simpl. constructor. exact Hm.
    + change (c :: s) with ([c] ++ s).
      change (rlit (a :: b :: l)) with (Seq (Chr (CLit a)) (rlit (b :: l))).
      econstructor; [constructor; exact Hm|]. apply IH. exact Hs.
Qed.

Lemma Matches_rlit_elim icase l :
  forall s cs cs', Matches icase (rlit l) s cs cs' ->
                   cs' = cs /\ map (canonicalize icase) s = map (canonicalize icase) l.
Proof.
  induction l as [|a l IH]; intros s cs cs' H.
  - inversion H; subst. auto.
  - destruct l as [|b l].
    + simpl in H. inversion H; subst. simpl in *.
      match goal with Hc : (_ =? _) = true |- _ => apply N.eqb_eq in Hc; rewrite Hc end.
      auto.
    + change (rlit (a :: b :: l)) with (Seq (Chr (CLit a)) (rlit (b :: l))) in H.
      remember (rlit (b :: l)) as r' eqn:Er.
      inversion H as [| | | |? ? s1 s2 ? cs1 ? H1 H2| | |]; subst.
      inversion H1 as [|? ? ? Hc| | | | | |]; subst.
      apply IH in H2. destruct H2 as [-> H2].
      simpl in Hc. apply N.eqb_eq in Hc.
      split; [reflexivity|]. simpl. simpl in H2. rewrite Hc, H2. reflexivity.
Qed.

(** Inversion of [Matches], one lemma for each constructor of [regex]
    that the patterns use. *)
Lemma Matches_Seq_inv icase r1 r2 s cs cs' :
  Matches icase (Seq r1 r2) s cs cs' ->
  exists s1 s2 cs1, s = s1 ++ s2 /\ Matches icase r1 s1 cs cs1
                    /\ Matches icase r2 s2 cs1 cs'.
Proof. intros H. inversion H; subst. eauto 7. Qed.

Lemma Matches_Alt_inv icase r1 r2 s cs cs' :
  Matches icase (Alt r1 r2) s cs cs' ->
  Matches icase r1 s cs cs' \/ Matches icase r2 s cs cs'.
Proof. intros H. inversion H; subst; auto. Qed.

Lemma Matches_Group_inv icase i r s cs cs' :
  Matches icase (Group i r) s cs cs' ->
  exists cs1, Matches icase r s cs cs1 /\ cs' = (i, s) :: cs1.
Proof. intros H. inversion H; subst. eauto. Qed.

Lemma Matches_Star_inv icase cl s cs cs' :
  Matches icase (Star cl) s cs cs' ->
  cs' = cs /\ forallb (cmatch icase cl) s = true.
Proof. intros H. inversion H; subst. auto. Qed.

Lemma Matches_StarLazy_inv icase cl s cs cs' :
  Matches icase (StarLazy cl) s cs cs' ->
  cs' = cs /\ forallb (cmatch icase cl) s = true.
Proof. intros H. inversion H; subst. auto. Qed.

Lemma Matches_Chr_inv icase cl s cs cs' :
  Matches icase (Chr cl) s cs cs' ->
  exists c, s = [c] /\ cs' = cs /\ cmatch icase cl c = true.
Proof. intros H. inversion H; subst. eauto. Qed.

(** The branches of the error pattern match exactly the text elements
    that carry the attribute, and capture their content. *)
Lemma text_element_matches attr i tag inner close cs :
  text_element attr tag inner close ->
  Matches true (textElementRegex attr i) (tag ++ inner ++ close) cs ((i, inner) :: cs).
Proof.
  intros (name & a & x & b & -> & Hname & Hx & Ha & Hb & Hclose).
  unfold textElementRegex. cbn [seqs].
  repeat rewrite <- app_assoc.
  apply M_Seq with (cs1 := cs); [apply Matches_rlit_intro; exact Hname|].
  apply M_Seq with (cs1 := cs); [constructor; exact Ha|].
  apply M_Seq with (cs1 := cs); [apply Matches_rlit_intro; exact Hx|].
  apply M_Seq with (cs1 := cs); [constructor; exact Hb|].
  apply M_Seq with (cs1 := cs); [constructor; reflexivity|].
  apply M_Seq with (cs1 := (i, inner) :: cs);
    [|apply Matches_rlit_intro; exact Hclose].
  constructor. constructor. apply forallb_forall. reflexivity.
Qed.

Lemma matches_text_element attr i s cs cs' :
  Matches true (textElementRegex attr i) s cs cs' ->
  exists tag inner close,
    s = tag ++ inner ++ close /\ text_element attr tag inner close
    /\ cs' = (i, inner) :: cs.
Proof.
  unfold textElementRegex. cbn [seqs]. intros H.
  apply Matches_Seq_inv in H. destruct H as (name & s1 & c1 & -> & Hname & H).
  apply Matches_Seq_inv in H. destruct H as (a & s2 & c2 & -> & Ha & H).
  apply Matches_Seq_inv in H. destruct H as (x & s3 & c3 & -> & Hx & H).
  apply Matches_Seq_inv in H. destruct H as (b & s4 & c4 & -> & Hb & H).
  apply Matches_Seq_inv in H. destruct H as (g & s5 & c5 & -> & Hg & H).
  apply Matches_Seq_inv in H. destruct H as (inner & close & c6 & -> & Hin & Hclose).
  apply Matches_rlit_elim in Hname. destruct Hname as [-> Hname].
  apply Matches_Star_inv in Ha. destruct Ha as [-> Ha].
  apply Matches_rlit_elim in Hx. destruct Hx as [-> Hx].
  apply Matches_Star_inv in Hb. destruct Hb as [-> Hb].
  apply Matches_Chr_inv in Hg. destruct Hg as (c & -> & -> & Hc).
  apply Matches_Group_inv in Hin. destruct Hin as (c7 & Hin & ->).
  apply Matches_StarLazy_inv in Hin. destruct Hin as [-> _].
  apply Matches_rlit_elim in Hclose. destruct Hclose as [-> Hclose].
  simpl in Hc. apply N.eqb_eq in Hc.
  assert (c = 62%N) as ->.
  { unfold canonicalize in Hc. simpl in Hc.
    destruct ((97 <=? c)%N && (c <=? 122)%N) eqn:E; [|exact Hc].
    apply andb_true_iff in E. destruct E as [E1 E2].
    apply N.leb_le in E1. lia. }
  exists (name ++ a ++ x ++ b ++ [62%N]), inner, close.
  split; [repeat rewrite <- app_assoc; reflexivity|].
  split; [|reflexivity].
  exists name, a, x, b. auto 10.
Qed.

(** ** Lemmas on the server *)

Lemma validateDiagramType_ok ty t :
  list_includes validTypes ty = true -> validateDiagramType ty t = (inr tt, t).
Proof. intros H. unfold validateDiagramType. rewrite H. reflexivity. Qed.

Lemma validateOutputFormat_ok f t :
  list_includes validFormats f = true -> validateOutputFormat f t = (inr tt, t).
Proof. intros H. unfold validateOutputFormat. rewrite H. reflexivity. Qed.

Lemma validateDiagramType_bad ty t :
  list_includes validTypes ty = false ->
  exists e, validateDiagramType ty t = (inl (ExMcp e), t) /\ code e = InvalidParams.
Proof.
  intros H. unfold validateDiagramType. rewrite H. simpl negb. cbv iota.
  eexists. split; reflexivity.
Qed.

Lemma validateOutputFormat_bad f t :
  list_includes validFormats f = false ->
  exists e, validateOutputFormat f t = (inl (ExMcp e), t) /\ code e = InvalidParams.
Proof.
  intros H. unfold validateOutputFormat. rewrite H. simpl negb. cbv iota.
  eexists. split; reflexivity.
Qed.

(** [processResponse] throws nothing but McpErrors with InvalidParams. *)
Lemma processResponse_error fmt scale ct data e :
  processResponse fmt scale ct data = inl e ->
  exists m, e = ExMcp m /\ code m = InvalidParams.
Proof.
  unfold processResponse.
  destruct (isHtmlResponse _ _).
  - intros H. inversion H. eexists. split; reflexivity.
  - destruct (svgChecked fmt data).
    + destruct (regex_exec _ _ _).
      * intros H. inversion H. eexists. split; reflexivity.
      * destruct (scalingApplies _ _); discriminate.
    + discriminate.
Qed.

(** Without the scaling block the bytes of the response come back as
    they are. *)
Lemma processResponse_unscaled fmt scale ct data d f :
  scalingApplies (scaleOrDefault scale) fmt = false ->
  processResponse fmt scale ct data = inr (d, f) -> d = data /\ f = fmt.
Proof.
  unfold processResponse. intros Hs.
  destruct (isHtmlResponse _ _); [discriminate|].
  destruct (svgChecked fmt data).
  - destruct (regex_exec _ _ _); [discriminate|].
    rewrite Hs. intros H. inversion H. auto.
  - intros H. inversion H. auto.
Qed.

Section ServerFacts.
Variable env : environment.

(** What [getDiagramData] does once the options are valid. *)
Lemma getDiagramData_valid o scale t :
  valid_options o = true ->
  getDiagramData env o scale t =
  (match http_get env (requestUrl env o) with
   | HttpResponse st ct body =>
       if validateStatus st then
         match processResponse (formatOf o) scale ct body with
         | inl e => inl (ExMcp (fetchErrorHandler e))
         | inr r => inr r
         end
       else inl (ExMcp (fetchErrorHandler
              (ExAxios st body
                 (js "Request failed with status code " ++ decimal st))))
   | HttpFailure msg => inl (ExMcp (fetchErrorHandler (ExOther msg)))
   end, t ++ [EvFetch (requestUrl env o)]).
Proof.
  unfold valid_options. intros H. apply andb_true_iff in H. destruct H as [Ht Hf].
  unfold getDiagramData, bind.
  rewrite (validateDiagramType_ok _ _ Ht).
  fold (formatOf o). rewrite (validateOutputFormat_ok _ _ Hf).
  fold (requestUrl env o).
  unfold try_catch, axios_get, bind, emit.
  destruct (http_get env (requestUrl env o)) as [st ct body|msg].
  - destruct (validateStatus st).
    + unfold ret. cbn [fst snd].
      destruct (processResponse (formatOf o) scale ct body); reflexivity.
    + reflexivity.
  - reflexivity.
Qed.

(** What [getDiagramData] does when a validator refuses: an
    InvalidParams error, and the trace is left as it was. *)
Lemma getDiagramData_invalid o scale t :
  valid_options o = false ->
  exists e, getDiagramData env o scale t = (inl (ExMcp e), t)
            /\ code e = InvalidParams.
Proof.
  unfold valid_options. intros H. unfold getDiagramData, bind.
  destruct (list_includes validTypes (type o)) eqn:Ht.
  - simpl in H. rewrite (validateDiagramType_ok _ _ Ht).
    fold (formatOf o).
    destruct (validateOutputFormat_bad (formatOf o) t H) as (e & -> & Hc).
    eauto.
  - destruct (validateDiagramType_bad (type o) t Ht) as (e & -> & Hc). eauto.
Qed.

(** The only event of [getDiagramData] is its one fetch. *)
Lemma getDiagramData_trace o scale t r t' :
  getDiagramData env o scale t = (r, t') ->
  t' = t \/ t' = t ++ [EvFetch (requestUrl env o)].
Proof.
  destruct (valid_options o) eqn:Hv.
  - rewrite (getDiagramData_valid _ _ _ Hv). intros H. inversion H. auto.
  - destruct (getDiagramData_invalid o scale t Hv) as (e & -> & _).
    intros H. inversion H. auto.
Qed.

(** Every error of [getDiagramData] is an McpError. *)
Lemma getDiagramData_error o scale t e t' :
  getDiagramData env o scale t = (inl e, t') -> exists m, e = ExMcp m.
Proof.
  destruct (valid_options o) eqn:Hv.
  - rewrite (getDiagramData_valid _ _ _ Hv).
    destruct (http_get env (requestUrl env o)) as [st ct body|msg].
    + destruct (validateStatus st).
      * destruct (processResponse _ _ _ _); intros H; inversion H; eauto.
      * intros H; inversion H; eauto.
    + intros H; inversion H; eauto.
  - destruct (getDiagramData_invalid o scale t Hv) as (m & -> & _).
    intros H. inversion H. eauto.
Qed.

(** A success of [getDiagramData] comes from a 2xx response that
    [processResponse] accepted. *)
Lemma getDiagramData_success o scale t r t' :
  getDiagramData env o scale t = (inr r, t') ->
  valid_options o = true /\
  t' = t ++ [EvFetch (requestUrl env o)] /\
  exists st ct body,
    http_get env (requestUrl env o) = HttpResponse st ct body
    /\ validateStatus st = true
    /\ processResponse (formatOf o) scale ct body = inr r.
Proof.
  destruct (valid_options o) eqn:Hv.
  - rewrite (getDiagramData_valid _ _ _ Hv).
    destruct (http_get env (requestUrl env o)) as [st ct body|msg].
    + destruct (validateStatus st) eqn:Hst.
      * destruct (processResponse _ _ _ _) eqn:Hp; intros H; inversion H; subst.
        split; [reflexivity|]. split; [reflexivity|].
        exists st, ct, body. auto.
      * discriminate.
    + discriminate.
  - destruct (getDiagramData_invalid o scale t Hv) as (m & -> & _). discriminate.
Qed.
End ServerFacts.

Lemma validateStatus_true st : validateStatus st = true <-> (200 <= st < 300)%N.
Proof.
  unfold validateStatus. rewrite andb_true_iff, N.leb_le, N.ltb_lt. tauto.
Qed.

(** ** The properties of the specification *)

(** *** C1: the HTML check *)

(** C1 (a defect of the code): the body [<HTML><body>x</body></HTML>]
    starts with an HTML opening tag written in capitals, the content type
    is not HTML, and the response is returned as a success, where the
    claim has it classified as an HTML error.  The content type is
    lower-cased before it is tested and every pattern of the block
    ignores case; the test of the body alone compares the text as
    spelled. *)
Theorem C1_upper_case_html_is_success :
  startsWith (toLowerCase (trim (toString_utf8_slice 100 upper_case_html)))
    (js "<html") = true
  /\ valid_options mermaid_svg = true
  /\ getDiagramData (svg_service upper_case_html) mermaid_svg None []
     = (inr (upper_case_html, js "svg"),
        [EvFetch (requestUrl (svg_service upper_case_html) mermaid_svg)]).
Proof. vm_compute. auto. Qed.

(** The rest of the check is as the claim has it: for every 2xx
    response, when the lower-cased content type contains [text/html], or
    the text decoded from the first 100 bytes of the body, trimmed,
    starts with [<html] or with [<!DOCTYPE html] (both exactly as
    spelled), [getDiagramData] throws the HTML error (InvalidParams,
    "Krokiエラー: ..."), whatever the output format and whatever the body
    holds besides: the check precedes the scan for inline SVG errors. *)
Lemma html_check_comes_first env o scale t st ct body :
  valid_options o = true ->
  http_get env (requestUrl env o) = HttpResponse st ct body ->
  (200 <= st < 300)%N ->
  includes (lowerContentType ct) (js "text/html") = true
  \/ startsWith (trim (toString_utf8_slice 100 body)) (js "<html") = true
  \/ startsWith (trim (toString_utf8_slice 100 body)) (js "<!DOCTYPE html") = true ->
  getDiagramData env o scale t
  = (inl (ExMcp (mkMcpError InvalidParams
                   (js "Krokiエラー: " ++ htmlErrorMessage body))),
     t ++ [EvFetch (requestUrl env o)]).
Proof.
  intros Hv Hget Hst Hhtml.
  rewrite (getDiagramData_valid _ _ _ _ Hv), Hget.
  apply validateStatus_true in Hst. rewrite Hst.
  assert (Hi : isHtmlResponse (lowerContentType ct) body = true).
  { unfold isHtmlResponse. destruct Hhtml as [H|[H|H]]; rewrite H;
      repeat rewrite orb_true_r; reflexivity. }
  unfold processResponse. rewrite Hi. reflexivity.
Qed.

(** A body that opens with [<html] and also holds a text element of
    class "error": the HTML error wins. *)
Lemma html_check_comes_first_example :
  valid_options mermaid_svg = true
  /\ regex_test true errorTextRegex (toString_utf8 html_with_error_text) = true
  /\ getDiagramData (svg_service html_with_error_text) mermaid_svg None []
     = (inl (ExMcp (mkMcpError InvalidParams
                      (js "Krokiエラー: " ++ htmlErrorMessage html_with_error_text))),
        [] ++ [EvFetch (requestUrl (svg_service html_with_error_text) mermaid_svg)]).
Proof.
  split; [vm_compute; reflexivity|]. split; [vm_compute; reflexivity|].
  apply (@html_check_comes_first (svg_service html_with_error_text)
           mermaid_svg None [] 200 svg_content_type html_with_error_text).
  - vm_compute; reflexivity.
  - reflexivity.
  - lia.
  - right. left. vm_compute. reflexivity.
Qed.

(** *** C2: validation comes before the fetch *)

Lemma or_else_some_nonempty (f d : jsstring) : f <> [] -> or_else (Some f) d = f.
Proof. destruct f; [congruence|reflexivity]. Qed.

Section ValidationFacts.
Variable env : environment.

Lemma generateDiagramUrl_invalid o t :
  valid_options o = false ->
  exists e, generateDiagramUrl env o t = (inl (ExMcp e), t)
            /\ code e = InvalidParams.
Proof.
  unfold valid_options. intros H. unfold generateDiagramUrl, bind.
  destruct (list_includes validTypes (type o)) eqn:Ht.
  - simpl in H. rewrite (validateDiagramType_ok _ _ Ht).
    fold (formatOf o).
    destruct (validateOutputFormat_bad (formatOf o) t H) as (e & -> & Hc).
    eauto.
  - destruct (validateDiagramType_bad (type o) t Ht) as (e & -> & Hc). eauto.
Qed.

Lemma generate_diagram_url_invalid args t :
  valid_options (mkOptions (a_type args) (a_content args) (a_outputFormat args))
    = false ->
  exists e, generate_diagram_url env args t = (inl (ExMcp e), t)
            /\ code e = InvalidParams.
Proof.
  intros H. destruct (generateDiagramUrl_invalid _ t H) as (e & He & Hc).
  exists e. split; [|exact Hc].
  unfold generate_diagram_url, try_catch, bind. rewrite He. reflexivity.
Qed.

Lemma download_diagram_invalid args t :
  valid_options (downloadOptions env args) = false ->
  exists e, download_diagram env args t = (inl (ExMcp e), t)
            /\ code e = InvalidParams.
Proof.
  intros H.
  destruct (getDiagramData_invalid env _ (downloadScale args) t H) as (e & He & Hc).
  unfold downloadOptions, downloadScale in He.
  unfold download_diagram, try_catch, bind. rewrite He.
  eexists. split; [reflexivity|exact Hc].
Qed.
End ValidationFacts.

(** C2, as the claim states it, fails: the empty string is outside the
    set of output formats, yet a link request that carries it is treated
    as one without a format, is fetched as [svg] and succeeds. *)
Lemma C2_empty_format_is_fetched :
  list_includes validFormats (@nil N) = false
  /\ a_outputFormat empty_format_arguments = Some []
  /\ callTool (svg_service plain_svg) (js "generate_diagram_url")
       empty_format_arguments []
     = (inr (js "ダイアグラムURLを生成し、内容を確認しました。エラーは見つかりませんでした。"
               ++ nl ++ js "URL: "
               ++ requestUrl (svg_service plain_svg) mermaid_svg),
        [EvFetch (requestUrl (svg_service plain_svg) mermaid_svg)]).
Proof. vm_compute. auto. Qed.

(** C2 (amended): for both operations, when the diagram type is outside
    the set of supported types, or the request carries a non-empty output
    format outside svg, png, pdf, jpeg, base64, the operation fails with
    an InvalidParams error and the trace is unchanged: nothing was
    fetched (and nothing written), whatever the transport would answer.
    An empty output format counts as absent. *)
Theorem C2_validation_precedes_fetch env args t :
  list_includes validTypes (a_type args) = false
  \/ (exists f, a_outputFormat args = Some f /\ f <> []
                /\ list_includes validFormats f = false) ->
  (exists e, callTool env (js "generate_diagram_url") args t = (inl (ExMcp e), t)
             /\ code e = InvalidParams)
  /\ (exists e, callTool env (js "download_diagram") args t = (inl (ExMcp e), t)
                /\ code e = InvalidParams).
Proof.
  intros H.
  change (callTool env (js "generate_diagram_url") args t)
    with (generate_diagram_url env args t).
  change (callTool env (js "download_diagram") args t)
    with (download_diagram env args t).
  split.
  - apply generate_diagram_url_invalid. unfold valid_options. cbn [type].
    destruct H as [H|(f & Hf & Hne & H)].
    + rewrite H. reflexivity.
    + unfold formatOf. cbn [outputFormat]. rewrite Hf.
      rewrite (or_else_some_nonempty _ Hne), H. apply andb_false_r.
  - apply download_diagram_invalid. unfold valid_options, downloadOptions.
    cbn [type]. destruct H as [H|(f & Hf & Hne & H)].
    + rewrite H. reflexivity.
    + unfold formatOf. cbn [outputFormat]. rewrite Hf.
      rewrite (or_else_some_nonempty _ Hne).
      rewrite (or_else_some_nonempty _ Hne), H. apply andb_false_r.
Qed.

(** A file request with [outputFormat: 'gif'] against a service that
    would answer: InvalidParams, empty trace. *)
Lemma C2_validation_precedes_fetch_witness :
  (list_includes validTypes (a_type gif_arguments) = false
   \/ (exists f, a_outputFormat gif_arguments = Some f /\ f <> []
                 /\ list_includes validFormats f = false))
  /\ (exists e, callTool (svg_service plain_svg) (js "generate_diagram_url")
                  gif_arguments []
                = (inl (ExMcp e), []) /\ code e = InvalidParams)
  /\ (exists e, callTool (svg_service plain_svg) (js "download_diagram")
                  gif_arguments []
                = (inl (ExMcp e), []) /\ code e = InvalidParams).
Proof.
  assert (H : list_includes validTypes (a_type gif_arguments) = false
              \/ (exists f, a_outputFormat gif_arguments = Some f /\ f <> []
                            /\ list_includes validFormats f = false)).
  { right. exists (js "gif"). split; [reflexivity|].
    split; [vm_compute; discriminate|vm_compute; reflexivity]. }
  split; [exact H|].
  exact (@C2_validation_precedes_fetch (svg_service plain_svg) gif_arguments [] H).
Defined.

(** *** C3: the content encoder *)

(** The search for a single character class. *)
Lemma exec_from_chr icase cl s before_rev :
  exec_from icase (Chr cl) before_rev s =
  match s with
  | [] => None
  | c :: s' =>
      if cmatch icase cl c then Some (MatchResult (rev before_rev) [c] s' [])
      else exec_from icase (Chr cl) (c :: before_rev) s'
  end.
Proof.
  destruct s as [|c s]; [reflexivity|].
  cbn [exec_from]. unfold match_at. cbn [rmatch].
  destruct (cmatch icase cl c); [|reflexivity].
  replace (List.length (c :: s) - List.length s)%nat with 1%nat
    by (cbn [List.length]; lia).
  reflexivity.
Qed.

Lemma exec_from_chr_spec icase cl s :
  forall before_rev,
    match exec_from icase (Chr cl) before_rev s with
    | None => forallb (fun c => negb (cmatch icase cl c)) s = true
    | Some m =>
        exists pre c post,
          s = pre ++ c :: post
          /\ forallb (fun c => negb (cmatch icase cl c)) pre = true
          /\ cmatch icase cl c = true
          /\ m = MatchResult (rev before_rev ++ pre) [c] post []
    end.
Proof.
  induction s as [|c s IH]; intros br; rewrite exec_from_chr; [reflexivity|].
  destruct (cmatch icase cl c) eqn:Hc.
  - exists [], c, s. rewrite app_nil_r. auto.
  - specialize (IH (c :: br)).
    destruct (exec_from icase (Chr cl) (c :: br) s).
    + destruct IH as (pre & c' & post & -> & Hpre & Hc' & ->).
      exists (c :: pre), c', post. cbn [forallb]. rewrite Hc, Hpre.
      cbn [rev]. rewrite <- app_assoc. auto.
    + cbn [forallb]. rewrite Hc, IH. reflexivity.
Qed.

Lemma flat_map_unmatched (f : N -> jsstring) (p : N -> bool) s :
  (forall c, p c = false -> f c = [c]) ->
  forallb (fun c => negb (p c)) s = true -> flat_map f s = s.
Proof.
  intros Hf. induction s as [|c s IH]; intros H; [reflexivity|].
  cbn [forallb] in H. apply andb_true_iff in H. destruct H as [Hc Hs].
  apply negb_true_iff in Hc. cbn [flat_map]. rewrite (Hf _ Hc), (IH Hs). reflexivity.
Qed.

(** Replacing every character of a class: character by character. *)
Lemma replace_all_chr icase cl t s :
  replace_all icase (Chr cl) t s
  = flat_map (fun c => if cmatch icase cl c then t else [c]) s.
Proof.
  unfold replace_all.
  assert (H : forall fuel s, (List.length s < fuel)%nat ->
            replace_all_fuel fuel icase (Chr cl) t s
            = flat_map (fun c => if cmatch icase cl c then t else [c]) s).
  { clear s. induction fuel as [|fuel IH]; intros s Hlen; [lia|].
    cbn [replace_all_fuel]. unfold regex_exec.
    pose proof (exec_from_chr_spec icase cl s []) as Hspec.
    destruct (exec_from icase (Chr cl) [] s) as [m|].
    - destruct Hspec as (pre & c & post & -> & Hpre & Hc & ->).
      cbn [m_before m_text m_after rev app].
      rewrite flat_map_app. cbn [flat_map]. rewrite Hc.
      rewrite (flat_map_unmatched _ (cmatch icase cl) pre);
        [|intros c0 H0; rewrite H0; reflexivity|exact Hpre].
      rewrite IH; [reflexivity|].
      rewrite length_app in Hlen. cbn [List.length] in Hlen. lia.
    - symmetry. apply (flat_map_unmatched _ (cmatch icase cl));
        [intros c0 H0; rewrite H0; reflexivity|exact Hspec]. }
  apply H. lia.
Qed.

Lemma flat_map_singleton (g : N -> N) (s : jsstring) :
  flat_map (fun c => [g c]) s = map g s.
Proof. induction s as [|c s IH]; [reflexivity|]. cbn. rewrite IH. reflexivity. Qed.

Lemma replace_all_char (a b : N) (s : jsstring) :
  replace_all false (Chr (CLit a)) [b] s = map (fun c => if c =? a then b else c) s.
Proof.
  rewrite replace_all_chr, <- flat_map_singleton.
  apply flat_map_ext. intros c. cbn [cmatch]. unfold canonicalize. cbn [andb].
  destruct (c =? a); reflexivity.
Qed.

Lemma url_safe_not_plus c : url_safe c <> char_plus.
Proof.
  unfold url_safe.
  destruct (c =? char_plus) eqn:E1; [discriminate|].
  destruct (c =? char_slash) eqn:E2; [discriminate|].
  apply N.eqb_neq. exact E1.
Qed.

Lemma url_safe_not_slash c : url_safe c <> char_slash.
Proof.
  unfold url_safe.
  destruct (c =? char_plus) eqn:E1; [discriminate|].
  destruct (c =? char_slash) eqn:E2; [discriminate|].
  apply N.eqb_neq. exact E2.
Qed.

Lemma url_safe_keeps_padding c : (char_eq =? url_safe c) = (char_eq =? c).
Proof.
  unfold url_safe.
  destruct (c =? char_plus) eqn:E1.
  - apply N.eqb_eq in E1. subst c. reflexivity.
  - destruct (c =? char_slash) eqn:E2; [|reflexivity].
    apply N.eqb_eq in E2. subst c. reflexivity.
Qed.

(** C3: the token is the base64 text of the compressed UTF-8 bytes of the
    source with every [+] turned into [-] and every [/] into [_]: no
    [+] and no [/] is left, and the padding [=] stays where base64 put
    it.  The token is a function of the source (and of the compressor)
    alone: the transport, the file system and [path] play no part, so
    repeated calls give the same token. *)
Theorem C3_token_is_url_safe_base64_of_deflate env s :
  encodeContent env s
  = map url_safe (toString_base64 (zlib_deflate env (utf8_encode s)))
  /\ ~ In char_plus (encodeContent env s)
  /\ ~ In char_slash (encodeContent env s)
  /\ map (N.eqb char_eq) (encodeContent env s)
     = map (N.eqb char_eq) (toString_base64 (zlib_deflate env (utf8_encode s)))
  /\ (forall z h m w e d h' m' w' e' d',
        encodeContent (mkEnvironment z h m w e d) s
        = encodeContent (mkEnvironment z h' m' w' e' d') s).
Proof.
  assert (E : encodeContent env s
              = map url_safe (toString_base64 (zlib_deflate env (utf8_encode s)))).
  { unfold encodeContent, pako_deflate. rewrite !replace_all_char, map_map.
    apply map_ext. intros c. unfold url_safe.
    destruct (c =? char_plus) eqn:E1; [reflexivity|reflexivity]. }
  split; [exact E|]. rewrite E.
  split; [|split; [|split]].
  - intros H. apply in_map_iff in H. destruct H as (c & Hc & _).
    exact (url_safe_not_plus c Hc).
  - intros H. apply in_map_iff in H. destruct H as (c & Hc & _).
    exact (url_safe_not_slash c Hc).
  - rewrite map_map. apply map_ext. intros c. apply url_safe_keeps_padding.
  - reflexivity.
Qed.

(** *** C5: the download writes the whole file or none *)

Lemma writes_app t1 t2 : writes (t1 ++ t2) = writes t1 ++ writes t2.
Proof.
  induction t1 as [|ev t1 IH]; [reflexivity|].
  destruct ev; cbn [app writes]; rewrite IH; reflexivity.
Qed.

Lemma getDiagramData_writes env o scale t r t' :
  getDiagramData env o scale t = (r, t') -> writes t' = writes t.
Proof.
  intros H. apply getDiagramData_trace in H. destruct H as [->| ->];
    [reflexivity|]. rewrite writes_app. cbn [writes]. apply app_nil_r.
Qed.

(** C5: the download handler either reports the saved path, and then
    [getDiagramData] had succeeded with some final buffer, the
    directory of the path was made and after it the file was written
    with that whole buffer, in one write; or it throws an McpError whose
    message starts with "Failed to download diagram to <outputPath>: ",
    and then the trace holds no write that was not there before. *)
Theorem C5_download_all_or_nothing env args t :
  match download_diagram env args t with
  | (inr text, t') =>
      exists data fmt t1,
        getDiagramData env (downloadOptions env args) (downloadScale args) t
        = (inr (data, fmt), t1)
        /\ t' = t1 ++ [EvMkdir (path_dirname env (a_outputPath args));
                       EvWriteFile (a_outputPath args) data]
        /\ writes t' = writes t ++ [(a_outputPath args, data)]
        /\ text = js "Diagram saved to " ++ a_outputPath args
  | (inl e, t') =>
      writes t' = writes t
      /\ exists c detail,
           e = ExMcp (mkMcpError c
                 (js "Failed to download diagram to " ++ a_outputPath args
                    ++ js ": " ++ detail))
  end.
Proof.
  unfold download_diagram, try_catch, bind.
  fold (downloadOptions env args). fold (downloadScale args).
  destruct (getDiagramData env (downloadOptions env args) (downloadScale args) t)
    as [[e|[data fmt]] t1] eqn:Hget.
  - pose proof (getDiagramData_writes _ _ _ _ Hget) as Hw.
    destruct (getDiagramData_error _ _ _ _ Hget) as (m & ->).
    unfold throw. split; [exact Hw|]. eauto.
  - pose proof (getDiagramData_writes _ _ _ _ Hget) as Hw.
    cbn [fst]. unfold fs_call.
    destruct (fs_mkdir env (path_dirname env (a_outputPath args))) as [msg|].
    + unfold throw. split; [exact Hw|]. eauto.
    + unfold emit.
      destruct (fs_writeFile env (a_outputPath args) data) as [msg|].
      * unfold throw. split; [|eauto].
        rewrite writes_app. cbn [writes]. rewrite app_nil_r. exact Hw.
      * unfold ret. exists data, fmt, t1.
        split; [reflexivity|]. split; [rewrite <- app_assoc; reflexivity|].
        split; [|reflexivity].
        rewrite !writes_app. cbn [writes]. rewrite app_nil_r, Hw. reflexivity.
Qed.

(** *** C7: the status classes of the transport *)

Lemma processResponse_rethrown fmt scale ct body :
  match processResponse fmt scale ct body with
  | inl e => inl (ExMcp (fetchErrorHandler e))
  | inr r => inr r
  end = processResponse fmt scale ct body.
Proof.
  destruct (processResponse fmt scale ct body) as [e|r] eqn:E; [|reflexivity].
  destruct (processResponse_error _ _ _ _ E) as (m & -> & _). reflexivity.
Qed.

Lemma badRequest_wording k st k' : badRequestMessage k <> requestFailedMessage st k'.
Proof.
  intros H. apply (f_equal (@hd_error N)) in H. vm_compute in H. discriminate.
Qed.

(** C7: a status in [200,300) is a candidate success: the outcome is
    that of the response classifier.  Every other status is a transport
    failure.  Its snippet is the trimmed decoded body when that text is
    not empty and shorter than 500 code units, and nothing otherwise.
    Status 400 gives InvalidParams with the syntax error message (which
    names HTTP 400 and holds the snippet); every other status gives
    InternalError with the request-failed message, which carries the
    status in decimal and the snippet.  The two messages never agree. *)
Theorem C7_status_classes env o scale t st ct body :
  valid_options o = true ->
  http_get env (requestUrl env o) = HttpResponse st ct body ->
  getDiagramData env o scale t
  = (if (200 <=? st) && (st <? 300) then processResponse (formatOf o) scale ct body
     else inl (ExMcp (mkMcpError
                 (if st =? 400 then InvalidParams else InternalError)
                 (if st =? 400 then badRequestMessage (krokiMessageOf body)
                  else requestFailedMessage st (krokiMessageOf body)))),
     t ++ [EvFetch (requestUrl env o)])
  /\ krokiMessageOf body
     = (if (0 <? List.length (toString_utf8 body))%nat
           && (List.length (toString_utf8 body) <? 500)%nat
        then trim (toString_utf8 body) else [])
  /\ (exists tail,
        requestFailedMessage st (krokiMessageOf body)
        = js "Kroki APIリクエスト失敗 (ステータス: " ++ decimal st ++ js ")" ++ tail
        /\ (tail = [] \/ exists label, tail = label ++ krokiMessageOf body))
  /\ (exists middle,
        badRequestMessage (krokiMessageOf body)
        = js "ダイアグラムの記述にエラーがあるようです (Kroki HTTP 400)。" ++ nl
            ++ middle ++ js "記述内容を確認してください。"
        /\ (krokiMessageOf body = []
            \/ exists label rest, middle = label ++ krokiMessageOf body ++ rest))
  /\ badRequestMessage (krokiMessageOf body)
     <> requestFailedMessage st (krokiMessageOf body).
Proof.
  intros Hv Hget.
  split; [|split; [|split; [|split]]].
  - rewrite (getDiagramData_valid _ _ _ _ Hv), Hget. unfold validateStatus.
    destruct ((200 <=? st) && (st <? 300)).
    + rewrite processResponse_rethrown. reflexivity.
    + reflexivity.
  - reflexivity.
  - unfold requestFailedMessage. hide_literals.
    destruct (krokiMessageOf body) as [|c k].
    + exists []. rewrite <- !app_assoc. auto.
    + eexists. rewrite <- !app_assoc. split; [reflexivity|].
      right. eexists. rewrite app_assoc. reflexivity.
  - unfold badRequestMessage. hide_literals.
    destruct (krokiMessageOf body) as [|c k].
    + eexists. split; [reflexivity|]. left. reflexivity.
    + eexists. split; [reflexivity|].
      right.
      match goal with
      | |- exists label rest, ?a ++ ?b ++ ?c0 ++ ?d ++ ?m ++ ?r = _ =>
          exists (a ++ b ++ c0 ++ d), r
      end.
      rewrite <- !app_assoc. reflexivity.
  - apply badRequest_wording.
Qed.

(** Status 500 with the body [internal error]. *)
Lemma C7_status_classes_witness :
  valid_options mermaid_svg = true
  /\ http_get failing_service (requestUrl failing_service mermaid_svg)
     = HttpResponse 500 None (utf8_encode (js "internal error"))
  /\ getDiagramData failing_service mermaid_svg None []
     = (inl (ExMcp (mkMcpError InternalError
          (js "Kroki APIリクエスト失敗 (ステータス: 500)" ++ nl
             ++ js "Krokiからのメッセージ: internal error"))),
        [EvFetch (requestUrl failing_service mermaid_svg)]).
Proof.
  assert (Hv : valid_options mermaid_svg = true) by (vm_compute; reflexivity).
  assert (Hg : http_get failing_service (requestUrl failing_service mermaid_svg)
               = HttpResponse 500 None (utf8_encode (js "internal error")))
    by reflexivity.
  split; [exact Hv|]. split; [exact Hg|].
  destruct (@C7_status_classes failing_service mermaid_svg None [] 500 None
              (utf8_encode (js "internal error")) Hv Hg) as (H & _).
  rewrite H. vm_compute. reflexivity.
Defined.

(** *** C8: the link of a diagram *)

(** The format of the probe: [outputFormat === 'base64' ? 'svg' : outputFormat] *)
Lemma generateDiagramUrl_probe env o t :
  valid_options o = true ->
  generateDiagramUrl env o t =
  match getDiagramData env
          (mkOptions (type o) (content o)
             (Some (if jsstring_eqb (formatOf o) (js "base64") then js "svg"
                    else formatOf o))) None t with
  | (inr _, t1) => (inr (requestUrl env o), t1)
  | (inl e, t1) => (inl e, t1)
  end.
Proof.
  unfold valid_options. intros H. apply andb_true_iff in H. destruct H as [Ht Hf].
  unfold generateDiagramUrl, bind.
  rewrite (validateDiagramType_ok _ _ Ht).
  fold (formatOf o). rewrite (validateOutputFormat_ok _ _ Hf).
  destruct (getDiagramData env _ None t) as [[e|r] t1]; reflexivity.
Qed.

Lemma mermaid_link_svg tok :
  diagramUrl (js "mermaid") (js "svg") tok
  = KROKI_BASE_URL ++ js "/mermaid/svg/" ++ tok.
Proof.
  unfold diagramUrl.
  change (js "/mermaid/svg/")
    with (js "/" ++ js "mermaid" ++ js "/" ++ js "svg" ++ js "/").
  rewrite <- !app_assoc. reflexivity.
Qed.

Lemma mermaid_link_base64 tok :
  diagramUrl (js "mermaid") (js "base64") tok
  = KROKI_BASE_URL ++ js "/mermaid/base64/" ++ tok.
Proof.
  unfold diagramUrl.
  change (js "/mermaid/base64/")
    with (js "/" ++ js "mermaid" ++ js "/" ++ js "base64" ++ js "/").
  rewrite <- !app_assoc. reflexivity.
Qed.

(** C8: when the probe of [{type: "mermaid", content: "graph TD; A-->B;",
    outputFormat: "svg"}] succeeds, the link is the base address followed
    by [/mermaid/svg/] and the token of the content, the reply of the
    handler ends with that link, and the one request sent went to that
    address.  With [outputFormat: "base64"] the request sent is the same
    one, to [/mermaid/svg/<token>], and the link returned is
    [/mermaid/base64/<token>]. *)
Theorem C8_mermaid_link env t r t1 :
  getDiagramData env mermaid_svg None t = (inr r, t1) ->
  t1 = t ++ [EvFetch (KROKI_BASE_URL ++ js "/mermaid/svg/"
                        ++ encodeContent env (js "graph TD; A-->B;"))]
  /\ generateDiagramUrl env mermaid_svg t
     = (inr (KROKI_BASE_URL ++ js "/mermaid/svg/"
               ++ encodeContent env (js "graph TD; A-->B;")), t1)
  /\ generate_diagram_url env
       (mkArguments (js "mermaid") (js "graph TD; A-->B;") [] (Some (js "svg")) None) t
     = (inr (js "ダイアグラムURLを生成し、内容を確認しました。エラーは見つかりませんでした。"
               ++ nl ++ js "URL: "
               ++ (KROKI_BASE_URL ++ js "/mermaid/svg/"
                     ++ encodeContent env (js "graph TD; A-->B;"))), t1)
  /\ generateDiagramUrl env mermaid_base64 t
     = (inr (KROKI_BASE_URL ++ js "/mermaid/base64/"
               ++ encodeContent env (js "graph TD; A-->B;")), t1).
Proof.
  intros Hget.
  assert (Hv : valid_options mermaid_svg = true) by (vm_compute; reflexivity).
  assert (Hv64 : valid_options mermaid_base64 = true) by (vm_compute; reflexivity).
  assert (Hsvg : generateDiagramUrl env mermaid_svg t
                 = (inr (requestUrl env mermaid_svg), t1)).
  { rewrite (generateDiagramUrl_probe env mermaid_svg t Hv).
    change (mkOptions (type mermaid_svg) (content mermaid_svg)
              (Some (if jsstring_eqb (formatOf mermaid_svg) (js "base64")
                     then js "svg" else formatOf mermaid_svg)))
      with mermaid_svg.
    rewrite Hget. reflexivity. }
  split; [|split; [|split]].
  - apply getDiagramData_success in Hget. destruct Hget as (_ & -> & _).
    unfold requestUrl. change (formatOf mermaid_svg) with (js "svg").
    change (type mermaid_svg) with (js "mermaid").
    change (content mermaid_svg) with (js "graph TD; A-->B;").
    rewrite mermaid_link_svg. reflexivity.
  - rewrite Hsvg. unfold requestUrl. change (formatOf mermaid_svg) with (js "svg").
    change (type mermaid_svg) with (js "mermaid").
    change (content mermaid_svg) with (js "graph TD; A-->B;").
    rewrite mermaid_link_svg. reflexivity.
  - unfold generate_diagram_url, try_catch, bind.
    change (mkOptions _ _ _) with mermaid_svg.
    rewrite Hsvg. unfold ret, requestUrl.
    change (formatOf mermaid_svg) with (js "svg").
    change (type mermaid_svg) with (js "mermaid").
    change (content mermaid_svg) with (js "graph TD; A-->B;").
    rewrite mermaid_link_svg. reflexivity.
  - rewrite (generateDiagramUrl_probe env mermaid_base64 t Hv64).
    change (mkOptions (type mermaid_base64) (content mermaid_base64)
              (Some (if jsstring_eqb (formatOf mermaid_base64) (js "base64")
                     then js "svg" else formatOf mermaid_base64)))
      with mermaid_svg.
    rewrite Hget. unfold requestUrl.
    change (formatOf mermaid_base64) with (js "base64").
    change (type mermaid_base64) with (js "mermaid").
    change (content mermaid_base64) with (js "graph TD; A-->B;").
    rewrite mermaid_link_base64. reflexivity.
Qed.

(** The service answers with a plain SVG. *)
Lemma C8_mermaid_link_witness :
  getDiagramData (svg_service plain_svg) mermaid_svg None []
  = (inr (plain_svg, js "svg"),
     [EvFetch (requestUrl (svg_service plain_svg) mermaid_svg)])
  /\ generateDiagramUrl (svg_service plain_svg) mermaid_base64 []
     = (inr (KROKI_BASE_URL ++ js "/mermaid/base64/"
               ++ encodeContent (svg_service plain_svg) (js "graph TD; A-->B;")),
        [EvFetch (requestUrl (svg_service plain_svg) mermaid_svg)]).
Proof.
  assert (H : getDiagramData (svg_service plain_svg) mermaid_svg None []
              = (inr (plain_svg, js "svg"),
                 [EvFetch (requestUrl (svg_service plain_svg) mermaid_svg)]))
    by (vm_compute; reflexivity).
  split; [exact H|].
  exact (proj2 (proj2 (proj2 (@C8_mermaid_link (svg_service plain_svg) [] _ _ H)))).
Defined.

(** *** The scan for the inline error markers *)

Lemma marker_found s :
  has_error_marker s -> exists m, regex_exec true errorTextRegex s = Some m.
Proof.
  intros [H|H]; destruct H as (before & tag & inner & close & after & -> & Hel).
  - apply regex_exec_found
      with (pre := before) (s1 := tag ++ inner ++ close) (s2 := after)
           (cs' := [(1%nat, inner)]).
    + rewrite <- !app_assoc. reflexivity.
    + apply M_AltL. apply text_element_matches. exact Hel.
  - apply regex_exec_found
      with (pre := before) (s1 := tag ++ inner ++ close) (s2 := after)
           (cs' := [(2%nat, inner)]).
    + rewrite <- !app_assoc. reflexivity.
    + apply M_AltR. apply text_element_matches. exact Hel.
Qed.

Lemma no_match_no_marker s :
  regex_exec true errorTextRegex s = None -> ~ has_error_marker s.
Proof.
  intros Hnone Hm. apply marker_found in Hm. destruct Hm as (m & Hm). congruence.
Qed.

(** The search stops at the first position where a match starts. *)
Lemma exec_from_leftmost icase r s :
  forall before_rev m,
    exec_from icase r before_rev s = Some m ->
    forall pre s1 s2 cs',
      s = pre ++ s1 ++ s2 -> Matches icase r s1 [] cs' ->
      (List.length (m_before m) <= List.length before_rev + List.length pre)%nat.
Proof.
  induction s as [|c s IH]; intros br m H pre s1 s2 cs' Hs HM; cbn [exec_from] in H.
  - destruct (match_at icase r br []) eqn:E; [|discriminate].
    inversion H; subst. apply match_at_some in E. destruct E as (Hb & _).
    rewrite Hb, length_rev. lia.
  - destruct (match_at icase r br (c :: s)) eqn:E.
    + inversion H; subst. apply match_at_some in E. destruct E as (Hb & _).
      rewrite Hb, length_rev. lia.
    + destruct pre as [|c' pre]; cbn [app] in Hs.
      * exfalso. unfold match_at in E. rewrite Hs in E.
        apply (rmatch_complete HM) in E. discriminate.
      * inversion Hs; subst.
        pose proof (IH _ _ H pre s1 s2 cs' eq_refl HM) as Hle.
        cbn [List.length] in *. lia.
Qed.

Lemma exec_from_at icase r s :
  forall before_rev m,
    exec_from icase r before_rev s = Some m ->
    exists pre rest,
      s = pre ++ rest /\ match_at icase r (rev pre ++ before_rev) rest = Some m.
Proof.
  induction s as [|c s IH]; intros br m H; cbn [exec_from] in H.
  - destruct (match_at icase r br []) eqn:E; [|discriminate].
    inversion H; subst. exists [], []. auto.
  - destruct (match_at icase r br (c :: s)) eqn:E.
    + inversion H; subst. exists [], (c :: s). auto.
    + apply IH in H. destruct H as (pre & rest & -> & H).
      exists (c :: pre), rest. split; [reflexivity|].
      cbn [rev]. rewrite <- app_assoc. exact H.
Qed.

(** A lazy star stops at the first place where what follows succeeds. *)
Lemma star_lazy_first (A : Type) icase cl s (k : jsstring -> option A) a :
  star_lazy icase cl s k = Some a ->
  exists s1 s2,
    s = s1 ++ s2 /\ k s2 = Some a
    /\ forall p q, s1 = p ++ q -> q <> [] -> k (q ++ s2) = None.
Proof.
  induction s as [|c s IH]; cbn [star_lazy]; intros H.
  - exists [], []. destruct (k []) eqn:E; [|discriminate].
    split; [reflexivity|]. split; [congruence|].
    intros p q Hp Hq. destruct p; destruct q; try discriminate. congruence.
  - destruct (k (c :: s)) eqn:E.
    + exists [], (c :: s). split; [reflexivity|]. split; [congruence|].
      intros p q Hp Hq. destruct p; destruct q; try discriminate. congruence.
    + destruct (cmatch icase cl c); [|discriminate].
      destruct (IH H) as (s1 & s2 & -> & Hk & Hfirst).
      exists (c :: s1), s2. split; [reflexivity|]. split; [exact Hk|].
      intros p q Hp Hq. destruct p as [|c' p]; cbn [app] in Hp.
      * subst q. exact E.
      * inversion Hp; subst. apply (Hfirst p q eq_refl Hq).
Qed.

Lemma rmatch_Seq (A : Type) icase r1 r2 s cs (k : jsstring -> captures -> option A) :
  rmatch icase (Seq r1 r2) s cs k
  = rmatch icase r1 s cs (fun s' cs' => rmatch icase r2 s' cs' k).
Proof. reflexivity. Qed.

(** What a successful run of one branch of the error pattern has read:
    a text element with the attribute, whose content ends at the first
    closing tag and is the capture. *)
Lemma rmatch_text_element (A : Type) attr i s cs
      (k : jsstring -> captures -> option A) a :
  (forall s' cs', k s' cs' <> None) ->
  rmatch true (textElementRegex attr i) s cs k = Some a ->
  exists tag inner close rest,
    s = tag ++ inner ++ close ++ rest
    /\ text_element attr tag inner close
    /\ ends_at_first_close inner (close ++ rest)
    /\ k rest ((i, inner) :: cs) = Some a.
Proof.
  intros Hk H. unfold textElementRegex in H. cbn [seqs] in H.
  rewrite rmatch_Seq in H. apply rmatch_sound in H.
  destruct H as (name & s1 & c1 & -> & Hname & H).
  rewrite rmatch_Seq in H. apply rmatch_sound in H.
  destruct H as (a1 & s2 & c2 & -> & Ha & H).
  rewrite rmatch_Seq in H. apply rmatch_sound in H.
  destruct H as (x & s3 & c3 & -> & Hx & H).
  rewrite rmatch_Seq in H. apply rmatch_sound in H.
  destruct H as (b & s4 & c4 & -> & Hb & H).
  rewrite rmatch_Seq in H. apply rmatch_sound in H.
  destruct H as (g & s5 & c5 & -> & Hg & H).
  apply Matches_rlit_elim in Hname. destruct Hname as [-> Hname].
  apply Matches_Star_inv in Ha. destruct Ha as [-> Ha].
  apply Matches_rlit_elim in Hx. destruct Hx as [-> Hx].
  apply Matches_Star_inv in Hb. destruct Hb as [-> Hb].
  apply Matches_Chr_inv in Hg. destruct Hg as (c & -> & -> & Hc).
  assert (c = 62%N) as ->.
  { cbn [cmatch] in Hc. apply N.eqb_eq in Hc.
    unfold canonicalize in Hc. cbn [andb] in Hc.
    destruct ((97 <=? c)%N && (c <=? 122)%N) eqn:E; [|exact Hc].
    apply andb_true_iff in E. destruct E as [E1 E2].
    apply N.leb_le in E1. change (canonicalize true 62) with 62%N in Hc.
    cbn in Hc. lia. }
  rewrite rmatch_Seq in H. cbn [rmatch] in H.
  apply star_lazy_first in H. destruct H as (inner & s6 & -> & H & Hfirst).
  rewrite firstn_consumed in H.
  apply rmatch_sound in H. destruct H as (close & rest & c6 & -> & Hclose & H).
  apply Matches_rlit_elim in Hclose. destruct Hclose as [-> Hclose].
  exists (name ++ a1 ++ x ++ b ++ [62%N]), inner, close, rest.
  split; [rewrite <- !app_assoc; reflexivity|].
  split; [exists name, a1, x, b; auto 10|].
  split; [|exact H].
  intros p q Hp Hq (cl & r & Hsplit & Hcl).
  specialize (Hfirst p q Hp Hq). rewrite Hsplit in Hfirst.
  apply (rmatch_complete (Matches_rlit_intro true (js "</text>") cl _ Hcl)) in Hfirst.
  exact (Hk _ _ Hfirst).
Qed.

(** What the match of the error pattern holds: the first text element of
    the text with one of the two attributes, its content, which ends at
    the first closing tag, in group 1 or 2. *)
Lemma error_match_element s m :
  regex_exec true errorTextRegex s = Some m ->
  exists attr tag inner close,
    (attr = classErrorAttr \/ attr = fillRedAttr)
    /\ s = m_before m ++ tag ++ inner ++ close ++ m_after m
    /\ text_element attr tag inner close
    /\ ends_at_first_close inner (close ++ m_after m)
    /\ rawErrorMessage m
       = trim (or_else (Some inner) (js "Unknown diagram error")).
Proof.
  intros H. unfold regex_exec in H. apply exec_from_at in H.
  destruct H as (pre & rest & -> & H). rewrite app_nil_r in H.
  unfold match_at, errorTextRegex in H. cbn [rmatch] in H.
  match type of H with
  | match ?x with _ => _ end = _ => destruct x as [m1|] eqn:E
  end.
  - inversion H; subst m1; clear H.
    apply rmatch_text_element in E; [|discriminate].
    destruct E as (tag & inner & close & after & -> & Hel & Hend & Hm).
    inversion Hm; subst m; clear Hm. cbn [m_before m_after m_groups].
    exists classErrorAttr, tag, inner, close. rewrite rev_involutive.
    split; [auto|]. split; [reflexivity|]. split; [exact Hel|].
    split; [exact Hend|].
    unfold rawErrorMessage, group. cbn [m_groups capture Nat.eqb].
    destruct inner; reflexivity.
  - apply rmatch_text_element in H; [|discriminate].
    destruct H as (tag & inner & close & after & -> & Hel & Hend & Hm).
    inversion Hm; subst m; clear Hm. cbn [m_before m_after m_groups].
    exists fillRedAttr, tag, inner, close. rewrite rev_involutive.
    split; [auto|]. split; [reflexivity|]. split; [exact Hel|].
    split; [exact Hend|].
    unfold rawErrorMessage, group. cbn [m_groups capture Nat.eqb].
    reflexivity.
Qed.

(** No text element with a marker starts before the one the match holds. *)
Lemma error_match_leftmost s m attr before tag inner close after :
  regex_exec true errorTextRegex s = Some m ->
  attr = classErrorAttr \/ attr = fillRedAttr ->
  s = before ++ tag ++ inner ++ close ++ after ->
  text_element attr tag inner close ->
  (List.length (m_before m) <= List.length before)%nat.
Proof.
  intros H Hattr Hs Hel. unfold regex_exec in H.
  destruct Hattr as [-> | ->].
  - apply (@exec_from_leftmost true errorTextRegex s [] m H before
             (tag ++ inner ++ close) after [(1%nat, inner)]).
    + rewrite Hs, <- !app_assoc. reflexivity.
    + apply M_AltL. apply text_element_matches. exact Hel.
  - apply (@exec_from_leftmost true errorTextRegex s [] m H before
             (tag ++ inner ++ close) after [(2%nat, inner)]).
    + rewrite Hs, <- !app_assoc. reflexivity.
    + apply M_AltR. apply text_element_matches. exact Hel.
Qed.

Lemma marker_not_in_empty : ~ has_error_marker [].
Proof.
  intros [H|H]; destruct H as (before & tag & inner & close & after & Hs & Hel);
    destruct Hel as (name & a & x & b & -> & _);
    apply (f_equal (@List.length N)) in Hs; rewrite !length_app in Hs;
    cbn [List.length] in Hs; lia.
Qed.

Lemma svgChecked_false fmt data :
  fmt = js "svg" \/ fmt = js "base64" -> svgChecked fmt data = false -> data = [].
Proof.
  unfold svgChecked. intros [-> | ->] H.
  - rewrite jsstring_eqb_refl in H. cbn [orb andb] in H.
    destruct data; [reflexivity|discriminate].
  - rewrite jsstring_eqb_refl, orb_true_r in H. cbn [andb] in H.
    destruct data; [reflexivity|discriminate].
Qed.

Lemma status_200 : (200 <= 200 < 300)%N.
Proof. lia. Qed.

(** *** C4: the inline image error *)

(** C4, as the claim states it, fails: the body
    [<text class="error"></text>] is a text element of class "error"
    whose content is empty, so that the content trimmed and decoded is
    the empty text; the message of the error is "Unknown diagram error". *)
Lemma C4_empty_element_gives_placeholder :
  text_element classErrorAttr
    (js "<text " ++ attr_text "class" "error" ++ js ">") [] (js "</text>")
  /\ toString_utf8 empty_error_svg
     = [] ++ (js "<text " ++ attr_text "class" "error" ++ js ">") ++ []
          ++ js "</text>" ++ []
  /\ decodeErrorMessage (trim []) = []
  /\ getDiagramData (svg_service empty_error_svg) mermaid_svg None []
     = (inl (ExMcp (mkMcpError InvalidParams
          (js "ダイアグラム生成エラー (SVG内):" ++ nl
             ++ js "Unknown diagram error"
             ++ nl ++ nl ++ js "記述内容を確認してください。"))),
        [EvFetch (requestUrl (svg_service empty_error_svg) mermaid_svg)]).
Proof.
  split; [|vm_compute; auto].
  exists (js "<text"), (js " "), classErrorAttr, [].
  vm_compute. auto 10.
Qed.

(** C4 (amended): for a 2xx response that the HTML check lets pass,
    requested as svg or base64, whose decoded body holds a text element
    of class "error" or one filled in red, [getDiagramData] throws the
    inline error (InvalidParams).  Its message is made from the content
    of the first such element of the body, the content ending at the
    first closing tag: the content trimmed and then decoded ([&lt;],
    [&gt;], [&amp;], [<br/>], in this order), or "Unknown diagram error"
    in place of an empty content, between the fixed heading and the
    fixed advice. *)
Theorem C4_inline_error env o scale t st ct body :
  valid_options o = true ->
  formatOf o = js "svg" \/ formatOf o = js "base64" ->
  http_get env (requestUrl env o) = HttpResponse st ct body ->
  (200 <= st < 300)%N ->
  isHtmlResponse (lowerContentType ct) body = false ->
  has_error_marker (toString_utf8 body) ->
  exists attr before tag inner close after,
    (attr = classErrorAttr \/ attr = fillRedAttr)
    /\ toString_utf8 body = before ++ tag ++ inner ++ close ++ after
    /\ text_element attr tag inner close
    /\ ends_at_first_close inner (close ++ after)
    /\ (forall attr' before' tag' inner' close' after',
          attr' = classErrorAttr \/ attr' = fillRedAttr ->
          toString_utf8 body = before' ++ tag' ++ inner' ++ close' ++ after' ->
          text_element attr' tag' inner' close' ->
          (List.length before <= List.length before')%nat)
    /\ getDiagramData env o scale t
       = (inl (ExMcp (mkMcpError InvalidParams
            (js "ダイアグラム生成エラー (SVG内):" ++ nl
               ++ decodeErrorMessage
                    (trim (or_else (Some inner) (js "Unknown diagram error")))
               ++ nl ++ nl ++ js "記述内容を確認してください。"))),
          t ++ [EvFetch (requestUrl env o)]).
Proof.
  intros Hv Hfmt Hget Hst Hhtml Hmark.
  destruct (marker_found Hmark) as (m & Hm).
  destruct (error_match_element _ Hm)
    as (attr & tag & inner & close & Hattr & Hs & Hel & Hend & Hraw).
  exists attr, (m_before m), tag, inner, close, (m_after m).
  split; [exact Hattr|]. split; [exact Hs|]. split; [exact Hel|].
  split; [exact Hend|].
  split.
  { intros attr' before' tag' inner' close' after' Hattr' Hs' Hel'.
    eapply error_match_leftmost; eassumption. }
  rewrite (getDiagramData_valid _ _ _ _ Hv), Hget.
  apply validateStatus_true in Hst. rewrite Hst.
  unfold processResponse. rewrite Hhtml.
  destruct (svgChecked (formatOf o) body) eqn:Hchk.
  - rewrite Hm. cbn [fetchErrorHandler]. unfold svgError. rewrite Hraw. reflexivity.
  - apply (svgChecked_false _ Hfmt) in Hchk. subst body.
    exfalso. exact (marker_not_in_empty Hmark).
Qed.

(** The body [<text class="error">bad syntax</text>]: the message holds
    "bad syntax". *)
Lemma C4_inline_error_witness :
  valid_options mermaid_svg = true
  /\ isHtmlResponse (lowerContentType svg_content_type) bad_syntax_svg = false
  /\ has_error_marker (toString_utf8 bad_syntax_svg)
  /\ getDiagramData (svg_service bad_syntax_svg) mermaid_svg None []
     = (inl (ExMcp (mkMcpError InvalidParams
          (js "ダイアグラム生成エラー (SVG内):" ++ nl ++ js "bad syntax"
             ++ nl ++ nl ++ js "記述内容を確認してください。"))),
        [EvFetch (requestUrl (svg_service bad_syntax_svg) mermaid_svg)])
  /\ exists inner,
       getDiagramData (svg_service bad_syntax_svg) mermaid_svg None []
       = (inl (ExMcp (mkMcpError InvalidParams
            (js "ダイアグラム生成エラー (SVG内):" ++ nl
               ++ decodeErrorMessage
                    (trim (or_else (Some inner) (js "Unknown diagram error")))
               ++ nl ++ nl ++ js "記述内容を確認してください。"))),
          [] ++ [EvFetch (requestUrl (svg_service bad_syntax_svg) mermaid_svg)]).
Proof.
  assert (Hmark : has_error_marker (toString_utf8 bad_syntax_svg)).
  { left. exists [], (js "<text " ++ attr_text "class" "error" ++ js ">"),
      (js "bad syntax"), (js "</text>"), [].
    split; [vm_compute; reflexivity|].
    exists (js "<text"), (js " "), classErrorAttr, [].
    vm_compute. auto 10. }
  assert (Hv : valid_options mermaid_svg = true) by (vm_compute; reflexivity).
  assert (Hh : isHtmlResponse (lowerContentType svg_content_type) bad_syntax_svg
               = false) by (vm_compute; reflexivity).
  split; [exact Hv|]. split; [exact Hh|]. split; [exact Hmark|].
  split; [vm_compute; reflexivity|].
  destruct (@C4_inline_error (svg_service bad_syntax_svg) mermaid_svg None [] 200
              svg_content_type bad_syntax_svg Hv (or_introl eq_refl) eq_refl
              status_200 Hh Hmark)
    as (attr & before & tag & inner & close & after & _ & _ & _ & _ & _ & H).
  exists inner. exact H.
Defined.

(** The decoding of a message, entity by entity. *)
Example decodeErrorMessage_example :
  decodeErrorMessage (js "a &lt;b&gt; &amp; c<br/>d")
  = js "a <b> & c" ++ nl ++ js "d".
Proof. vm_compute. reflexivity. Qed.

(** *** C9: scales up to 1.0 *)

Lemma scalingApplies_up_to_one q fmt :
  (q <= 1)%Q -> scalingApplies (Fin q) fmt = false.
Proof.
  intros H. unfold scalingApplies, num_gt, num_one.
  apply Qle_bool_iff in H. rewrite H. reflexivity.
Qed.

(** C9, as the claim states it, fails: at scale 0.5 the SVG
    [<svg width="100px" height="50px">] is written to the file as it came,
    not with the dimensions halved, while at scale 2.0 the dimensions are
    doubled. *)
Lemma C9_half_scale_is_ignored :
  download_diagram (svg_service plain_svg) (download_arguments num_half) []
  = (inr (js "Diagram saved to /tmp/out.svg"),
     [EvFetch (requestUrl (svg_service plain_svg) mermaid_svg);
      EvMkdir (js "/tmp"); EvWriteFile (js "/tmp/out.svg") plain_svg])
  /\ plain_svg <> halved_svg
  /\ download_diagram (svg_service plain_svg) (download_arguments num_two) []
     = (inr (js "Diagram saved to /tmp/out.svg"),
        [EvFetch (requestUrl (svg_service plain_svg) mermaid_svg);
         EvMkdir (js "/tmp"); EvWriteFile (js "/tmp/out.svg") doubled_svg]).
Proof.
  split; [vm_compute; reflexivity|]. split; [vm_compute; discriminate|].
  vm_compute; reflexivity.
Qed.

(** C9 (amended): for every scale up to 1.0, so for every scale in
    [0.1, 1.0) too, nothing is rewritten: the response is treated as with
    the default scale 1.0, and a success carries the bytes of the
    response unchanged.  The rewrite is for scales above 1.0 only. *)
Theorem C9_no_rewrite_up_to_one fmt q ct data :
  (q <= 1)%Q ->
  processResponse fmt (Some (Fin q)) ct data = processResponse fmt None ct data
  /\ forall d f, processResponse fmt (Some (Fin q)) ct data = inr (d, f) ->
                 d = data.
Proof.
  intros Hq. pose proof (scalingApplies_up_to_one fmt Hq) as Hs.
  split.
  - unfold processResponse. cbn [scaleOrDefault].
    rewrite Hs.
    replace (scalingApplies num_one fmt) with false; [reflexivity|].
    symmetry. apply scalingApplies_up_to_one. apply Qle_refl.
  - intros d f H. apply processResponse_unscaled in H; [tauto|exact Hs].
Qed.

(** Scale 0.5 on [<svg width="100px" height="50px">]. *)
Lemma C9_no_rewrite_up_to_one_witness :
  (1 # 2 <= 1)%Q
  /\ processResponse (js "svg") (Some (Fin (1 # 2))) svg_content_type plain_svg
     = processResponse (js "svg") None svg_content_type plain_svg
  /\ processResponse (js "svg") (Some (Fin (1 # 2))) svg_content_type plain_svg
     = inr (plain_svg, js "svg").
Proof.
  assert (H : (1 # 2 <= 1)%Q) by (vm_compute; discriminate).
  split; [exact H|].
  split; [exact (proj1 (@C9_no_rewrite_up_to_one (js "svg") (1 # 2)
                          svg_content_type plain_svg H))|].
  vm_compute. reflexivity.
Defined.

(** *** C10: what a success holds *)

(** C10, as the claim states it, fails: in the body
    [<svg <text width=Q5cla.ss=QerrorQ>oops</text>] ([Q] for the double
    quote) the scan finds no marker; at scale 2.0 the rewrite of the width
    drops the digit and the dot of its value, and the bytes returned as a
    success hold a text element with [class=QerrorQ]. *)
Lemma C10_scaling_can_make_a_marker :
  getDiagramData (svg_service joined_class_svg) mermaid_svg (Some num_two) []
  = (inr (joined_class_svg_scaled, js "svg"),
     [EvFetch (requestUrl (svg_service joined_class_svg) mermaid_svg)])
  /\ has_text_element classErrorAttr (toString_utf8 joined_class_svg_scaled).
Proof.
  split; [vm_compute; reflexivity|].
  exists (js "<svg "),
    (js "<text width=" ++ dq ++ js "10.00" ++ classErrorAttr ++ js ">"),
    (js "oops"), (js "</text>"), [].
  split; [vm_compute; reflexivity|].
  exists (js "<text"), (js " width=" ++ dq ++ js "10.00"), classErrorAttr, [].
  vm_compute. auto 10.
Qed.

(** C10 (amended): every success for the format svg or base64 comes from
    a 2xx response whose decoded body holds no text element of class
    "error" and none filled in red, so a body with such an element is
    never a success; and unless the scaling block ran (format svg and
    scale above 1.0) the bytes returned are the bytes of that body, which
    then hold no such element either. *)
Theorem C10_success_has_no_marker env o scale t d f t' :
  formatOf o = js "svg" \/ formatOf o = js "base64" ->
  getDiagramData env o scale t = (inr (d, f), t') ->
  exists st ct body,
    http_get env (requestUrl env o) = HttpResponse st ct body
    /\ (200 <= st < 300)%N
    /\ ~ has_error_marker (toString_utf8 body)
    /\ (scalingApplies (scaleOrDefault scale) (formatOf o) = false ->
        d = body /\ ~ has_error_marker (toString_utf8 d)).
Proof.
  intros Hfmt Hget. apply getDiagramData_success in Hget.
  destruct Hget as (Hv & -> & st & ct & body & Hhttp & Hst & Hp).
  exists st, ct, body. split; [exact Hhttp|].
  split; [apply validateStatus_true; exact Hst|].
  assert (Hno : ~ has_error_marker (toString_utf8 body)).
  { unfold processResponse in Hp.
    destruct (isHtmlResponse _ _); [discriminate|].
    destruct (svgChecked (formatOf o) body) eqn:Hchk.
    - destruct (regex_exec true errorTextRegex (toString_utf8 body)) eqn:Hm;
        [discriminate|]. apply no_match_no_marker. exact Hm.
    - apply (svgChecked_false _ Hfmt) in Hchk. subst body.
      exact marker_not_in_empty. }
  split; [exact Hno|].
  intros Hs. apply (processResponse_unscaled _ _ _ _ Hs) in Hp.
  destruct Hp as [-> _]. auto.
Qed.

(** A plain SVG at scale 1.0. *)
Lemma C10_success_has_no_marker_witness :
  (formatOf mermaid_svg = js "svg" \/ formatOf mermaid_svg = js "base64")
  /\ getDiagramData (svg_service plain_svg) mermaid_svg None []
     = (inr (plain_svg, js "svg"),
        [EvFetch (requestUrl (svg_service plain_svg) mermaid_svg)])
  /\ exists st ct body,
       http_get (svg_service plain_svg) (requestUrl (svg_service plain_svg) mermaid_svg)
       = HttpResponse st ct body
       /\ (200 <= st < 300)%N
       /\ ~ has_error_marker (toString_utf8 body)
       /\ (scalingApplies (scaleOrDefault None) (formatOf mermaid_svg) = false ->
           plain_svg = body /\ ~ has_error_marker (toString_utf8 plain_svg)).
Proof.
  assert (Hf : formatOf mermaid_svg = js "svg" \/ formatOf mermaid_svg = js "base64")
    by (left; reflexivity).
  assert (Hg : getDiagramData (svg_service plain_svg) mermaid_svg None []
               = (inr (plain_svg, js "svg"),
                  [EvFetch (requestUrl (svg_service plain_svg) mermaid_svg)]))
    by (vm_compute; reflexivity).
  split; [exact Hf|]. split; [exact Hg|].
  exact (@C10_success_has_no_marker (svg_service plain_svg) mermaid_svg None []
           plain_svg (js "svg") _ Hf Hg).
Defined.

(** *** C6: scaling *)

(** The three examples of the specification hold: at scale 2.0 the
    dimensions of [<svg width="100px" height="50px">] are doubled and
    printed with two decimals and their unit; at scale 1.0 the bytes are
    those of the response; for base64 they are so at every scale. *)
Example scale_two_doubles_the_dimensions :
  processResponse (js "svg") (Some num_two) svg_content_type plain_svg
  = inr (doubled_svg, js "svg").
Proof. vm_compute. reflexivity. Qed.

Lemma scale_one_is_the_identity fmt ct data d f :
  processResponse fmt (Some num_one) ct data = inr (d, f) -> d = data.
Proof.
  intros H. apply processResponse_unscaled in H; [tauto|].
  apply scalingApplies_up_to_one. apply Qle_refl.
Qed.

Lemma base64_is_never_scaled scale ct data d f :
  processResponse (js "base64") scale ct data = inr (d, f) -> d = data.
Proof.
  intros H. apply processResponse_unscaled in H; [tauto|].
  unfold scalingApplies.
  replace (jsstring_eqb (js "base64") (js "svg")) with false
    by (vm_compute; reflexivity).
  apply andb_false_r.
Qed.

(** C6 (the code departs from the claim): the root tag
    [<svg stroke-width="2" width="100px" height="50px">] declares a width
    and a height with a number and a unit.  At scale 2.0 the pattern for
    the width finds [width="2"] inside [stroke-width="2"]: the file
    written has the stroke width turned into [4.00px], the width left at
    [100px] and the height doubled. *)
Theorem C6_stroke_width_is_taken_for_width :
  download_diagram (svg_service stroke_svg) (download_arguments num_two) []
  = (inr (js "Diagram saved to /tmp/out.svg"),
     [EvFetch (requestUrl (svg_service stroke_svg) mermaid_svg);
      EvMkdir (js "/tmp"); EvWriteFile (js "/tmp/out.svg") stroke_svg_scaled])
  /\ toString_utf8 stroke_svg_scaled
     = js "<svg " ++ attr_text "stroke-width" "4.00px" ++ js " "
         ++ attr_text "width" "100px" ++ js " "
         ++ attr_text "height" "100.00px" ++ js "><g/></svg>".
Proof. split; vm_compute; reflexivity. Qed.

(** ** Further properties of the code *)

(** *** The effects of the two operations *)

Lemma generateDiagramUrl_error env o t e t' :
  generateDiagramUrl env o t = (inl e, t') -> exists m, e = ExMcp m.
Proof.
  destruct (valid_options o) eqn:Hv.
  - rewrite (generateDiagramUrl_probe env o t Hv).
    destruct (getDiagramData env _ None t) as [[e1|r] t1] eqn:Hg.
    + intros H. inversion H; subst. exact (getDiagramData_error _ _ _ _ Hg).
    + discriminate.
  - destruct (generateDiagramUrl_invalid env o t Hv) as (m & -> & _).
    intros H. inversion H. eauto.
Qed.

Lemma error_code_cases c : c = InvalidParams \/ c = InternalError \/ c = MethodNotFound.
Proof. destruct c; auto. Qed.

(** The codes [getDiagramData] throws with. *)
Lemma getDiagramData_code env o scale t m t' :
  getDiagramData env o scale t = (inl (ExMcp m), t') ->
  (code m = InternalError /\ transport_failed env o)
  \/ (code m = InvalidParams /\ ~ transport_failed env o).
Proof.
  unfold transport_failed.
  destruct (valid_options o) eqn:Hv.
  - rewrite (getDiagramData_valid _ _ _ _ Hv).
    destruct (http_get env (requestUrl env o)) as [st ct body|msg].
    + destruct (validateStatus st) eqn:Hst.
      * rewrite processResponse_rethrown.
        destruct (processResponse _ _ _ _) as [e|r] eqn:Hp; [|discriminate].
        intros H. inversion H; subst.
        destruct (processResponse_error _ _ _ _ Hp) as (m' & Hm & Hc).
        inversion Hm; subst m'. right. split; [exact Hc|].
        intros (_ & Hf & _). discriminate.
      * cbn [fetchErrorHandler]. destruct (st =? 400) eqn:E400;
          intros H; inversion H; subst; cbn [code].
        -- right. split; [reflexivity|]. intros (_ & _ & Hne).
           apply N.eqb_eq in E400. contradiction.
        -- left. split; [reflexivity|]. split; [reflexivity|].
           split; [reflexivity|]. apply N.eqb_neq. exact E400.
    + intros H. inversion H; subst. left. cbn [fetchErrorHandler code]. auto.
  - destruct (getDiagramData_invalid env o scale t Hv) as (e & -> & Hc).
    intros H. inversion H; subst. right. split; [exact Hc|].
    intros (Hv' & _). discriminate.
Qed.

(** The try and catch of the link handler change nothing but the text of
    a success. *)
Lemma generate_diagram_url_unfolded env args t :
  generate_diagram_url env args t
  = match generateDiagramUrl env (linkOptions args) t with
    | (inr url, t') =>
        (inr (js "ダイアグラムURLを生成し、内容を確認しました。エラーは見つかりませんでした。"
                ++ nl ++ js "URL: " ++ url), t')
    | (inl e, t') => (inl e, t')
    end.
Proof.
  unfold generate_diagram_url, try_catch, bind. fold (linkOptions args).
  destruct (generateDiagramUrl env (linkOptions args) t) as [[e|url] t'] eqn:H;
    [|reflexivity].
  destruct (generateDiagramUrl_error _ _ _ H) as (m & ->). reflexivity.
Qed.

(** X1: a link request has one effect at most, the fetch of the probe
    (for base64 the svg address); it makes no directory and writes no
    file.  A reply means that the probe was fetched, and ends with the
    link for the format asked; an error is an McpError, never
    MethodNotFound. *)
Theorem link_request_effects env args t :
  match generate_diagram_url env args t with
  | (inr text, t') =>
      t' = t ++ [EvFetch (requestUrl env (probeOptions (linkOptions args)))]
      /\ text = js "ダイアグラムURLを生成し、内容を確認しました。エラーは見つかりませんでした。"
                  ++ nl ++ js "URL: " ++ requestUrl env (linkOptions args)
  | (inl e, t') =>
      (t' = t
       \/ t' = t ++ [EvFetch (requestUrl env (probeOptions (linkOptions args)))])
      /\ exists m, e = ExMcp m /\ code m <> MethodNotFound
  end.
Proof.
  rewrite generate_diagram_url_unfolded.
  destruct (valid_options (linkOptions args)) eqn:Hv.
  - rewrite (generateDiagramUrl_probe env _ t Hv).
    fold (probeOptions (linkOptions args)).
    destruct (getDiagramData env (probeOptions (linkOptions args)) None t)
      as [[e|r] t1] eqn:Hg.
    + split; [exact (getDiagramData_trace _ _ _ _ Hg)|].
      destruct (getDiagramData_error _ _ _ _ Hg) as (m & ->).
      exists m. split; [reflexivity|].
      destruct (getDiagramData_code _ _ _ _ Hg) as [[Hc _]|[Hc _]];
        rewrite Hc; discriminate.
    + apply getDiagramData_success in Hg. destruct Hg as (_ & -> & _). auto.
  - destruct (generateDiagramUrl_invalid env _ t Hv) as (m & -> & Hc).
    split; [auto|]. exists m. split; [reflexivity|]. rewrite Hc. discriminate.
Qed.

(** X2: the effects of a download are the first [n] of fetch, make the
    directory, write the file, in this order, for some [n]: nothing is
    written before the response has been fetched and accepted and the
    directory made, and nothing is fetched twice.  The download replies
    exactly when all three have happened. *)
Theorem download_effects_in_order env args t :
  exists n data,
    snd (download_diagram env args t)
    = t ++ firstn n (download_events env args data)
    /\ ((exists text, fst (download_diagram env args t) = inr text)
        <-> (3 <= n)%nat).
Proof.
  unfold download_diagram, try_catch, bind.
  fold (downloadOptions env args). fold (downloadScale args).
  destruct (getDiagramData env (downloadOptions env args) (downloadScale args) t)
    as [[e|[data fmt]] t1] eqn:Hget.
  - destruct (getDiagramData_error _ _ _ _ Hget) as (m & ->).
    apply getDiagramData_trace in Hget. destruct Hget as [-> | ->].
    + exists 0%nat, []. cbn. rewrite app_nil_r. split; [reflexivity|].
      split; [intros (x & Hx); discriminate|lia].
    + exists 1%nat, []. cbn. split; [reflexivity|].
      split; [intros (x & Hx); discriminate|lia].
  - apply getDiagramData_success in Hget. destruct Hget as (_ & -> & _).
    cbn [fst]. unfold fs_call.
    destruct (fs_mkdir env (path_dirname env (a_outputPath args))) as [msg|].
    + exists 1%nat, data. cbn. split; [reflexivity|].
      split; [intros (x & Hx); discriminate|lia].
    + unfold emit.
      destruct (fs_writeFile env (a_outputPath args) data) as [msg|].
      * exists 2%nat, data. cbn. rewrite <- app_assoc. split; [reflexivity|].
        split; [intros (x & Hx); discriminate|lia].
      * exists 3%nat, data. cbn. rewrite <- !app_assoc. split; [reflexivity|].
        split; [lia|]. intros _. eexists. reflexivity.
Qed.

(** X3: when the options of a link request are valid and the probe
    fails, the caller receives the very error of the probe, with its
    code and its message; no link is returned. *)
Theorem link_request_keeps_the_error env args t e t1 :
  valid_options (linkOptions args) = true ->
  getDiagramData env (probeOptions (linkOptions args)) None t = (inl e, t1) ->
  generate_diagram_url env args t = (inl e, t1).
Proof.
  intros Hv Hg. rewrite generate_diagram_url_unfolded.
  rewrite (generateDiagramUrl_probe env _ t Hv).
  fold (probeOptions (linkOptions args)). rewrite Hg. reflexivity.
Qed.

(** A link request against a service that answers 500. *)
Lemma link_request_keeps_the_error_witness :
  valid_options (linkOptions (download_arguments num_one)) = true
  /\ generate_diagram_url failing_service (download_arguments num_one) []
     = (inl (ExMcp (mkMcpError InternalError
          (js "Kroki APIリクエスト失敗 (ステータス: 500)" ++ nl
             ++ js "Krokiからのメッセージ: internal error"))),
        [EvFetch (requestUrl failing_service mermaid_svg)]).
Proof.
  assert (Hv : valid_options (linkOptions (download_arguments num_one)) = true)
    by (vm_compute; reflexivity).
  split; [exact Hv|].
  apply (@link_request_keeps_the_error failing_service
           (download_arguments num_one) [] _ _ Hv).
  vm_compute. reflexivity.
Defined.

(** *** The errors of getDiagramData *)

(** X4: the code of an error of [getDiagramData] tells a transport
    failure from everything else: it is InternalError exactly when the
    options were valid and the service gave no response or a status
    outside [200,300) other than 400, and InvalidParams in every other
    case (validation, status 400, HTML error page, inline SVG error). *)
Theorem error_code_tells_transport_failure env o scale t m t' :
  getDiagramData env o scale t = (inl (ExMcp m), t') ->
  (code m = InternalError <-> transport_failed env o)
  /\ (code m = InvalidParams <-> ~ transport_failed env o).
Proof.
  intros H. destruct (getDiagramData_code _ _ _ _ H) as [[Hc Ht]|[Hc Ht]];
    rewrite Hc; split; split; intros; try assumption; try reflexivity;
    try discriminate; contradiction.
Qed.

(** Status 500 is a transport failure. *)
Lemma error_code_tells_transport_failure_witness :
  getDiagramData failing_service mermaid_svg None []
  = (inl (ExMcp (mkMcpError InternalError
       (js "Kroki APIリクエスト失敗 (ステータス: 500)" ++ nl
          ++ js "Krokiからのメッセージ: internal error"))),
     [EvFetch (requestUrl failing_service mermaid_svg)])
  /\ transport_failed failing_service mermaid_svg.
Proof.
  assert (H : getDiagramData failing_service mermaid_svg None []
              = (inl (ExMcp (mkMcpError InternalError
                   (js "Kroki APIリクエスト失敗 (ステータス: 500)" ++ nl
                      ++ js "Krokiからのメッセージ: internal error"))),
                 [EvFetch (requestUrl failing_service mermaid_svg)]))
    by (vm_compute; reflexivity).
  split; [exact H|].
  exact (proj1 (proj1 (@error_code_tells_transport_failure failing_service
                         mermaid_svg None [] _ _ H)) eq_refl).
Defined.

(** X5: when the service gives no response at all, [getDiagramData]
    throws InternalError with "Failed to fetch diagram from Kroki: " and
    the message of the failure, or "Unknown network error" when that
    message is empty; the one request was sent. *)
Theorem no_response_is_an_internal_error env o scale t msg :
  valid_options o = true ->
  http_get env (requestUrl env o) = HttpFailure msg ->
  getDiagramData env o scale t
  = (inl (ExMcp (mkMcpError InternalError
            (js "Failed to fetch diagram from Kroki: "
               ++ match msg with
                  | [] => js "Unknown network error"
                  | _ :: _ => msg
                  end))),
     t ++ [EvFetch (requestUrl env o)]).
Proof.
  intros Hv Hget. rewrite (getDiagramData_valid _ _ _ _ Hv), Hget.
  cbn [fetchErrorHandler]. destruct msg; reflexivity.
Qed.

Lemma no_response_is_an_internal_error_witness :
  valid_options mermaid_svg = true
  /\ http_get unreachable_service (requestUrl unreachable_service mermaid_svg)
     = HttpFailure (js "connect ECONNREFUSED")
  /\ getDiagramData unreachable_service mermaid_svg None []
     = (inl (ExMcp (mkMcpError InternalError
               (js "Failed to fetch diagram from Kroki: "
                  ++ js "connect ECONNREFUSED"))),
        [] ++ [EvFetch (requestUrl unreachable_service mermaid_svg)]).
Proof.
  assert (Hv : valid_options mermaid_svg = true) by (vm_compute; reflexivity).
  split; [exact Hv|]. split; [reflexivity|].
  exact (@no_response_is_an_internal_error unreachable_service mermaid_svg None []
           (js "connect ECONNREFUSED") Hv eq_refl).
Defined.

Lemma trimStart_length s : (List.length (trimStart s) <= List.length s)%nat.
Proof.
  induction s as [|c s IH]; cbn [trimStart]; [lia|].
  destruct (is_js_space c); cbn [List.length]; lia.
Qed.

Lemma trim_length s : (List.length (trim s) <= List.length s)%nat.
Proof.
  unfold trim, trimEnd. rewrite length_rev.
  pose proof (trimStart_length (rev (trimStart s))) as H1.
  rewrite length_rev in H1. pose proof (trimStart_length s). lia.
Qed.

Lemma trimStart_head s c r : trimStart s = c :: r -> is_js_space c = false.
Proof.
  induction s as [|d s IH]; cbn [trimStart]; [discriminate|].
  destruct (is_js_space d) eqn:E; [exact IH|].
  intros H. inversion H; subst. exact E.
Qed.

Lemma trimStart_suffix s : exists a, s = a ++ trimStart s.
Proof.
  induction s as [|c s IH]; [exists []; reflexivity|].
  cbn [trimStart]. destruct (is_js_space c).
  - destruct IH as (a & Ha). exists (c :: a). cbn. f_equal. exact Ha.
  - exists []. reflexivity.
Qed.

(** [trim s] is a part of [s]. *)
Lemma trim_part s : exists a b, s = a ++ trim s ++ b.
Proof.
  unfold trim, trimEnd.
  destruct (trimStart_suffix s) as (a & Ha).
  destruct (trimStart_suffix (rev (trimStart s))) as (b & Hb).
  exists a, (rev b). rewrite Ha at 1. f_equal.
  rewrite <- rev_app_distr, <- Hb, rev_involutive. reflexivity.
Qed.

Lemma trim_head s c r : trim s = c :: r -> is_js_space c = false.
Proof.
  unfold trim, trimEnd. intros H.
  destruct (trimStart_suffix (rev (trimStart s))) as (b & Hb).
  apply (f_equal (@rev N)) in Hb. rewrite rev_involutive, rev_app_distr, H in Hb.
  cbn [app] in Hb. exact (trimStart_head _ Hb).
Qed.

(** X6: the snippet of the body that goes into the message of a
    transport failure is shorter than 500 code units and starts with no
    white space; a body whose text has 500 code units or more, or none,
    leaves no snippet. *)
Theorem snippet_is_short body :
  (List.length (krokiMessageOf body) < 500)%nat
  /\ (forall c r, krokiMessageOf body = c :: r -> is_js_space c = false)
  /\ ((500 <=? List.length (toString_utf8 body))%nat = true
      -> krokiMessageOf body = [])
  /\ (toString_utf8 body = [] -> krokiMessageOf body = []).
Proof.
  unfold krokiMessageOf.
  destruct ((0 <? List.length (toString_utf8 body))%nat) eqn:E0;
    destruct ((List.length (toString_utf8 body) <? 500)%nat) eqn:E5;
    cbn [andb].
  - apply Nat.ltb_lt in E5. apply Nat.ltb_lt in E0.
    pose proof (trim_length (toString_utf8 body)).
    split; [lia|]. split; [intros c r; apply trim_head|].
    split.
    + intros H5. apply Nat.leb_le in H5. lia.
    + intros Hnil. rewrite Hnil in E0. cbn in E0. lia.
  - cbn [List.length]. split; [lia|]. split; [discriminate|]. auto.
  - cbn [List.length]. split; [lia|]. split; [discriminate|]. auto.
  - cbn [List.length]. split; [lia|]. split; [discriminate|]. auto.
Qed.

(** *** The download handler *)

(** What the download handler does with each outcome of its steps. *)
Lemma download_diagram_unfolded env args t :
  download_diagram env args t
  = match getDiagramData env (downloadOptions env args) (downloadScale args) t with
    | (inl e, t1) =>
        (inl (ExMcp (match e with
                     | ExMcp m =>
                         mkMcpError (code m)
                           (js "Failed to download diagram to " ++ a_outputPath args
                              ++ js ": " ++ sdkMessage (code m) (message m))
                     | _ =>
                         mkMcpError InternalError
                           (js "Failed to download diagram to " ++ a_outputPath args
                              ++ js ": "
                              ++ or_else (Some (error_message e)) (js "Unknown error"))
                     end)), t1)
    | (inr (data, _), t1) =>
        match fs_mkdir env (path_dirname env (a_outputPath args)) with
        | Some msg =>
            (inl (ExMcp (mkMcpError InternalError
                    (js "Failed to download diagram to " ++ a_outputPath args
                       ++ js ": " ++ or_else (Some msg) (js "Unknown error")))), t1)
        | None =>
            match fs_writeFile env (a_outputPath args) data with
            | Some msg =>
                (inl (ExMcp (mkMcpError InternalError
                        (js "Failed to download diagram to " ++ a_outputPath args
                           ++ js ": " ++ or_else (Some msg) (js "Unknown error")))),
                 t1 ++ [EvMkdir (path_dirname env (a_outputPath args))])
            | None =>
                (inr (js "Diagram saved to " ++ a_outputPath args),
                 (t1 ++ [EvMkdir (path_dirname env (a_outputPath args))])
                   ++ [EvWriteFile (a_outputPath args) data])
            end
        end
    end.
Proof.
  unfold download_diagram, try_catch, bind.
  fold (downloadOptions env args). fold (downloadScale args).
  destruct (getDiagramData env (downloadOptions env args) (downloadScale args) t)
    as [[e|[data fmt]] t1].
  - destruct e; reflexivity.
  - cbn [fst]. unfold fs_call.
    destruct (fs_mkdir env (path_dirname env (a_outputPath args))); [reflexivity|].
    unfold emit.
    destruct (fs_writeFile env (a_outputPath args) data); reflexivity.
Qed.



(** X8: when the pipeline has succeeded and the file system rejects a
    call, the download throws InternalError with the path and the message
    of the file system ("Unknown error" for an empty one).  If the
    directory cannot be made, nothing follows the fetch; if the write is
    rejected, the directory has been made and no file was written. *)
Theorem download_file_system_failure env args t data fmt t1 :
  getDiagramData env (downloadOptions env args) (downloadScale args) t
  = (inr (data, fmt), t1) ->
  (forall msg,
     fs_mkdir env (path_dirname env (a_outputPath args)) = Some msg ->
     download_diagram env args t
     = (inl (ExMcp (mkMcpError InternalError
               (js "Failed to download diagram to " ++ a_outputPath args
                  ++ js ": " ++ or_else (Some msg) (js "Unknown error")))), t1))
  /\ (forall msg,
        fs_mkdir env (path_dirname env (a_outputPath args)) = None ->
        fs_writeFile env (a_outputPath args) data = Some msg ->
        download_diagram env args t
        = (inl (ExMcp (mkMcpError InternalError
                  (js "Failed to download diagram to " ++ a_outputPath args
                     ++ js ": " ++ or_else (Some msg) (js "Unknown error")))),
           t1 ++ [EvMkdir (path_dirname env (a_outputPath args))])).
Proof.
  intros H. split; intros msg.
  - intros Hm. rewrite download_diagram_unfolded, H, Hm. reflexivity.
  - intros Hm Hw. rewrite download_diagram_unfolded, H, Hm, Hw. reflexivity.
Qed.

(** The directory cannot be made. *)
Lemma download_file_system_failure_witness :
  getDiagramData (read_only_service plain_svg)
    (downloadOptions (read_only_service plain_svg) (download_arguments num_one))
    (downloadScale (download_arguments num_one)) []
  = (inr (plain_svg, js "svg"),
     [EvFetch (requestUrl (read_only_service plain_svg) mermaid_svg)])
  /\ download_diagram (read_only_service plain_svg) (download_arguments num_one) []
     = (inl (ExMcp (mkMcpError InternalError
               (js "Failed to download diagram to "
                  ++ a_outputPath (download_arguments num_one)
                  ++ js ": "
                  ++ or_else (Some (js "EACCES: permission denied"))
                       (js "Unknown error")))),
        [EvFetch (requestUrl (read_only_service plain_svg) mermaid_svg)]).
Proof.
  assert (H : getDiagramData (read_only_service plain_svg)
                (downloadOptions (read_only_service plain_svg)
                   (download_arguments num_one))
                (downloadScale (download_arguments num_one)) []
              = (inr (plain_svg, js "svg"),
                 [EvFetch (requestUrl (read_only_service plain_svg) mermaid_svg)]))
    by (vm_compute; reflexivity).
  split; [exact H|].
  exact (proj1 (@download_file_system_failure (read_only_service plain_svg)
                  (download_arguments num_one) [] _ _ _ H)
           (js "EACCES: permission denied") eq_refl).
Defined.

Lemma fetches_app t1 t2 : fetches (t1 ++ t2) = fetches t1 ++ fetches t2.
Proof.
  induction t1 as [|ev t1 IH]; [reflexivity|].
  destruct ev; cbn [app fetches]; rewrite IH; reflexivity.
Qed.

Lemma downloadFormat_formatOf env args :
  formatOf (downloadOptions env args) = downloadFormat env args.
Proof.
  unfold formatOf, downloadOptions, downloadFormat. cbn [outputFormat].
  destruct (a_outputFormat args) as [[|c f]|]; cbn [or_else].
  - destruct (path_extname env (a_outputPath args)) as [|d [|c e]]; reflexivity.
  - reflexivity.
  - destruct (path_extname env (a_outputPath args)) as [|d [|c e]]; reflexivity.
Qed.

(** X9: a download whose options pass validation sends one request, to
    the address of the type, of the format and of the token, where the
    format is the one of the request when that is not empty (the
    extension of the path then plays no part), else the extension of the
    path, else svg. *)
Theorem download_request_format env args t :
  valid_options (downloadOptions env args) = true ->
  fetches (snd (download_diagram env args t))
  = fetches t
      ++ [diagramUrl (a_type args) (downloadFormat env args)
            (encodeContent env (a_content args))].
Proof.
  intros Hv. rewrite download_diagram_unfolded.
  pose proof (getDiagramData_valid env _ (downloadScale args) t Hv) as Hg.
  assert (Hu : requestUrl env (downloadOptions env args)
               = diagramUrl (a_type args) (downloadFormat env args)
                   (encodeContent env (a_content args))).
  { unfold requestUrl. rewrite downloadFormat_formatOf. reflexivity. }
  rewrite Hu in Hg.
  destruct (getDiagramData env (downloadOptions env args) (downloadScale args) t)
    as [[e|[data fmt]] t1].
  - inversion Hg; subst. cbn [snd]. rewrite fetches_app. reflexivity.
  - inversion Hg as [[Hr Ht]]. subst t1.
    destruct (fs_mkdir env (path_dirname env (a_outputPath args)));
      [cbn [snd]; rewrite fetches_app; reflexivity|].
    destruct (fs_writeFile env (a_outputPath args) data); cbn [snd];
      rewrite !fetches_app; cbn [fetches]; rewrite ?app_nil_r; reflexivity.
Qed.

(** The format svg for the path [/tmp/out.png]: the svg is asked for. *)
Lemma download_request_format_witness :
  valid_options (downloadOptions (svg_service plain_svg) svg_to_png_path_arguments)
  = true
  /\ downloadFormat (svg_service plain_svg) svg_to_png_path_arguments = js "svg"
  /\ fetches (snd (download_diagram (svg_service plain_svg)
                     svg_to_png_path_arguments []))
     = fetches []
         ++ [diagramUrl (a_type svg_to_png_path_arguments)
               (downloadFormat (svg_service plain_svg) svg_to_png_path_arguments)
               (encodeContent (svg_service plain_svg)
                  (a_content svg_to_png_path_arguments))].
Proof.
  assert (Hv : valid_options
                 (downloadOptions (svg_service plain_svg) svg_to_png_path_arguments)
               = true) by (vm_compute; reflexivity).
  split; [exact Hv|]. split; [vm_compute; reflexivity|].
  exact (@download_request_format (svg_service plain_svg)
           svg_to_png_path_arguments [] Hv).
Defined.

(** *** What the classifier does not look at *)

Lemma jsstring_eqb_false (a b : jsstring) : a <> b -> jsstring_eqb a b = false.
Proof.
  intros H. destruct (jsstring_eqb a b) eqn:E; [|reflexivity].
  apply jsstring_eqb_eq in E. contradiction.
Qed.

(** X10: for a format other than svg and base64 the body of a 2xx
    response that is no HTML page is returned as it is, at every scale:
    it is neither scanned for the inline error markers nor rescaled, so
    a body that holds such a marker is a success. *)
Theorem other_formats_are_not_scanned env o scale t st ct body :
  valid_options o = true ->
  formatOf o <> js "svg" ->
  formatOf o <> js "base64" ->
  http_get env (requestUrl env o) = HttpResponse st ct body ->
  (200 <= st < 300)%N ->
  isHtmlResponse (lowerContentType ct) body = false ->
  getDiagramData env o scale t
  = (inr (body, formatOf o), t ++ [EvFetch (requestUrl env o)]).
Proof.
  intros Hv Hsvg H64 Hget Hst Hhtml.
  rewrite (getDiagramData_valid _ _ _ _ Hv), Hget.
  apply validateStatus_true in Hst. rewrite Hst.
  unfold processResponse. rewrite Hhtml.
  unfold svgChecked.
  rewrite (jsstring_eqb_false Hsvg), (jsstring_eqb_false H64).
  reflexivity.
Qed.

(** A png request answered with a text element of class "error". *)
Lemma other_formats_are_not_scanned_witness :
  valid_options mermaid_png = true
  /\ has_error_marker (toString_utf8 bad_syntax_svg)
  /\ getDiagramData (svg_service bad_syntax_svg) mermaid_png (Some num_two) []
     = (inr (bad_syntax_svg, formatOf mermaid_png),
        [] ++ [EvFetch (requestUrl (svg_service bad_syntax_svg) mermaid_png)]).
Proof.
  assert (Hv : valid_options mermaid_png = true) by (vm_compute; reflexivity).
  split; [exact Hv|].
  split.
  { left. exists [], (js "<text " ++ attr_text "class" "error" ++ js ">"),
      (js "bad syntax"), (js "</text>"), [].
    split; [vm_compute; reflexivity|].
    exists (js "<text"), (js " "), classErrorAttr, [].
    vm_compute. auto 10. }
  apply (@other_formats_are_not_scanned (svg_service bad_syntax_svg) mermaid_png
           (Some num_two) [] 200 svg_content_type bad_syntax_svg Hv).
  - vm_compute. discriminate.
  - vm_compute. discriminate.
  - reflexivity.
  - exact status_200.
  - vm_compute. reflexivity.
Defined.

(** X11: an empty body of a 2xx response whose content type is not HTML
    is a success for every format and every scale: the empty buffer is
    returned (and a download writes an empty file). *)
Theorem empty_body_is_a_success env o scale t st ct :
  valid_options o = true ->
  http_get env (requestUrl env o) = HttpResponse st ct [] ->
  (200 <= st < 300)%N ->
  includes (lowerContentType ct) (js "text/html") = false ->
  getDiagramData env o scale t
  = (inr ([], formatOf o), t ++ [EvFetch (requestUrl env o)]).
Proof.
  intros Hv Hget Hst Hct.
  rewrite (getDiagramData_valid _ _ _ _ Hv), Hget.
  apply validateStatus_true in Hst. rewrite Hst.
  unfold processResponse, isHtmlResponse. rewrite Hct.
  replace (trim (toString_utf8_slice 100 [])) with (@nil N) by reflexivity.
  replace (startsWith [] (js "<html")) with false by reflexivity.
  replace (startsWith [] (js "<!DOCTYPE html")) with false by reflexivity.
  cbn [orb]. unfold svgChecked. cbn [List.length Nat.ltb Nat.leb].
  rewrite andb_false_r. reflexivity.
Qed.

Lemma empty_body_is_a_success_witness :
  valid_options mermaid_svg = true
  /\ includes (lowerContentType svg_content_type) (js "text/html") = false
  /\ getDiagramData (svg_service []) mermaid_svg (Some num_two) []
     = (inr ([], formatOf mermaid_svg),
        [] ++ [EvFetch (requestUrl (svg_service []) mermaid_svg)]).
Proof.
  assert (Hv : valid_options mermaid_svg = true) by (vm_compute; reflexivity).
  assert (Hc : includes (lowerContentType svg_content_type) (js "text/html") = false)
    by (vm_compute; reflexivity).
  split; [exact Hv|]. split; [exact Hc|].
  exact (@empty_body_is_a_success (svg_service []) mermaid_svg (Some num_two) []
           200 svg_content_type Hv eq_refl status_200 Hc).
Defined.

(** *** The dispatch of a tool call *)

Lemma download_diagram_code env args t m t' :
  download_diagram env args t = (inl (ExMcp m), t') -> code m <> MethodNotFound.
Proof.
  rewrite download_diagram_unfolded.
  destruct (getDiagramData env (downloadOptions env args) (downloadScale args) t)
    as [[e|[data fmt]] t1] eqn:Hg.
  - destruct (getDiagramData_error _ _ _ _ Hg) as (m1 & ->).
    intros H. inversion H; subst. cbn [code].
    destruct (getDiagramData_code _ _ _ _ Hg) as [[Hc _]|[Hc _]];
      rewrite Hc; discriminate.
  - destruct (fs_mkdir env (path_dirname env (a_outputPath args))).
    + intros H. inversion H; subst. discriminate.
    + destruct (fs_writeFile env (a_outputPath args) data);
        intros H; inversion H; subst. discriminate.
Qed.

Lemma generate_diagram_url_code env args t m t' :
  generate_diagram_url env args t = (inl (ExMcp m), t') -> code m <> MethodNotFound.
Proof.
  rewrite generate_diagram_url_unfolded.
  destruct (valid_options (linkOptions args)) eqn:Hv.
  - rewrite (generateDiagramUrl_probe env _ t Hv).
    destruct (getDiagramData env _ None t) as [[e|r] t1] eqn:Hg; [|discriminate].
    intros H. inversion H; subst.
    destruct (getDiagramData_code _ _ _ _ Hg) as [[Hc _]|[Hc _]];
      rewrite Hc; discriminate.
  - destruct (generateDiagramUrl_invalid env _ t Hv) as (m1 & -> & Hc).
    intros H. inversion H; subst. rewrite Hc. discriminate.
Qed.

(** X12: a tool call whose name is neither generate_diagram_url nor
    download_diagram (names compared as they are, letter case included)
    fails with MethodNotFound and the message "Unknown tool: " with the
    name, and has no effect; and a call that fails has the code
    MethodNotFound only then: the two tools never fail with it. *)
Theorem method_not_found_means_unknown_tool env name args t :
  (name <> js "generate_diagram_url" -> name <> js "download_diagram" ->
   callTool env name args t
   = (inl (ExMcp (mkMcpError MethodNotFound (js "Unknown tool: " ++ name))), t))
  /\ (forall m t',
        callTool env name args t = (inl (ExMcp m), t') ->
        (code m = MethodNotFound
         <-> name <> js "generate_diagram_url" /\ name <> js "download_diagram")
        /\ (code m = MethodNotFound ->
            message m = js "Unknown tool: " ++ name /\ t' = t)).
Proof.
  unfold callTool. split.
  - intros Hg Hd.
    rewrite (jsstring_eqb_false Hg), (jsstring_eqb_false Hd). reflexivity.
  - intros m t'.
    destruct (jsstring_eqb name (js "generate_diagram_url")) eqn:Eg.
    + apply jsstring_eqb_eq in Eg. intros H.
      pose proof (generate_diagram_url_code _ _ _ H) as Hc.
      split; [|intros Hm; contradiction].
      split; [intros Hm; contradiction|intros [Hn _]; contradiction].
    + destruct (jsstring_eqb name (js "download_diagram")) eqn:Ed.
      * apply jsstring_eqb_eq in Ed. intros H.
        pose proof (download_diagram_code _ _ _ H) as Hc.
        split; [|intros Hm; contradiction].
        split; [intros Hm; contradiction|intros [_ Hn]; contradiction].
      * intros H. inversion H; subst. cbn [code message].
        split; [|auto].
        split; [|reflexivity]. intros _.
        split; intros Hn; subst name.
        -- rewrite jsstring_eqb_refl in Eg. discriminate.
        -- rewrite jsstring_eqb_refl in Ed. discriminate.
Qed.

(** *** The token and the address *)

Lemma encodeContent_map env s :
  encodeContent env s
  = map url_safe (toString_base64 (zlib_deflate env (utf8_encode s))).
Proof.
  unfold encodeContent, pako_deflate. rewrite !replace_all_char, map_map.
  apply map_ext. intros c. unfold url_safe.
  destruct (c =? char_plus) eqn:E1; reflexivity.
Qed.

Lemma small_cases (n : N) (x : N) :
  x < n -> In x (map N.of_nat (seq 0 (N.to_nat n))).
Proof.
  intros H. apply in_map_iff. exists (N.to_nat x).
  split; [apply N2Nat.id|]. apply in_seq. lia.
Qed.

Lemma base64_char_ok i : i < 64 -> is_base64_char (base64_char i) = true.
Proof.
  intros H. apply (@small_cases 64) in H.
  revert i H. apply Forall_forall. vm_compute.
  repeat constructor.
Qed.

Lemma byte_bits b :
  N.shiftr (Byte.to_N b) 2 < 64 /\ N.land (Byte.to_N b) 3 < 4
  /\ N.shiftr (Byte.to_N b) 4 < 16 /\ N.land (Byte.to_N b) 15 < 16
  /\ N.shiftr (Byte.to_N b) 6 < 4 /\ N.land (Byte.to_N b) 63 < 64.
Proof. destruct b; vm_compute; auto 10. Qed.

Lemma lor_shift_small a b x y :
  x < 2 ^ a -> y < 2 ^ b -> N.lor (N.shiftl x b) y < 2 ^ (a + b).
Proof.
  intros Hx Hy.
  destruct (N.eq_dec (N.lor (N.shiftl x b) y) 0) as [E|E].
  { rewrite E. apply N.neq_0_lt_0. apply N.pow_nonzero. discriminate. }
  apply N.log2_lt_pow2; [lia|].
  rewrite N.log2_lor.
  apply N.max_lub_lt.
  - destruct (N.eq_dec x 0) as [->|Hx0].
    + rewrite N.shiftl_0_l. cbn. destruct (N.eq_dec (a + b) 0); [|lia].
      exfalso. assert (a = 0) by lia. assert (b = 0) by lia. subst.
      cbn in Hx, Hy. assert (y = 0) by lia. subst. cbn in E. contradiction.
    + rewrite N.log2_shiftl by exact Hx0.
      apply N.log2_lt_pow2 in Hx; lia.
  - destruct (N.eq_dec y 0) as [->|Hy0].
    + cbn. destruct (N.eq_dec (a + b) 0); [|lia].
      exfalso. assert (a = 0) by lia. assert (b = 0) by lia. subst.
      cbn in Hx. assert (x = 0) by lia. subst. cbn in E. contradiction.
    + apply N.log2_lt_pow2 in Hy; lia.
Qed.

Lemma shift_small x b a : x < 2 ^ a -> N.shiftl x b < 2 ^ (a + b).
Proof.
  intros Hx. rewrite <- (N.lor_0_r (N.shiftl x b)).
  apply lor_shift_small; [exact Hx|]. apply N.neq_0_lt_0, N.pow_nonzero. discriminate.
Qed.

(** The base64 text of bytes is made of the alphabet and the padding, and
    has four characters for every three bytes or part of them. *)
Lemma base64_encode_chars bs :
  forallb is_base64_char (base64_encode (map Byte.to_N bs)) = true
  /\ List.length (base64_encode (map Byte.to_N bs))
     = (4 * ((List.length bs + 2) / 3))%nat.
Proof.
  assert (H : forall n bs, (List.length bs <= n)%nat ->
            forallb is_base64_char (base64_encode (map Byte.to_N bs)) = true
            /\ List.length (base64_encode (map Byte.to_N bs))
               = (4 * ((List.length bs + 2) / 3))%nat).
  { clear bs. induction n as [|n IH]; intros bs Hn.
    - destruct bs; [split; reflexivity|cbn in Hn; lia].
    - destruct bs as [|a [|b [|c rest]]].
      + split; reflexivity.
      + destruct (byte_bits a) as (A1 & A2 & _).
        cbn [map base64_encode forallb List.length].
        rewrite (@base64_char_ok _ A1).
        rewrite (@base64_char_ok _ (@shift_small _ 4 2 A2)).
        split; reflexivity.
      + destruct (byte_bits a) as (A1 & A2 & _).
        destruct (byte_bits b) as (_ & _ & B3 & B4 & _).
        cbn [map base64_encode forallb List.length].
        rewrite (@base64_char_ok _ A1).
        rewrite (@base64_char_ok _ (@lor_shift_small 2 4 _ _ A2 B3)).
        rewrite (@base64_char_ok _ (@shift_small _ 2 4 B4)).
        split; reflexivity.
      + destruct (byte_bits a) as (A1 & A2 & _).
        destruct (byte_bits b) as (_ & _ & B3 & B4 & _).
        destruct (byte_bits c) as (_ & _ & _ & _ & C5 & C6).
        cbn [map base64_encode forallb List.length].
        rewrite (@base64_char_ok _ A1).
        rewrite (@base64_char_ok _ (@lor_shift_small 2 4 _ _ A2 B3)).
        rewrite (@base64_char_ok _ (@lor_shift_small 4 2 _ _ B4 C5)).
        rewrite (@base64_char_ok _ C6).
        cbn [List.length] in Hn.
        destruct (IH rest) as (Hc & Hl); [lia|].
        rewrite Hc, Hl. split; [reflexivity|].
        replace (S (S (S (List.length rest))) + 2)%nat
          with ((List.length rest + 2) + 1 * 3)%nat by lia.
        rewrite Nat.div_add by lia. lia. }
  apply (H (List.length bs)). lia.
Qed.

Lemma url_safe_token_char c :
  is_base64_char c = true -> is_token_char (url_safe c) = true.
Proof.
  unfold is_base64_char, is_token_char, url_safe.
  destruct (c =? char_plus) eqn:E1; [intros _; reflexivity|].
  destruct (c =? char_slash) eqn:E2; [intros _; reflexivity|].
  cbn [orb]. rewrite !orb_false_r.
  intros H. apply N.eqb_neq in E1. apply N.eqb_neq in E2.
  unfold char_plus, char_slash, char_minus, char_under, char_eq in *.
  destruct (c =? 61) eqn:E3; [rewrite !orb_true_r; reflexivity|].
  rewrite !orb_false_r in *. rewrite H. reflexivity.
Qed.

Lemma encodeContent_chars env s :
  forallb is_token_char (encodeContent env s) = true.
Proof.
  rewrite encodeContent_map. unfold toString_base64.
  destruct (base64_encode_chars (zlib_deflate env (utf8_encode s))) as (Hc & _).
  rewrite forallb_forall in *. intros c Hin.
  apply in_map_iff in Hin. destruct Hin as (d & <- & Hd).
  apply url_safe_token_char. exact (Hc d Hd).
Qed.

(** X13: the token is made of letters, digits, [-], [_] and [=] only, so
    it can stand in the path of an address as it is, and it has four
    characters for every three bytes of the compressed source, a last
    part of one or two bytes counting as three. *)
Theorem token_is_url_safe env s :
  forallb is_token_char (encodeContent env s) = true
  /\ List.length (encodeContent env s)
     = (4 * ((List.length (zlib_deflate env (utf8_encode s)) + 2) / 3))%nat.
Proof.
  split; [apply encodeContent_chars|].
  rewrite encodeContent_map. unfold toString_base64.
  destruct (base64_encode_chars (zlib_deflate env (utf8_encode s))) as (_ & Hl).
  rewrite length_map. exact Hl.
Qed.

Lemma valid_type_chars ty :
  list_includes validTypes ty = true -> forallb is_name_char ty = true.
Proof.
  unfold list_includes. intros H. apply existsb_exists in H.
  destruct H as (x & Hin & Heq). apply jsstring_eqb_eq in Heq. subst x.
  revert ty Hin. apply Forall_forall. vm_compute. repeat constructor.
Qed.

Lemma valid_format_chars f :
  list_includes validFormats f = true -> forallb is_name_char f = true.
Proof.
  unfold list_includes. intros H. apply existsb_exists in H.
  destruct H as (x & Hin & Heq). apply jsstring_eqb_eq in Heq. subst x.
  revert f Hin. apply Forall_forall. vm_compute. repeat constructor.
Qed.

Lemma forallb_not_in (p : N -> bool) (l : jsstring) (c : N) :
  forallb p l = true -> p c = false -> ~ In c l.
Proof.
  intros H Hc Hin. rewrite forallb_forall in H. rewrite (H c Hin) in Hc.
  discriminate.
Qed.

(** X14: the address fetched for valid options is the base address and
    three segments, the type, the format and the token.  Type and format
    are made of lower-case letters and digits; no segment holds a [/], a
    [?], a [#], a [%], a [+] or a blank, so the address is read back as
    these three segments. *)
Theorem address_has_three_segments env o :
  valid_options o = true ->
  requestUrl env o
  = KROKI_BASE_URL ++ [47] ++ type o ++ [47] ++ formatOf o ++ [47]
      ++ encodeContent env (content o)
  /\ forallb is_name_char (type o) = true
  /\ forallb is_name_char (formatOf o) = true
  /\ forall c, In c (js "/?#%+ ") ->
               ~ In c (type o) /\ ~ In c (formatOf o)
               /\ ~ In c (encodeContent env (content o)).
Proof.
  unfold valid_options. intros H. apply andb_true_iff in H. destruct H as [Ht Hf].
  pose proof (valid_type_chars _ Ht) as Hty.
  pose proof (valid_format_chars _ Hf) as Hfm.
  pose proof (encodeContent_chars env (content o)) as Htk.
  split; [reflexivity|]. split; [exact Hty|]. split; [exact Hfm|].
  intros c Hc.
  assert (Hn : is_name_char c = false /\ is_token_char c = false).
  { revert c Hc. apply Forall_forall. vm_compute. repeat constructor. }
  destruct Hn as [Hn1 Hn2].
  split; [exact (forallb_not_in _ _ _ Hty Hn1)|].
  split; [exact (forallb_not_in _ _ _ Hfm Hn1)|].
  exact (forallb_not_in _ _ _ Htk Hn2).
Qed.

Lemma address_has_three_segments_witness :
  valid_options mermaid_svg = true
  /\ requestUrl (svg_service plain_svg) mermaid_svg
     = KROKI_BASE_URL ++ [47] ++ type mermaid_svg ++ [47] ++ formatOf mermaid_svg
         ++ [47] ++ encodeContent (svg_service plain_svg) (content mermaid_svg).
Proof.
  assert (Hv : valid_options mermaid_svg = true) by (vm_compute; reflexivity).
  split; [exact Hv|].
  exact (proj1 (@address_has_three_segments (svg_service plain_svg) mermaid_svg Hv)).
Defined.

(** *** The first revision *)

Lemma first_generateDiagramUrl_valid env o t :
  valid_options o = true ->
  FirstRevision.generateDiagramUrl env o t = (inr (requestUrl env o), t).
Proof.
  unfold valid_options. intros H. apply andb_true_iff in H. destruct H as [Ht Hf].
  unfold FirstRevision.generateDiagramUrl, bind.
  rewrite (validateDiagramType_ok _ _ Ht).
  fold (formatOf o). rewrite (validateOutputFormat_ok _ _ Hf). reflexivity.
Qed.

Lemma first_generateDiagramUrl_invalid env o t :
  valid_options o = false ->
  exists e, FirstRevision.generateDiagramUrl env o t = (inl (ExMcp e), t)
            /\ code e = InvalidParams.
Proof.
  unfold valid_options. intros H. unfold FirstRevision.generateDiagramUrl, bind.
  destruct (list_includes validTypes (type o)) eqn:Ht.
  - simpl in H. rewrite (validateDiagramType_ok _ _ Ht).
    fold (formatOf o).
    destruct (validateOutputFormat_bad (formatOf o) t H) as (e & -> & Hc).
    eauto.
  - destruct (validateDiagramType_bad (type o) t Ht) as (e & -> & Hc). eauto.
Qed.

(** X15: the first revision builds the link and fetches nothing, whatever
    the options; and whenever the later revision returns a link, after its
    probe, it is the link the first revision returns for the same
    options. *)
Theorem first_revision_link env o t :
  snd (FirstRevision.generateDiagramUrl env o t) = t
  /\ forall url t',
       generateDiagramUrl env o t = (inr url, t') ->
       FirstRevision.generateDiagramUrl env o t = (inr url, t).
Proof.
  destruct (valid_options o) eqn:Hv.
  - rewrite (first_generateDiagramUrl_valid env o t Hv).
    split; [reflexivity|]. intros url t'.
    rewrite (generateDiagramUrl_probe env o t Hv).
    destruct (getDiagramData env _ None t) as [[e|r] t1]; [discriminate|].
    intros H. inversion H. reflexivity.
  - destruct (first_generateDiagramUrl_invalid env o t Hv) as (e & -> & _).
    split; [reflexivity|]. intros url t'.
    destruct (generateDiagramUrl_invalid env o t Hv) as (e' & -> & _).
    discriminate.
Qed.

(** What the download handler of the first revision does with each
    outcome of its steps. *)
Lemma first_download_unfolded env args t :
  FirstRevision.download_diagram env args t
  = match fs_mkdir env (path_dirname env (a_outputPath args)) with
    | Some msg =>
        (inl (ExMcp (mkMcpError InternalError
                (js "Failed to download diagram: "
                   ++ or_else (Some msg) (js "Unknown error")))), t)
    | None =>
        let t0 := t ++ [EvMkdir (path_dirname env (a_outputPath args))] in
        match FirstRevision.generateDiagramUrl env (downloadOptions env args) t0 with
        | (inl e, t1) =>
            (inl (ExMcp (match e with
                         | ExMcp m => m
                         | _ =>
                             mkMcpError InternalError
                               (js "Failed to download diagram: "
                                  ++ or_else (Some (error_message e))
                                       (js "Unknown error"))
                         end)), t1)
        | (inr url, t1) =>
            match http_get env url with
            | HttpResponse st ct body =>
                if validateStatus st then
                  match fs_writeFile env (a_outputPath args) body with
                  | Some msg =>
                      (inl (ExMcp (mkMcpError InternalError
                              (js "Failed to download diagram: "
                                 ++ or_else (Some msg) (js "Unknown error")))),
                       t1 ++ [EvFetch url])
                  | None =>
                      (inr (js "Diagram saved to " ++ a_outputPath args),
                       (t1 ++ [EvFetch url])
                         ++ [EvWriteFile (a_outputPath args) body])
                  end
                else
                  (inl (ExMcp (mkMcpError InternalError
                          (js "Failed to download diagram: "
                             ++ or_else
                                  (Some (js "Request failed with status code "
                                           ++ decimal st))
                                  (js "Unknown error")))),
                   t1 ++ [EvFetch url])
            | HttpFailure msg =>
                (inl (ExMcp (mkMcpError InternalError
                        (js "Failed to download diagram: "
                           ++ or_else (Some msg) (js "Unknown error")))),
                 t1 ++ [EvFetch url])
            end
        end
    end.
Proof.
  unfold FirstRevision.download_diagram, try_catch, bind, fs_call.
  fold (downloadOptions env args).
  destruct (fs_mkdir env (path_dirname env (a_outputPath args))); [reflexivity|].
  unfold emit. cbv zeta.
  destruct (FirstRevision.generateDiagramUrl env (downloadOptions env args)
              (t ++ [EvMkdir (path_dirname env (a_outputPath args))]))
    as [[e|url] t1].
  - destruct e; reflexivity.
  - unfold axios_get, bind, emit.
    destruct (http_get env url) as [st ct body|msg]; [|reflexivity].
    destruct (validateStatus st); [|reflexivity].
    unfold ret. cbn [snd].
    destruct (fs_writeFile env (a_outputPath args) body); reflexivity.
Qed.

(** X16: the download of the first revision makes the directory before
    it validates anything: with options that do not pass validation it
    still makes the directory of the path, then fails with the
    InvalidParams error of the validator, its message unchanged, and
    fetches nothing.  (The later revision validates first: C2.) *)
Theorem first_revision_makes_the_directory_first env args t :
  fs_mkdir env (path_dirname env (a_outputPath args)) = None ->
  valid_options (downloadOptions env args) = false ->
  exists e,
    FirstRevision.download_diagram env args t
    = (inl (ExMcp e), t ++ [EvMkdir (path_dirname env (a_outputPath args))])
    /\ code e = InvalidParams
    /\ FirstRevision.generateDiagramUrl env (downloadOptions env args) t
       = (inl (ExMcp e), t).
Proof.
  intros Hm Hv. rewrite first_download_unfolded, Hm. cbv zeta.
  destruct (first_generateDiagramUrl_invalid env _
              (t ++ [EvMkdir (path_dirname env (a_outputPath args))]) Hv)
    as (e & He & Hc).
  rewrite He. exists e. split; [reflexivity|]. split; [exact Hc|].
  destruct (first_generateDiagramUrl_invalid env _ t Hv) as (e' & He' & _).
  rewrite He'. f_equal. f_equal.
  unfold FirstRevision.generateDiagramUrl, bind, validateDiagramType,
    validateOutputFormat, throw, ret in He, He'.
  destruct (negb (list_includes validTypes (type (downloadOptions env args)))).
  - inversion He. inversion He'. congruence.
  - destruct (negb (list_includes validFormats
                      (or_else (outputFormat (downloadOptions env args)) (js "svg")))).
    + inversion He. inversion He'. congruence.
    + discriminate.
Qed.

Lemma first_revision_makes_the_directory_first_witness :
  fs_mkdir (svg_service plain_svg)
    (path_dirname (svg_service plain_svg) (a_outputPath gif_arguments)) = None
  /\ valid_options (downloadOptions (svg_service plain_svg) gif_arguments) = false
  /\ exists e,
       FirstRevision.download_diagram (svg_service plain_svg) gif_arguments []
       = (inl (ExMcp e),
          [] ++ [EvMkdir (path_dirname (svg_service plain_svg)
                            (a_outputPath gif_arguments))])
       /\ code e = InvalidParams
       /\ FirstRevision.generateDiagramUrl (svg_service plain_svg)
            (downloadOptions (svg_service plain_svg) gif_arguments) []
          = (inl (ExMcp e), []).
Proof.
  assert (Hv : valid_options (downloadOptions (svg_service plain_svg) gif_arguments)
               = false) by (vm_compute; reflexivity).
  split; [reflexivity|]. split; [exact Hv|].
  exact (@first_revision_makes_the_directory_first (svg_service plain_svg)
           gif_arguments [] eq_refl Hv).
Defined.

(** X17: the download of the first revision writes the body of every
    2xx response to the file as it is: the body is not classified, so an
    HTML error page or an SVG that holds an error text is saved as the
    diagram.  The effects are: make the directory, fetch, write. *)
Theorem first_revision_writes_any_body env args t st ct body :
  valid_options (downloadOptions env args) = true ->
  fs_mkdir env (path_dirname env (a_outputPath args)) = None ->
  http_get env (requestUrl env (downloadOptions env args))
  = HttpResponse st ct body ->
  (200 <= st < 300)%N ->
  fs_writeFile env (a_outputPath args) body = None ->
  FirstRevision.download_diagram env args t
  = (inr (js "Diagram saved to " ++ a_outputPath args),
     t ++ [EvMkdir (path_dirname env (a_outputPath args));
           EvFetch (requestUrl env (downloadOptions env args));
           EvWriteFile (a_outputPath args) body]).
Proof.
  intros Hv Hm Hget Hst Hw. rewrite first_download_unfolded, Hm. cbv zeta.
  rewrite (first_generateDiagramUrl_valid env _ _ Hv), Hget.
  apply validateStatus_true in Hst. rewrite Hst, Hw.
  rewrite <- !app_assoc. reflexivity.
Qed.

(** The HTML error page is saved, where the later revision throws. *)
Lemma first_revision_writes_any_body_witness :
  valid_options (downloadOptions html_service (download_arguments num_one)) = true
  /\ FirstRevision.download_diagram html_service (download_arguments num_one) []
     = (inr (js "Diagram saved to " ++ a_outputPath (download_arguments num_one)),
        [] ++ [EvMkdir (path_dirname html_service
                          (a_outputPath (download_arguments num_one)));
               EvFetch (requestUrl html_service
                          (downloadOptions html_service (download_arguments num_one)));
               EvWriteFile (a_outputPath (download_arguments num_one))
                 html_error_page])
  /\ exists e,
       download_diagram html_service (download_arguments num_one) []
       = (inl (ExMcp e),
          [EvFetch (requestUrl html_service
                      (downloadOptions html_service (download_arguments num_one)))])
       /\ code e = InvalidParams.
Proof.
  assert (Hv : valid_options (downloadOptions html_service (download_arguments num_one))
               = true) by (vm_compute; reflexivity).
  split; [exact Hv|].
  split.
  - exact (@first_revision_writes_any_body html_service (download_arguments num_one)
             [] 200 (Some (js "text/html")) html_error_page Hv eq_refl eq_refl
             status_200 eq_refl).
  - eexists. split; [vm_compute; reflexivity|reflexivity].
Defined.

(** X18: in the first revision every failure of the transport is an
    InternalError, status 400 like any other status outside [200,300)
    and like no response at all; the directory has been made by then, the
    request was sent, and no file is written. *)
Theorem first_revision_transport_failure env args t :
  valid_options (downloadOptions env args) = true ->
  fs_mkdir env (path_dirname env (a_outputPath args)) = None ->
  match http_get env (requestUrl env (downloadOptions env args)) with
  | HttpResponse st _ _ => validateStatus st = false
  | HttpFailure _ => True
  end ->
  exists e,
    FirstRevision.download_diagram env args t
    = (inl (ExMcp e),
       t ++ [EvMkdir (path_dirname env (a_outputPath args));
             EvFetch (requestUrl env (downloadOptions env args))])
    /\ code e = InternalError.
Proof.
  intros Hv Hm Hget. rewrite first_download_unfolded, Hm. cbv zeta.
  rewrite (first_generateDiagramUrl_valid env _ _ Hv).
  destruct (http_get env (requestUrl env (downloadOptions env args)))
    as [st ct body|msg].
  - rewrite Hget. eexists. rewrite <- !app_assoc. split; reflexivity.
  - eexists. rewrite <- !app_assoc. split; reflexivity.
Qed.

(** Status 400: InternalError here, InvalidParams in the later revision. *)
Lemma first_revision_transport_failure_witness :
  valid_options (downloadOptions bad_request_service (download_arguments num_one))
  = true
  /\ (exists e,
        FirstRevision.download_diagram bad_request_service
          (download_arguments num_one) []
        = (inl (ExMcp e),
           [] ++ [EvMkdir (path_dirname bad_request_service
                             (a_outputPath (download_arguments num_one)));
                  EvFetch (requestUrl bad_request_service
                             (downloadOptions bad_request_service
                                (download_arguments num_one)))])
        /\ code e = InternalError)
  /\ exists e,
       download_diagram bad_request_service (download_arguments num_one) []
       = (inl (ExMcp e),
          [EvFetch (requestUrl bad_request_service
                      (downloadOptions bad_request_service
                         (download_arguments num_one)))])
       /\ code e = InvalidParams.
Proof.
  assert (Hv : valid_options (downloadOptions bad_request_service
                                (download_arguments num_one)) = true)
    by (vm_compute; reflexivity).
  split; [exact Hv|].
  split.
  - apply (@first_revision_transport_failure bad_request_service
             (download_arguments num_one) [] Hv eq_refl).
    vm_compute. reflexivity.
  - eexists. split; [vm_compute; reflexivity|reflexivity].
Defined.

(** *** Scaling *)

Lemma map_canonicalize_false l : map (canonicalize false) l = l.
Proof. induction l as [|c l IH]; [reflexivity|]. cbn. rewrite IH. reflexivity. Qed.

Lemma Matches_rlit_exact l s cs cs' :
  Matches false (rlit l) s cs cs' -> s = l /\ cs' = cs.
Proof.
  intros H. apply Matches_rlit_elim in H. destruct H as [-> H].
  rewrite !map_canonicalize_false in H. auto.
Qed.

Lemma startsWith_prefix (p s : jsstring) : startsWith (p ++ s) p = true.
Proof.
  induction p as [|a p IH]; [reflexivity|].
  cbn [app startsWith]. rewrite N.eqb_refl. exact IH.
Qed.

Lemma includes_part (pre l post : jsstring) : includes (pre ++ l ++ post) l = true.
Proof.
  induction pre as [|c pre IH].
  - cbn [app]. destruct (l ++ post) eqn:E; cbn [includes];
      rewrite <- E, startsWith_prefix; reflexivity.
  - cbn [app includes]. rewrite IH. apply orb_true_r.
Qed.

(** What the match of the pattern of the svg tag holds. *)
Lemma svg_tag_match s m :
  regex_exec false svgTagRegex s = Some m ->
  exists attrs,
    s = m_before m ++ js "<svg" ++ attrs ++ [62] ++ m_after m
    /\ forallb (fun c => negb (c =? 62)) attrs = true
    /\ m_text m = js "<svg" ++ attrs ++ [62]
    /\ group1 m = attrs.
Proof.
  intros H. apply regex_exec_some in H. destruct H as (Hs & HM).
  unfold svgTagRegex in HM. cbn [seqs] in HM.
  apply Matches_Seq_inv in HM. destruct HM as (x & r1 & c1 & Hx & Hlit & HM).
  apply Matches_Seq_inv in HM. destruct HM as (attrs & g & c2 & -> & Hg & Hc).
  apply Matches_rlit_exact in Hlit. destruct Hlit as [-> ->].
  apply Matches_Group_inv in Hg. destruct Hg as (c3 & Hstar & ->).
  apply Matches_Star_inv in Hstar. destruct Hstar as [-> Hall].
  apply Matches_Chr_inv in Hc. destruct Hc as (c & -> & Hcs & Hc).
  cbn [cmatch] in Hc. apply N.eqb_eq in Hc. cbn in Hc. subst c.
  exists attrs. rewrite Hs, Hx, <- !app_assoc.
  split; [reflexivity|]. split; [exact Hall|]. split; [reflexivity|].
  unfold group1, group. rewrite Hcs. cbn. reflexivity.
Qed.

(** X19: scaling rewrites nothing outside the attributes of one svg tag:
    either the text is unchanged, or it is [before <svg attrs > after]
    with no [>] in [attrs], and the result is [before <svg attrs' > after]
    with the same [before] and [after].  A text without [<svg] is
    unchanged. *)
Theorem scaling_keeps_the_rest scale s :
  (scaleSvg scale s = s
   \/ exists before attrs attrs' after,
        s = before ++ js "<svg" ++ attrs ++ [62] ++ after
        /\ forallb (fun c => negb (c =? 62)) attrs = true
        /\ scaleSvg scale s = before ++ js "<svg" ++ attrs' ++ [62] ++ after)
  /\ (includes s (js "<svg") = false -> scaleSvg scale s = s).
Proof.
  unfold scaleSvg, replace_first_fn.
  destruct (regex_exec false svgTagRegex s) as [m|] eqn:Hm; [|auto].
  destruct (svg_tag_match _ Hm) as (attrs & Hs & Hall & Ht & Hg).
  split.
  - right. exists (m_before m), attrs,
      (scaleAttribute (js "height") scale
         (regex_exec false (attrRegex (js "height")) attrs)
         (scaleAttribute (js "width") scale
            (regex_exec false (attrRegex (js "width")) attrs) attrs)),
      (m_after m).
    split; [exact Hs|]. split; [exact Hall|].
    unfold scaleSvgTag. rewrite Hg. rewrite <- !app_assoc. reflexivity.
  - intros Hinc. exfalso. rewrite Hs in Hinc.
    rewrite (includes_part (m_before m) (js "<svg") (attrs ++ [62] ++ m_after m))
      in Hinc. discriminate.
Qed.

Lemma attr_match_includes name attrs m :
  regex_exec false (attrRegex name) attrs = Some m ->
  exists pre post, attrs = pre ++ (name ++ js "=" ++ dq) ++ post.
Proof.
  intros H. apply regex_exec_some in H. destruct H as (Hs & HM).
  unfold attrRegex in HM. cbn [seqs] in HM.
  apply Matches_Seq_inv in HM. destruct HM as (x & r1 & c1 & Hx & Hlit & _).
  apply Matches_rlit_exact in Hlit. destruct Hlit as [-> _].
  exists (m_before m), (r1 ++ m_after m).
  rewrite Hs, Hx, <- !app_assoc. reflexivity.
Qed.

(** X20: a text that holds neither [width="] nor [height="] is not
    changed by scaling, whatever the scale: no dimension is added to an
    svg tag that declares none. *)
Theorem no_dimensions_no_change scale s :
  includes s (js "width=" ++ dq) = false ->
  includes s (js "height=" ++ dq) = false ->
  scaleSvg scale s = s.
Proof.
  intros Hw Hh. unfold scaleSvg, replace_first_fn.
  destruct (regex_exec false svgTagRegex s) as [m|] eqn:Hm; [|reflexivity].
  destruct (svg_tag_match _ Hm) as (attrs & Hs & Hall & Ht & Hg).
  unfold scaleSvgTag. rewrite Hg.
  destruct (regex_exec false (attrRegex (js "width")) attrs) as [w|] eqn:Ew.
  { exfalso. destruct (attr_match_includes _ _ Ew) as (pre & post & Ha).
    rewrite Hs, Ha in Hw.
    replace (m_before m ++ js "<svg"
               ++ (pre ++ (js "width" ++ js "=" ++ dq) ++ post) ++ [62] ++ m_after m)
      with ((m_before m ++ js "<svg" ++ pre) ++ (js "width=" ++ dq)
              ++ (post ++ [62] ++ m_after m)) in Hw
      by (rewrite <- !app_assoc; reflexivity).
    rewrite includes_part in Hw. discriminate. }
  destruct (regex_exec false (attrRegex (js "height")) attrs) as [h|] eqn:Eh.
  { exfalso. destruct (attr_match_includes _ _ Eh) as (pre & post & Ha).
    rewrite Hs, Ha in Hh.
    replace (m_before m ++ js "<svg"
               ++ (pre ++ (js "height" ++ js "=" ++ dq) ++ post) ++ [62] ++ m_after m)
      with ((m_before m ++ js "<svg" ++ pre) ++ (js "height=" ++ dq)
              ++ (post ++ [62] ++ m_after m)) in Hh
      by (rewrite <- !app_assoc; reflexivity).
    rewrite includes_part in Hh. discriminate. }
  cbn [scaleAttribute]. symmetry. rewrite Hs at 1. rewrite <- !app_assoc. reflexivity.
Qed.

(** An svg with a viewBox only. *)
Lemma no_dimensions_no_change_witness :
  includes viewbox_svg (js "width=" ++ dq) = false
  /\ includes viewbox_svg (js "height=" ++ dq) = false
  /\ scaleSvg num_two viewbox_svg = viewbox_svg.
Proof.
  assert (Hw : includes viewbox_svg (js "width=" ++ dq) = false)
    by (vm_compute; reflexivity).
  assert (Hh : includes viewbox_svg (js "height=" ++ dq) = false)
    by (vm_compute; reflexivity).
  split; [exact Hw|]. split; [exact Hh|].
  exact (@no_dimensions_no_change num_two viewbox_svg Hw Hh).
Defined.

(** *** The decoding of the entities *)

Lemma replace_all_no_match icase r t s :
  regex_exec icase r s = None -> replace_all icase r t s = s.
Proof. intros H. unfold replace_all. cbn [replace_all_fuel]. rewrite H. reflexivity. Qed.

Lemma rlit_absent c l s :
  ~ In c s -> regex_exec false (rlit (c :: l)) s = None.
Proof.
  intros Hc. destruct (regex_exec false (rlit (c :: l)) s) as [m|] eqn:E;
    [|reflexivity].
  exfalso. apply regex_exec_some in E. destruct E as (Hs & HM).
  apply Matches_rlit_exact in HM. destruct HM as [Ht _].
  apply Hc. rewrite Hs, Ht. apply in_or_app. right. left. reflexivity.
Qed.

(** X21: a message without [&] and without [<] comes out of the decoding
    as it went in. *)
Theorem plain_message_is_unchanged s :
  ~ In 38 s -> ~ In 60 s -> decodeErrorMessage s = s.
Proof.
  intros Hamp Hlt. unfold decodeErrorMessage.
  change (js "&lt;") with (38 :: js "lt;").
  change (js "&gt;") with (38 :: js "gt;").
  change (js "&amp;") with (38 :: js "amp;").
  change (js "<br/>") with (60 :: js "br/>").
  rewrite (@replace_all_no_match false _ (js "<") s (@rlit_absent 38 _ s Hamp)).
  rewrite (@replace_all_no_match false _ (js ">") s (@rlit_absent 38 _ s Hamp)).
  rewrite (@replace_all_no_match false _ (js "&") s (@rlit_absent 38 _ s Hamp)).
  rewrite (@replace_all_no_match false _ nl s (@rlit_absent 60 _ s Hlt)).
  reflexivity.
Qed.

Lemma plain_message_is_unchanged_witness :
  ~ In 38 (js "bad syntax") /\ ~ In 60 (js "bad syntax")
  /\ decodeErrorMessage (js "bad syntax") = js "bad syntax".
Proof.
  assert (Ha : ~ In 38 (js "bad syntax")).
  { vm_compute. intros H. repeat (destruct H as [H|H]; [discriminate|]). exact H. }
  assert (Hl : ~ In 60 (js "bad syntax")).
  { vm_compute. intros H. repeat (destruct H as [H|H]; [discriminate|]). exact H. }
  split; [exact Ha|]. split; [exact Hl|].
  exact (@plain_message_is_unchanged (js "bad syntax") Ha Hl).
Defined.

(** *** The plain text of an HTML body *)

(** Induction over the matches that a global replace goes through, for a
    pattern that matches no empty text. *)
Lemma replace_all_ind icase r t (P : jsstring -> jsstring -> Prop) :
  (forall s m, regex_exec icase r s = Some m -> m_text m <> []) ->
  (forall s, regex_exec icase r s = None -> P s s) ->
  (forall s m out,
     regex_exec icase r s = Some m -> P (m_after m) out ->
     P s (m_before m ++ t ++ out)) ->
  forall s, P s (replace_all icase r t s).
Proof.
  intros Hne Hnone Hsome s. unfold replace_all.
  assert (H : forall fuel s, (List.length s < fuel)%nat ->
                             P s (replace_all_fuel fuel icase r t s)).
  { clear s. induction fuel as [|fuel IH]; intros s Hlen; [lia|].
    cbn [replace_all_fuel].
    destruct (regex_exec icase r s) as [m|] eqn:E; [|apply Hnone; exact E].
    pose proof (Hne _ _ E) as Hm.
    pose proof (regex_exec_some _ _ _ E) as (Hs & _).
    destruct (m_text m) as [|c x] eqn:Et; [contradiction|].
    apply Hsome; [exact E|]. apply IH.
    rewrite Hs, !length_app in Hlen. cbn [List.length] in Hlen. lia. }
  apply H. lia.
Qed.

Lemma star_greedy_total (A : Type) icase cl s (k : jsstring -> option A) :
  (forall x, k x <> None) -> star_greedy icase cl s k <> None.
Proof.
  intros Hk. induction s as [|c s IH]; cbn [star_greedy]; [apply Hk|].
  destruct (cmatch icase cl c); [|apply Hk].
  destruct (star_greedy icase cl s k); [discriminate|contradiction].
Qed.

(** A greedy star whose continuation always succeeds takes the whole
    run. *)
Lemma star_greedy_longest (A : Type) icase cl s (k : jsstring -> option A) a :
  (forall x, k x <> None) ->
  star_greedy icase cl s k = Some a ->
  exists s1 s2,
    s = s1 ++ s2 /\ forallb (cmatch icase cl) s1 = true /\ k s2 = Some a
    /\ match s2 with
       | c :: _ => cmatch icase cl c = false
       | [] => True
       end.
Proof.
  intros Hk. induction s as [|c s IH]; cbn [star_greedy]; intros H.
  - exists [], []. auto.
  - destruct (cmatch icase cl c) eqn:Hc.
    + destruct (star_greedy icase cl s k) as [a'|] eqn:E.
      * inversion H; subst a'. destruct (IH eq_refl) as (s1 & s2 & -> & Hall & Hk2 & Hend).
        exists (c :: s1), s2. cbn [forallb app]. rewrite Hc, Hall. auto.
      * exfalso. exact (star_greedy_total icase cl s k Hk E).
    + exists [], (c :: s). cbn [app forallb]. rewrite Hc. auto.
Qed.

(** The match of [\s+]: a run of white space that begins at the first
    white space character of the text and ends where the run ends. *)
Lemma spaces_match s m :
  regex_exec false spacesRegex s = Some m ->
  s = m_before m ++ m_text m ++ m_after m
  /\ m_text m <> []
  /\ forallb (fun c => negb (is_js_space c)) (m_before m) = true
  /\ starts_clean (m_after m).
Proof.
  intros H. pose proof (regex_exec_some _ _ _ H) as (Hs & HM).
  split; [exact Hs|].
  assert (Hne : m_text m <> []).
  { unfold spacesRegex, Plus in HM. apply Matches_Seq_inv in HM.
    destruct HM as (x & y & c1 & -> & Hx & _).
    apply Matches_Chr_inv in Hx. destruct Hx as (c & -> & _). discriminate. }
  split; [exact Hne|]. split.
  - apply forallb_forall. intros c Hin.
    destruct (is_js_space c) eqn:Hc; [|reflexivity]. exfalso.
    apply in_split in Hin. destruct Hin as (p & q & Hpq).
    assert (HMc : Matches false spacesRegex ([c] ++ []) [] []).
    { unfold spacesRegex, Plus. apply M_Seq with (cs1 := []);
        constructor; [exact Hc|reflexivity]. }
    unfold regex_exec in H.
    pose proof (@exec_from_leftmost false spacesRegex s [] m H p ([c] ++ [])
                  (q ++ m_text m ++ m_after m) []) as Hle.
    rewrite Hs, Hpq in Hle at 1. rewrite <- !app_assoc in Hle.
    specialize (Hle eq_refl HMc).
    rewrite Hpq, length_app in Hle. cbn [List.length] in Hle. lia.
  - unfold regex_exec in H. apply exec_from_at in H.
    destruct H as (pre & rest & Hsplit & Hat).
    unfold match_at, spacesRegex, Plus in Hat. cbn [rmatch] in Hat.
    destruct rest as [|c rest]; [discriminate|].
    destruct (cmatch false CSpace c); [|discriminate].
    apply star_greedy_longest in Hat; [|discriminate].
    destruct Hat as (s1 & s2 & _ & _ & Hk & Hend).
    inversion Hk; subst m. cbn [m_after]. unfold starts_clean.
    destruct s2; [exact I|exact Hend].
Qed.

Lemma spaces_no_match s :
  regex_exec false spacesRegex s = None ->
  forallb (fun c => negb (is_js_space c)) s = true.
Proof.
  intros H. apply forallb_forall. intros c Hin.
  destruct (is_js_space c) eqn:Hc; [|reflexivity]. exfalso.
  apply in_split in Hin. destruct Hin as (p & q & ->).
  apply (@exec_from_none false spacesRegex _ [] H p ([c] ++ []) q []).
  - rewrite <- app_assoc. reflexivity.
  - unfold spacesRegex, Plus. apply M_Seq with (cs1 := []);
      constructor; [exact Hc|reflexivity].
Qed.

Lemma single_spaced_clean s :
  forallb (fun c => negb (is_js_space c)) s = true -> single_spaced s.
Proof.
  intros H pre c post -> Hc. rewrite forallb_forall in H.
  assert (Hin : In c (pre ++ c :: post)) by (apply in_or_app; right; left; reflexivity).
  apply H in Hin. rewrite Hc in Hin. discriminate.
Qed.

Lemma single_spaced_cons d x :
  is_js_space d = false -> single_spaced x -> single_spaced (d :: x).
Proof.
  intros Hd Hx pre c post Heq Hc.
  destruct pre as [|e pre]; cbn [app] in Heq; inversion Heq; subst.
  - rewrite Hc in Hd. discriminate.
  - apply (Hx pre c post eq_refl Hc).
Qed.

Lemma single_spaced_blank x :
  starts_clean x -> single_spaced x -> single_spaced (32 :: x).
Proof.
  intros Hs Hx pre c post Heq Hc.
  destruct pre as [|e pre]; cbn [app] in Heq; inversion Heq; subst.
  - split; [reflexivity|]. exact Hs.
  - apply (Hx pre c post eq_refl Hc).
Qed.

Lemma single_spaced_app b x :
  forallb (fun c => negb (is_js_space c)) b = true ->
  single_spaced x -> single_spaced (b ++ x).
Proof.
  induction b as [|d b IH]; intros Hb Hx; [exact Hx|].
  cbn [forallb] in Hb. apply andb_true_iff in Hb. destruct Hb as [Hd Hb].
  apply negb_true_iff in Hd. cbn [app].
  apply single_spaced_cons; [exact Hd|]. apply IH; assumption.
Qed.

(** The white space of a text after [.replace(/\s+/g, ' ')]. *)
Lemma collapse_single_spaced s :
  single_spaced (replace_all false spacesRegex (js " ") s)
  /\ (starts_clean s -> starts_clean (replace_all false spacesRegex (js " ") s)).
Proof.
  apply (replace_all_ind false spacesRegex (js " ")
           (fun s out => single_spaced out /\ (starts_clean s -> starts_clean out))).
  - intros s0 m H. exact (proj1 (proj2 (spaces_match _ H))).
  - intros s0 H. split; [|auto]. apply single_spaced_clean, spaces_no_match, H.
  - intros s0 m out H [Hout Hclean].
    destruct (spaces_match _ H) as (Hs & Hne & Hb & Ha).
    change (js " ") with [32]. cbn [app]. split.
    + apply single_spaced_app; [exact Hb|].
      apply single_spaced_blank; [exact (Hclean Ha)|exact Hout].
    + intros Hs0. destruct (m_before m) as [|d b] eqn:Eb.
      * exfalso. rewrite Hs in Hs0. cbn [app] in Hs0.
        destruct (m_text m) as [|c x] eqn:Et; [contradiction|].
        pose proof (regex_exec_some _ _ _ H) as (_ & HM). rewrite Et in HM.
        unfold spacesRegex, Plus in HM. apply Matches_Seq_inv in HM.
        destruct HM as (x1 & y1 & c1 & Hx & Hx1 & _).
        apply Matches_Chr_inv in Hx1. destruct Hx1 as (c' & -> & _ & Hc').
        cbn [app] in Hx. inversion Hx; subst c'. cbn [cmatch] in Hc'.
        cbn [app starts_clean] in Hs0. rewrite Hc' in Hs0. discriminate.
      * cbn [forallb] in Hb. apply andb_true_iff in Hb. destruct Hb as [Hd _].
        apply negb_true_iff in Hd. exact Hd.
Qed.

Lemma tag_match_intro y :
  y <> [] -> forallb (fun c => negb (c =? 62)) y = true ->
  Matches false tagRegex ([60] ++ y ++ [62]) [] [].
Proof.
  intros Hne Hy. destruct y as [|d y]; [contradiction|].
  cbn [forallb] in Hy. apply andb_true_iff in Hy. destruct Hy as [Hd Hy].
  unfold tagRegex, Plus. cbn [seqs].
  apply M_Seq with (cs1 := []); [constructor; reflexivity|].
  apply M_Seq with (cs1 := []); [|constructor; reflexivity].
  change (d :: y) with ([d] ++ y).
  apply M_Seq with (cs1 := []); constructor; [exact Hd|].
  rewrite forallb_forall in Hy |- *. intros c Hc. exact (Hy c Hc).
Qed.

Lemma tag_match_elim x cs cs' :
  Matches false tagRegex x cs cs' ->
  exists y, x = [60] ++ y ++ [62] /\ y <> []
            /\ forallb (fun c => negb (c =? 62)) y = true.
Proof.
  unfold tagRegex, Plus. cbn [seqs]. intros H.
  apply Matches_Seq_inv in H. destruct H as (s1 & s2 & c1 & -> & H1 & H2).
  apply Matches_Chr_inv in H1. destruct H1 as (a & -> & _ & Ha).
  apply Matches_Seq_inv in H2. destruct H2 as (s3 & s4 & c2 & -> & H3 & H4).
  apply Matches_Chr_inv in H4. destruct H4 as (b & -> & _ & Hb).
  apply Matches_Seq_inv in H3. destruct H3 as (s5 & s6 & c3 & -> & H5 & H6).
  apply Matches_Chr_inv in H5. destruct H5 as (d & -> & _ & Hd).
  apply Matches_Star_inv in H6. destruct H6 as (_ & H6).
  cbn in Ha, Hb. apply N.eqb_eq in Ha, Hb. subst a b.
  exists ([d] ++ s6). split; [reflexivity|]. split; [discriminate|].
  cbn [app forallb]. apply andb_true_iff. split; [exact Hd|].
  rewrite forallb_forall in H6 |- *. intros c Hc. exact (H6 c Hc).
Qed.

Lemma tag_no_match s : regex_exec false tagRegex s = None -> ~ has_tag s.
Proof.
  intros H (pre & x & post & Hs & Hne & Hx).
  apply (@exec_from_none false tagRegex _ [] H pre ([60] ++ x ++ [62]) post []).
  - rewrite Hs, <- !app_assoc. reflexivity.
  - apply tag_match_intro; assumption.
Qed.

(** The match of the tag pattern is the first tag of the text. *)
Lemma tag_match s m :
  regex_exec false tagRegex s = Some m ->
  exists y,
    s = m_before m ++ [60] ++ y ++ [62] ++ m_after m
    /\ forallb (fun c => negb (c =? 62)) y = true
    /\ m_text m <> []
    /\ forall pre x post,
         s = pre ++ [60] ++ x ++ [62] ++ post -> x <> [] ->
         forallb (fun c => negb (c =? 62)) x = true ->
         (List.length (m_before m) <= List.length pre)%nat.
Proof.
  intros H. pose proof (regex_exec_some _ _ _ H) as (Hs & HM).
  apply tag_match_elim in HM. destruct HM as (y & Ht & Hne & Hy).
  exists y. split; [rewrite Hs at 1; rewrite Ht, <- !app_assoc; reflexivity|].
  split; [exact Hy|]. split; [rewrite Ht; discriminate|].
  intros pre x post Hx Hxne Hx62. unfold regex_exec in H.
  apply (@exec_from_leftmost false tagRegex s [] m H pre ([60] ++ x ++ [62]) post []).
  - rewrite Hx, <- !app_assoc. reflexivity.
  - apply tag_match_intro; assumption.
Qed.

Lemma has_tag_part a x b : has_tag x -> has_tag (a ++ x ++ b).
Proof.
  intros (pre & y & post & -> & Hne & Hy).
  exists (a ++ pre), y, (post ++ b). rewrite <- !app_assoc. auto.
Qed.

(** Where a tag of a text with a blank in it lies: before the blank,
    after it, or around it. *)
Lemma has_tag_split b o :
  has_tag (b ++ 32 :: o) ->
  has_tag b \/ has_tag o
  \/ exists pre b2 x2 post,
       b = pre ++ 60 :: b2 /\ o = x2 ++ 62 :: post
       /\ forallb (fun c => negb (c =? 62)) b2 = true
       /\ forallb (fun c => negb (c =? 62)) x2 = true.
Proof.
  intros (pre & x & post & Hs & Hne & Hx). cbn [app] in Hs.
  apply app_eq_app in Hs. destruct Hs as (l & [[Hb Hl]|[Hp Hl]]).
  - destruct l as [|c l]; cbn [app] in Hl; [discriminate|].
    inversion Hl as [[Hc Hl']]. subst c.
    apply app_eq_app in Hl'. destruct Hl' as (l2 & [[Hx2 Hl2]|[Hb2 Hl2]]).
    + right. right. subst x. rewrite forallb_app in Hx.
      apply andb_true_iff in Hx. destruct Hx as [Hl' Hl2'].
      destruct l2 as [|c l2]; cbn [app] in Hl2; [discriminate|].
      inversion Hl2 as [[Hc Ho]]. subst c.
      cbn [forallb] in Hl2'. apply andb_true_iff in Hl2'.
      exists pre, l, l2, post.
      subst b o. tauto.
    + left. destruct l2 as [|c l2]; cbn [app] in Hl2; [discriminate|].
      inversion Hl2 as [[Hc Ho]]. subst c.
      exists pre, x, l2. rewrite Hb, Hb2. auto.
  - right. left. destruct l as [|c l]; cbn [app] in Hl; [discriminate|].
    inversion Hl as [[Hc Ho]]. subst c.
    exists l, x, post. auto.
Qed.

(** No tag is left after [.replace(/<[^>]+>/g, ' ')]. *)
Lemma strip_leaves_no_tag s : ~ has_tag (replace_all false tagRegex (js " ") s).
Proof.
  apply (replace_all_ind false tagRegex (js " ") (fun _ out => ~ has_tag out)).
  - intros s0 m H. destruct (tag_match _ H) as (y & _ & _ & Hne & _). exact Hne.
  - intros s0 H. apply tag_no_match, H.
  - intros s0 m out H Hout.
    destruct (tag_match _ H) as (y & Hs & Hy & _ & Hleft).
    change (js " ") with [32]. cbn [app]. intros Ht.
    apply has_tag_split in Ht.
    destruct Ht as [Hb|[Ho|(pre & b2 & x2 & post & Hb & _ & Hb2 & _)]].
    + destruct Hb as (pre & x & post & Hb & Hne & Hx).
      specialize (Hleft pre x (post ++ [60] ++ y ++ [62] ++ m_after m)).
      rewrite Hs, Hb, <- !app_assoc in Hleft.
      specialize (Hleft eq_refl Hne Hx).
      rewrite !length_app in Hleft. cbn [List.length] in Hleft. lia.
    + contradiction.
    + specialize (Hleft pre (b2 ++ [60] ++ y) (m_after m)).
      rewrite Hs, Hb in Hleft. cbn [app] in Hleft.
      rewrite <- !app_assoc in Hleft. cbn [app] in Hleft.
      assert (Hne : b2 ++ 60 :: y <> []) by (destruct b2; discriminate).
      assert (Hx : forallb (fun c => negb (c =? 62)) (b2 ++ 60 :: y) = true).
      { rewrite forallb_app, Hb2. cbn [forallb]. rewrite Hy. reflexivity. }
      specialize (Hleft eq_refl Hne Hx).
      rewrite !length_app in Hleft. cbn [List.length] in Hleft. lia.
Qed.

Lemma first_split (c : N) l :
  In c l ->
  exists a1 a2, l = a1 ++ c :: a2 /\ forallb (fun d => negb (d =? c)) a1 = true.
Proof.
  induction l as [|d l IH]; intros Hin; [contradiction|].
  destruct (d =? c) eqn:E.
  - apply N.eqb_eq in E. subst d. exists [], l. auto.
  - destruct Hin as [->|Hin]; [rewrite N.eqb_refl in E; discriminate|].
    destruct (IH Hin) as (a1 & a2 & -> & Ha).
    exists (d :: a1), a2. cbn [forallb app]. rewrite E, Ha. auto.
Qed.

Lemma spaces_are_no_bracket x :
  forallb is_js_space x = true -> forallb (fun c => negb (c =? 62)) x = true.
Proof.
  intros H. rewrite forallb_forall in H |- *. intros c Hc.
  destruct (c =? 62) eqn:E; [|reflexivity].
  apply N.eqb_eq in E. subst c. apply H in Hc. vm_compute in Hc. discriminate.
Qed.

(** [.replace(/\s+/g, ' ')] makes no tag. *)
Lemma collapse_makes_no_tag s :
  (~ has_tag s -> ~ has_tag (replace_all false spacesRegex (js " ") s))
  /\ (In 62 (replace_all false spacesRegex (js " ") s) -> In 62 s).
Proof.
  apply (replace_all_ind false spacesRegex (js " ")
           (fun s out => (~ has_tag s -> ~ has_tag out) /\ (In 62 out -> In 62 s))).
  - intros s0 m H. exact (proj1 (proj2 (spaces_match _ H))).
  - intros s0 H. auto.
  - intros s0 m out H [IHtag IHin].
    destruct (spaces_match _ H) as (Hs & Hne & _ & _).
    pose proof (regex_exec_some _ _ _ H) as (_ & HM).
    assert (Hws : forallb is_js_space (m_text m) = true).
    { unfold spacesRegex, Plus in HM. apply Matches_Seq_inv in HM.
      destruct HM as (x1 & y1 & c1 & -> & Hx1 & Hy1).
      apply Matches_Chr_inv in Hx1. destruct Hx1 as (c & -> & _ & Hc).
      apply Matches_Star_inv in Hy1. destruct Hy1 as (_ & Hy1).
      cbn [app forallb]. cbn [cmatch] in Hc. rewrite Hc. cbn [andb].
      rewrite forallb_forall in Hy1 |- *. intros d Hd. exact (Hy1 d Hd). }
    change (js " ") with [32]. cbn [app].
    assert (Hin : In 62 (m_before m ++ 32 :: out) -> In 62 s0).
    { intros Hi. rewrite Hs. apply in_app_or in Hi. apply in_or_app.
      destruct Hi as [Hi|[Hi|Hi]]; [left; exact Hi|discriminate|].
      right. apply in_or_app. right. exact (IHin Hi). }
    split; [|exact Hin].
    intros Hno Ht. apply has_tag_split in Ht.
    destruct Ht as [Hb|[Ho|(pre & b2 & x2 & post & Hb & Ho & Hb2 & _)]].
    + apply Hno. rewrite Hs. apply (@has_tag_part [] _ _ Hb).
    + revert Ho. apply IHtag. intros Ha. apply Hno. rewrite Hs.
      rewrite app_assoc, <- (app_nil_r (m_after m)).
      apply has_tag_part. exact Ha.
    + assert (Hi : In 62 (m_after m)).
      { apply IHin. rewrite Ho. apply in_or_app. right. left. reflexivity. }
      apply first_split in Hi. destruct Hi as (a1 & a2 & Ha & Ha1).
      apply Hno. exists pre, (b2 ++ m_text m ++ a1), a2.
      split; [|split].
      * rewrite Hs, Hb, Ha, <- ?app_assoc. cbn [app]. rewrite <- ?app_assoc.
        reflexivity.
      * destruct b2; [|discriminate]. destruct (m_text m); [contradiction|discriminate].
      * rewrite !forallb_app, Hb2, Ha1, (spaces_are_no_bracket _ Hws). reflexivity.
Qed.

Lemma trim_last s r c : trim s = r ++ [c] -> is_js_space c = false.
Proof.
  unfold trim, trimEnd. intros H.
  apply (f_equal (@rev N)) in H. rewrite rev_involutive, rev_app_distr in H.
  cbn [rev app] in H. exact (trimStart_head _ H).
Qed.

Lemma single_spaced_part a x b : single_spaced (a ++ x ++ b) -> single_spaced x.
Proof.
  intros H pre c post -> Hc.
  destruct (H (a ++ pre) c (post ++ b)) as [H32 Hnext].
  - rewrite <- !app_assoc. reflexivity.
  - exact Hc.
  - split; [exact H32|]. destruct post; [exact I|exact Hnext].
Qed.

(** X22: the summary of the body of an HTML page that goes into the
    message (line 121) is plain text: it holds no tag, which is a [<],
    one or more characters other than [>], and a [>]; each of its white
    space characters is a single blank that stands between two other
    characters, so it neither begins nor ends with white space. *)
Theorem plain_body_is_plain body :
  ~ has_tag (plainBodyOf body)
  /\ single_spaced (plainBodyOf body)
  /\ (forall c r, plainBodyOf body = c :: r -> is_js_space c = false)
  /\ (forall r c, plainBodyOf body = r ++ [c] -> is_js_space c = false).
Proof.
  unfold plainBodyOf.
  set (stripped := replace_all false tagRegex (js " ") body).
  set (collapsed := replace_all false spacesRegex (js " ") stripped).
  destruct (trim_part collapsed) as (a & b & Hab).
  split; [|split; [|split]].
  - intros Ht. apply (has_tag_part a b) in Ht. rewrite <- Hab in Ht.
    revert Ht. apply (proj1 (collapse_makes_no_tag stripped)).
    apply strip_leaves_no_tag.
  - apply (@single_spaced_part a _ b). rewrite <- Hab.
    apply (proj1 (collapse_single_spaced stripped)).
  - intros c r H. exact (trim_head _ H).
  - intros r c H. exact (@trim_last _ _ _ H).
Qed.
